(** * Job-lifecycle clients of the AI-audio adapters (ComfyUI, UVR5, LocalAI)

    A shallow embedding of
      - [comfyui_mcp/client.py]  (class [ComfyUIClient]),
      - [comfyui_mcp/server.py]  (tool [execute_workflow]),
      - [uvr5_mcp/client.py], [uvr5_mcp/server.py] (tool [separate_audio]),
      - [localai_mcp/utils.py]   ([make_output_file]),
    and the properties of the submit / wait / resolve / download cycle.

    Python values that come out of [json.load] / [response.json()] are
    modelled by the type [json]; a Python exception is an [outcome]
    [Raise]; the network, the clock and the file system are an explicit
    environment [Env] and an explicit state [World]. *)

From Stdlib Require Import ZArith List String Ascii Bool Lia Arith DecimalString
  Permutation.
Import ListNotations.

Set Warnings "-register-all".

Open Scope string_scope.
Open Scope Z_scope.

(* ===================================================================== *)
(** ** Python values *)
(* ===================================================================== *)

(** What [json.load] returns.  JSON numbers are modelled as integers
    (fractional literals are outside the model).  A [dict] keeps its
    insertion order, so it is an association list; lookups and updates
    act on the first binding of a key, and [json.load] never produces two
    bindings of one key. *)
Inductive json : Type :=
| JNull
| JBool (b : bool)
| JInt (z : Z)
| JStr (s : string)
| JArr (xs : list json)
| JObj (kvs : list (string * json)).

(** A Python exception: its class name and [str(e)]. *)
Record exn : Type := mkExn { exn_class : string; exn_msg : string }.

Definition TypeError (m : string) : exn := mkExn "TypeError" m.
Definition KeyError (k : string) : exn := mkExn "KeyError" ("'" ++ k ++ "'").
Definition AttributeError (m : string) : exn := mkExn "AttributeError" m.
Definition ValueError (m : string) : exn := mkExn "ValueError" m.
Definition OSError (m : string) : exn := mkExn "OSError" m.
(** [raise Exception(msg)] *)
Definition Exception (m : string) : exn := mkExn "Exception" m.

(** [type(v).__name__] *)
Definition type_name (v : json) : string :=
  match v with
  | JNull => "NoneType" | JBool _ => "bool" | JInt _ => "int"
  | JStr _ => "str" | JArr _ => "list" | JObj _ => "dict"
  end.

(** Truthiness, as [if v:] / [not v] test it. *)
Definition truthy (v : json) : bool :=
  match v with
  | JNull => false
  | JBool b => b
  | JInt z => negb (z =? 0)
  | JStr s => negb (s =? EmptyString)%string
  | JArr xs => match xs with [] => false | _ => true end
  | JObj kvs => match kvs with [] => false | _ => true end
  end.

Section Dict.
Context {V : Type}.

Fixpoint dict_lookup (k : string) (d : list (string * V)) : option V :=
  match d with
  | [] => None
  | (k', v) :: d' => if (k' =? k)%string then Some v else dict_lookup k d'
  end.

Definition dict_mem (k : string) (d : list (string * V)) : bool :=
  match dict_lookup k d with Some _ => true | None => false end.

(** [d[k] = v]: an existing key keeps its position, a new key goes last. *)
Fixpoint dict_set (k : string) (v : V) (d : list (string * V))
  : list (string * V) :=
  match d with
  | [] => [(k, v)]
  | (k', v') :: d' =>
      if (k' =? k)%string then (k', v) :: d' else (k', v') :: dict_set k v d'
  end.

End Dict.

(** *** [str()] and [repr()] of a value, as f-strings print it *)

Definition dquote : ascii := ascii_of_nat 34.
Definition squote : ascii := ascii_of_nat 39.
Definition backslash : ascii := ascii_of_nat 92.

Definition string_of_Z (z : Z) : string := NilZero.string_of_int (Z.to_int z).

Fixpoint contains_char (c : ascii) (s : string) : bool :=
  match s with
  | EmptyString => false
  | String c' s' => Ascii.eqb c' c || contains_char c s'
  end.

Definition hex_digit (n : nat) : ascii :=
  nth n (list_ascii_of_string "0123456789abcdef") "0"%char.

(** [str.isprintable] on the code points U+0000..U+00FF *)
Definition printable (n : nat) : bool :=
  ((32 <=? n) && (n <? 127) || (161 <=? n) && negb (n =? 173))%nat.

Definition escape_char (quote c : ascii) : string :=
  let n := nat_of_ascii c in
  if Ascii.eqb c quote || Ascii.eqb c backslash
  then String backslash (String c EmptyString)
  else if (n =? 9)%nat then String backslash "t"
  else if (n =? 10)%nat then String backslash "n"
  else if (n =? 13)%nat then String backslash "r"
  else if printable n then String c EmptyString
  else String backslash
         (String "x" (String (hex_digit (n / 16))
                        (String (hex_digit (n mod 16)) EmptyString))).

Fixpoint escape_all (quote : ascii) (s : string) : string :=
  match s with
  | EmptyString => EmptyString
  | String c s' => escape_char quote c ++ escape_all quote s'
  end.

Definition repr_str (s : string) : string :=
  let q := if contains_char squote s && negb (contains_char dquote s)
           then dquote else squote in
  String q (escape_all q s ++ String q EmptyString).

Fixpoint py_repr (v : json) : string :=
  match v with
  | JNull => "None"
  | JBool b => if b then "True" else "False"
  | JInt z => string_of_Z z
  | JStr s => repr_str s
  | JArr xs => "[" ++ String.concat ", " (map py_repr xs) ++ "]"
  | JObj kvs =>
      "{" ++ String.concat ", "
               (map (fun kv => match kv with
                               | (k, x) => repr_str k ++ ": " ++ py_repr x
                               end) kvs) ++ "}"
  end.

(** [str(v)], which is what [f"{v}"] prints *)
Definition py_str (v : json) : string :=
  match v with JStr s => s | _ => py_repr v end.

(** *** Dynamic operations; [inl e] is the exception they raise *)

(** [a == b] *)
Fixpoint py_eq (a b : json) {struct a} : bool :=
  match a, b with
  | JNull, JNull => true
  | JBool x, JBool y => Bool.eqb x y
  | JBool x, JInt z => z =? (if x then 1 else 0)
  | JInt z, JBool x => z =? (if x then 1 else 0)
  | JInt x, JInt y => x =? y
  | JStr s, JStr t => (s =? t)%string
  | JArr xs, JArr ys =>
      (fix go (l1 l2 : list json) : bool :=
         match l1, l2 with
         | [], [] => true
         | x :: l1', y :: l2' => py_eq x y && go l1' l2'
         | _, _ => false
         end) xs ys
  | JObj d1, JObj d2 =>
      (List.length d1 =? List.length d2)%nat &&
      forallb (fun kv => match kv with
                         | (k, x) => match dict_lookup k d2 with
                                     | Some y => py_eq x y
                                     | None => false
                                     end
                         end) d1
  | _, _ => false
  end.

(** [needle in hay] for two strings: substring test. *)
Fixpoint is_substring (needle hay : string) : bool :=
  if String.prefix needle hay then true
  else match hay with
       | EmptyString => false
       | String _ hay' => is_substring needle hay'
       end.

(** [x in c] *)
Definition py_in (x c : json) : exn + bool :=
  match c with
  | JObj kvs =>
      match x with
      | JStr k => inr (dict_mem k kvs)
      | JArr _ | JObj _ => inl (TypeError ("unhashable type: '" ++ type_name x ++ "'"))
      | _ => inr false
      end
  | JArr xs => inr (existsb (py_eq x) xs)
  | JStr s =>
      match x with
      | JStr k => inr (is_substring k s)
      | _ => inl (TypeError ("'in <string>' requires string as left operand, not "
                             ++ type_name x))
      end
  | _ => inl (TypeError ("argument of type '" ++ type_name c ++ "' is not iterable"))
  end.

(** [l[i]] for a list and an integer, negative indices counting from the end *)
Definition list_index {A} (l : list A) (i : Z) : option A :=
  let j := if i <? 0 then i + Z.of_nat (List.length l) else i in
  if j <? 0 then None else nth_error l (Z.to_nat j).

Fixpoint chars (s : string) : list json :=
  match s with
  | EmptyString => []
  | String c s' => JStr (String c EmptyString) :: chars s'
  end.

Definition as_index (x : json) : option Z :=
  match x with
  | JInt i => Some i
  | JBool b => Some (if b then 1 else 0)
  | _ => None
  end.

(** [c[x]] *)
Definition py_getitem (c x : json) : exn + json :=
  match c with
  | JObj kvs =>
      match x with
      | JStr k => match dict_lookup k kvs with
                  | Some v => inr v
                  | None => inl (KeyError k)
                  end
      | JArr _ | JObj _ => inl (TypeError ("unhashable type: '" ++ type_name x ++ "'"))
      | _ => inl (mkExn "KeyError" (py_repr x))
      end
  | JArr xs =>
      match as_index x with
      | Some i => match list_index xs i with
                  | Some v => inr v
                  | None => inl (mkExn "IndexError" "list index out of range")
                  end
      | None => inl (TypeError ("list indices must be integers or slices, not "
                                ++ type_name x))
      end
  | JStr s =>
      match as_index x with
      | Some i => match list_index (chars s) i with
                  | Some v => inr v
                  | None => inl (mkExn "IndexError" "string index out of range")
                  end
      | None => inl (TypeError ("string indices must be integers, not '"
                                ++ type_name x ++ "'"))
      end
  | _ => inl (TypeError ("'" ++ type_name c ++ "' object is not subscriptable"))
  end.

(** [c.get(k, dflt)] *)
Definition py_get (c : json) (k : string) (dflt : json) : exn + json :=
  match c with
  | JObj kvs =>
      match dict_lookup k kvs with
      | Some v => inr v
      | None => inr dflt
      end
  | _ => inl (AttributeError ("'" ++ type_name c ++ "' object has no attribute 'get'"))
  end.

(** [c.items()] *)
Definition py_items (c : json) : exn + list (string * json) :=
  match c with
  | JObj kvs => inr kvs
  | _ => inl (AttributeError ("'" ++ type_name c ++ "' object has no attribute 'items'"))
  end.

(** [for x in c]: the elements a [for] loop visits. *)
Definition py_iter (c : json) : exn + list json :=
  match c with
  | JArr xs => inr xs
  | JObj kvs => inr (map (fun kv => JStr (fst kv)) kvs)
  | JStr s => inr (chars s)
  | _ => inl (TypeError ("'" ++ type_name c ++ "' object is not iterable"))
  end.

(** [c[k] = v] with [k] a [str] *)
Definition py_setitem (c : json) (k : string) (v : json) : exn + json :=
  match c with
  | JObj kvs => inr (JObj (dict_set k v kvs))
  | JArr _ => inl (TypeError "list indices must be integers or slices, not str")
  | _ => inl (TypeError ("'" ++ type_name c
                         ++ "' object does not support item assignment"))
  end.

(** The result of [d.update(other)].  A key that is hashable but not a
    [str] would give a dict that [json] cannot hold: [UpdUnmodelled]. *)
Inductive update_result : Type :=
| UpdOk (d : list (string * json))
| UpdRaise (e : exn)
| UpdUnmodelled.

(** One element of an update sequence must itself have two elements. *)
Definition update_pair (d : list (string * json)) (x : json) : update_result :=
  match py_iter x with
  | inl _ => UpdRaise (TypeError
               "cannot convert dictionary update sequence element to a sequence")
  | inr [k; v] =>
      match k with
      | JStr s => UpdOk (dict_set s v d)
      | JArr _ | JObj _ =>
          UpdRaise (TypeError ("unhashable type: '" ++ type_name k ++ "'"))
      | _ => UpdUnmodelled
      end
  | inr _ => UpdRaise (ValueError
               "dictionary update sequence element has the wrong length; 2 is required")
  end.

Fixpoint update_pairs (d : list (string * json)) (l : list json) : update_result :=
  match l with
  | [] => UpdOk d
  | x :: l' =>
      match update_pair d x with
      | UpdOk d' => update_pairs d' l'
      | r => r
      end
  end.

(** [c.update(other)] *)
Definition py_update (c other : json) : update_result :=
  match c with
  | JObj d =>
      match other with
      | JObj kvs => UpdOk (fold_left (fun acc kv => dict_set (fst kv) (snd kv) acc) kvs d)
      | _ =>
          match py_iter other with
          | inl e => UpdRaise e
          | inr l => update_pairs d l
          end
      end
  | _ => UpdRaise (AttributeError ("'" ++ type_name c
                                   ++ "' object has no attribute 'update'"))
  end.

(* ===================================================================== *)
(** ** The outside world: network, clock, file system *)
(* ===================================================================== *)

Inductive request : Type :=
| GET (url : string) (params : list (string * json))
| POST_json (url : string) (body : json)
| POST_files (url : string) (file : string) (data : list (string * string)).

(** An HTTP response as the client code reads it: the status, what
    [response.json()] gives (or the decoding error) and the raw body. *)
Record response : Type := mkResponse {
  status_code : Z;
  json_body : exn + json;
  content : string
}.

(** What [httpx.Client.get/post] does: raise (connection refused, DNS
    failure, timeout) or hand back a response. *)
Inductive reply : Type :=
| TransportError (e : exn)
| Reply (r : response).

(** What a template file holds, as [open] + [json.load] see it. *)
Inductive file_state : Type :=
| Unreadable (cause : exn)
| Unparseable (cause : exn)
| Parsed (j : json).

(** The environment of one run.  Every interaction with the outside is
    numbered ([n] is the number of interactions before this one), so the
    replies may vary in any way from one call to the next, and may depend
    on the instant [t] at which the request is served. *)
Record Env : Type := mkEnv {
  serve : nat -> Z -> request -> reply;
  (** time a request stays in flight before it is served and answered *)
  delay : nat -> Z;
  (** [str(uuid.uuid4())] *)
  uuid4 : nat -> string;
  (** [open(path, 'r')] followed by [json.load] *)
  read_json : string -> file_state;
  (** [Path.exists()] *)
  exists_file : string -> bool;
  (** [open(path, "rb")]: the bytes, or the error *)
  read_bytes : string -> exn + string;
  (** [mkdir(parents=True, exist_ok=True)]: the error, if any *)
  mkdir_error : nat -> string -> option exn;
  (** [open(path, "wb")]: the error, if any *)
  open_error : nat -> string -> option exn;
  (** [f.write(data)]: the error, if any *)
  write_error : nat -> string -> option exn;
  (** [json.loads] *)
  json_loads : string -> exn + json
}.

Inductive level : Type := INFO | WARNING | ERROR.

Inductive event : Type :=
| EvRequest (rq : request) (rp : reply) (sent_at served_at : Z)
| EvSleep (seconds : Z)
| EvLog (lvl : level) (msg : string)
| EvMkdir (path : string)
| EvOpen (path : string)
| EvWrite (path : string) (data : string).

(** The state threaded through a run: the wall clock ([time.time()]),
    the number of interactions so far and the history of effects, newest
    first.  The clock counts in the unit in which [max_wait] and
    [poll_interval] are given; time passes only in [time.sleep] and while
    a request is in flight. *)
Record World : Type := mkWorld {
  now : Z;
  count : nat;
  trace : list event
}.

Inductive outcome (A : Type) : Type :=
| Ret (a : A)        (* normal return *)
| Raise (e : exn)    (* an exception propagates *)
| OutOfFuel          (* the wait loop was cut off by the fuel bound *)
| Unmodelled.        (* a Python value that [json] cannot hold *)
Arguments Ret {A} a.
Arguments Raise {A} e.
Arguments OutOfFuel {A}.
Arguments Unmodelled {A}.

Definition M (A : Type) : Type := World -> outcome A * World.

Definition ret {A} (a : A) : M A := fun w => (Ret a, w).
Definition raise {A} (e : exn) : M A := fun w => (Raise e, w).

Definition bind {A B} (m : M A) (k : A -> M B) : M B :=
  fun w =>
    match m w with
    | (Ret a, w') => k a w'
    | (Raise e, w') => (Raise e, w')
    | (OutOfFuel, w') => (OutOfFuel, w')
    | (Unmodelled, w') => (Unmodelled, w')
    end.

(** [try: body  except Exception as e: handler e] *)
Definition try_except {A} (body : M A) (handler : exn -> M A) : M A :=
  fun w =>
    match body w with
    | (Raise e, w') => handler e w'
    | r => r
    end.

(** A dynamic operation that may raise. *)
Definition lift {A} (r : exn + A) : M A :=
  match r with inl e => raise e | inr a => ret a end.

Declare Scope py_scope.
Delimit Scope py_scope with py.
Notation "x <- m ;; k" := (bind m (fun x => k))
  (at level 61, m at next level, right associativity) : py_scope.
Notation "m ;;; k" := (bind m (fun _ => k))
  (at level 61, right associativity) : py_scope.
Open Scope py_scope.

Definition emit (e : event) : M unit :=
  fun w => (Ret tt, mkWorld (now w) (count w) (e :: trace w)).

Definition logger (lvl : level) (msg : string) : M unit := emit (EvLog lvl msg).

(** [time.time()] *)
Definition time_time : M Z := fun w => (Ret (now w), w).

(** [time.sleep(d)] *)
Definition time_sleep (d : Z) : M unit :=
  fun w =>
    if d <? 0 then (Raise (ValueError "sleep length must be non-negative"), w)
    else (Ret tt, mkWorld (now w + d) (count w) (EvSleep d :: trace w)).

Section WithEnv.
Variable env : Env.

(** One [httpx] call: the request is in flight for [delay] (never
    negative), is served at that instant, and the call returns then. *)
Definition http (rq : request) : M response :=
  fun w =>
    let t := now w + Z.max 0 (delay env (count w)) in
    let rp := serve env (count w) t rq in
    let w' := mkWorld t (S (count w)) (EvRequest rq rp (now w) t :: trace w) in
    match rp with
    | TransportError e => (Raise e, w')
    | Reply r => (Ret r, w')
    end.

Definition fresh_uuid : M string :=
  fun w => (Ret (uuid4 env (count w)), mkWorld (now w) (S (count w)) (trace w)).

(** [with open(path, 'r') as f: json.load(f)] *)
Definition open_json (path : string) : M json :=
  match read_json env path with
  | Unreadable e => raise e
  | Unparseable e => raise e
  | Parsed j => ret j
  end.

Definition mkdir (path : string) : M unit :=
  fun w =>
    match mkdir_error env (count w) path with
    | Some e => (Raise e, mkWorld (now w) (S (count w)) (trace w))
    | None => (Ret tt, mkWorld (now w) (S (count w)) (EvMkdir path :: trace w))
    end.

(** [open(path, "wb")]: the file is created or emptied *)
Definition open_wb (path : string) : M unit :=
  fun w =>
    match open_error env (count w) path with
    | Some e => (Raise e, mkWorld (now w) (S (count w)) (trace w))
    | None => (Ret tt, mkWorld (now w) (S (count w)) (EvOpen path :: trace w))
    end.

(** [f.write(data)] *)
Definition write (path : string) (data : string) : M unit :=
  fun w =>
    match write_error env (count w) path with
    | Some e => (Raise e, mkWorld (now w) (S (count w)) (trace w))
    | None => (Ret tt, mkWorld (now w) (S (count w)) (EvWrite path data :: trace w))
    end.
End WithEnv.

(** [response.raise_for_status()] of httpx: an error for every status
    outside 200..299. *)
Definition is_success (r : response) : bool :=
  (200 <=? status_code r) && (status_code r <=? 299).

Definition raise_for_status (r : response) : M unit :=
  if is_success r then ret tt
  else raise (mkExn "HTTPStatusError"
                    ("Error response '" ++ string_of_Z (status_code r) ++ "'")).

(** [s.startswith(p)] *)
Fixpoint starts_with (p s : string) : bool :=
  match p with
  | EmptyString => true
  | String a p' =>
      match s with
      | EmptyString => false
      | String b s' => Ascii.eqb a b && starts_with p' s'
      end
  end.

Fixpoint split_on (sep : ascii) (s : string) : list string :=
  match s with
  | EmptyString => [EmptyString]
  | String c s' =>
      if Ascii.eqb c sep then EmptyString :: split_on sep s'
      else match split_on sep s' with
           | [] => [String c EmptyString]
           | x :: l => String c x :: l
           end
  end.

(** The components of a path, as [pathlib] keeps them: empty and ["."]
    components are dropped. *)
Definition components (p : string) : list string :=
  filter (fun c => negb (c =? EmptyString)%string && negb (c =? ".")%string)
         (split_on "/" p).

(** [s.endswith(c)] for one character *)
Fixpoint ends_with_char (c : ascii) (s : string) : bool :=
  match s with
  | EmptyString => false
  | String a EmptyString => Ascii.eqb a c
  | String _ s' => ends_with_char c s'
  end.

(** [posixpath.join(dir, name)], which [pathlib] applies to the two
    segments: an absolute [name] replaces the directory, and a separator
    is put in between unless the directory is empty or ends with one. *)
Definition posix_join (dir name : string) : string :=
  if starts_with "/" name then name
  else if (dir =? EmptyString)%string || ends_with_char "/" dir then dir ++ name
  else dir ++ "/" ++ name.

(** The root [pathlib] finds in a POSIX path: exactly two leading
    slashes are kept, any other number of them is one. *)
Definition path_root (p : string) : string :=
  if starts_with "//" p && negb (starts_with "///" p) then "//"
  else if starts_with "/" p then "/"
  else EmptyString.

(** [str(Path(p))]: the root and the components, with one separator
    between two components; the empty path prints as [.]. *)
Definition path_str (p : string) : string :=
  match path_root p, components p with
  | EmptyString, [] => "."
  | root, parts => root ++ String.concat "/" parts
  end.

(** [str(Path(dir) / name)] *)
Definition path_join (dir name : string) : string := path_str (posix_join dir name).

(* ===================================================================== *)
(** ** comfyui_mcp/client.py *)
(* ===================================================================== *)

Module ComfyUI.

(** One entry of the list [get_output_files] returns: the dict
    [{"type", "filename", "subfolder", "node_id"}]. *)
Record descriptor : Type := mkDescriptor {
  d_type : string;
  d_filename : json;
  d_subfolder : json;
  d_node_id : string
}.

(** The test the wait loop makes on one history reply:
    [prompt_id in history and "outputs" in history[prompt_id]]. *)
Definition completed (prompt_id history : json) : exn + bool :=
  match py_in prompt_id history with
  | inl e => inl e
  | inr false => inr false
  | inr true =>
      match py_getitem history prompt_id with
      | inl e => inl e
      | inr prompt_data => py_in (JStr "outputs") prompt_data
      end
  end.

(** The inner loops of [get_output_files]: one descriptor per entry. *)
Fixpoint entries (kind node_id : string) (l : list json) : exn + list descriptor :=
  match l with
  | [] => inr []
  | x :: l' =>
      match py_get x "filename" JNull with
      | inl e => inl e
      | inr fname =>
          match py_get x "subfolder" (JStr EmptyString) with
          | inl e => inl e
          | inr sub =>
              match entries kind node_id l' with
              | inl e => inl e
              | inr ds => inr (mkDescriptor kind fname sub node_id :: ds)
              end
          end
      end
  end.

(** [if key in node_output: for x in node_output[key]: files.append(...)] *)
Definition section_files (key kind node_id : string) (node_output : json)
  : exn + list descriptor :=
  match py_in (JStr key) node_output with
  | inl e => inl e
  | inr false => inr []
  | inr true =>
      match py_getitem node_output (JStr key) with
      | inl e => inl e
      | inr sect =>
          match py_iter sect with
          | inl e => inl e
          | inr l => entries kind node_id l
          end
      end
  end.

(** The body of [for node_id, node_output in outputs.items()]. *)
Fixpoint output_files (items : list (string * json)) : exn + list descriptor :=
  match items with
  | [] => inr []
  | (node_id, node_output) :: rest =>
      match section_files "images" "image" node_id node_output with
      | inl e => inl e
      | inr imgs =>
          match section_files "audio" "audio" node_id node_output with
          | inl e => inl e
          | inr auds =>
              match output_files rest with
              | inl e => inl e
              | inr ds => inr (imgs ++ auds ++ ds)%list
              end
          end
      end
  end.

Section Client.
Variable env : Env.
(** [self.base_url] *)
Variable base_url : string.

Definition check_health : M bool :=
  try_except
    (response <- http env (GET (base_url ++ "/system_stats") []) ;;
     ret (status_code response =? 200))
    (fun e =>
       logger ERROR ("Health check failed: " ++ exn_msg e) ;;;
       ret false).

Definition load_workflow (workflow_path : string) : M json :=
  try_except
    (open_json env workflow_path)
    (fun e =>
       logger ERROR ("Failed to load workflow: " ++ exn_msg e) ;;;
       raise (Exception ("Failed to load workflow from " ++ workflow_path
                         ++ ": " ++ exn_msg e))).

Definition queue_prompt (workflow : json) (client_id : option string) : M json :=
  try_except
    (cid <- match client_id with
            | None => fresh_uuid env
            | Some c => ret c
            end ;;
     let payload := JObj [("prompt", workflow); ("client_id", JStr cid)] in
     response <- http env (POST_json (base_url ++ "/prompt") payload) ;;
     raise_for_status response ;;;
     result <- lift (json_body response) ;;
     prompt_id <- lift (py_get result "prompt_id" JNull) ;;
     if negb (truthy prompt_id) then raise (Exception "No prompt_id in response")
     else
       logger INFO ("Queued prompt with ID: " ++ py_str prompt_id) ;;;
       ret prompt_id)
    (fun e =>
       logger ERROR ("Failed to queue prompt: " ++ exn_msg e) ;;;
       raise (Exception ("Failed to queue workflow: " ++ exn_msg e))).

Definition history_request (prompt_id : json) : request :=
  GET (base_url ++ "/history/" ++ py_str prompt_id) [].

Definition get_history (prompt_id : json) : M json :=
  try_except
    (response <- http env (history_request prompt_id) ;;
     raise_for_status response ;;;
     lift (json_body response))
    (fun e =>
       logger ERROR ("Failed to get history: " ++ exn_msg e) ;;;
       ret (JObj [])).

(** One turn of the [while] body; [true] stands for [return True]. *)
Definition poll_once (prompt_id : json) (poll_interval : Z) : M bool :=
  try_except
    (history <- get_history prompt_id ;;
     done <- lift (completed prompt_id history) ;;
     if (done : bool) then
       logger INFO ("Workflow " ++ py_str prompt_id ++ " completed") ;;;
       ret true
     else
       time_sleep poll_interval ;;;
       ret false)
    (fun e =>
       logger ERROR ("Error checking completion: " ++ exn_msg e) ;;;
       time_sleep poll_interval ;;;
       ret false).

(** [while time.time() - start_time < max_wait: ...]; the loop of the
    source has no bound of its own, [fuel] bounds the number of turns. *)
Fixpoint wait_loop (fuel : nat) (prompt_id : json) (max_wait poll_interval : Z)
         (start_time : Z) : M bool :=
  fun w =>
    if now w - start_time <? max_wait then
      match fuel with
      | O => (OutOfFuel, w)
      | S fuel' =>
          (done <- poll_once prompt_id poll_interval ;;
           if (done : bool) then ret true
           else wait_loop fuel' prompt_id max_wait poll_interval start_time) w
      end
    else
      (logger WARNING ("Workflow " ++ py_str prompt_id ++ " did not complete within "
                       ++ string_of_Z max_wait ++ "s") ;;;
       ret false) w.

Definition wait_for_completion (fuel : nat) (prompt_id : json)
           (max_wait poll_interval : Z) : M bool :=
  start_time <- time_time ;;
  wait_loop fuel prompt_id max_wait poll_interval start_time.

Definition get_output_files (prompt_id : json) : M (list descriptor) :=
  try_except
    (history <- get_history prompt_id ;;
     present <- lift (py_in prompt_id history) ;;
     if negb present then ret []
     else
       record <- lift (py_getitem history prompt_id) ;;
       outputs <- lift (py_get record "outputs" (JObj [])) ;;
       items <- lift (py_items outputs) ;;
       lift (output_files items))
    (fun e =>
       logger ERROR ("Failed to get output files: " ++ exn_msg e) ;;;
       ret []).

Definition view_params (filename subfolder : json) (file_type : string)
  : list (string * json) :=
  ([("filename", filename); ("type", JStr file_type)]
   ++ (if truthy subfolder then [("subfolder", subfolder)] else []))%list.

Definition download_file (filename subfolder : json) (file_type : string)
  : M string :=
  try_except
    (response <- http env (GET (base_url ++ "/view")
                               (view_params filename subfolder file_type)) ;;
     raise_for_status response ;;;
     ret (content response))
    (fun e =>
       logger ERROR ("Failed to download file: " ++ exn_msg e) ;;;
       raise (Exception ("Failed to download file " ++ py_str filename
                         ++ ": " ++ exn_msg e))).

End Client.
End ComfyUI.

(* ===================================================================== *)
(** ** comfyui_mcp/server.py *)
(* ===================================================================== *)

(** [TextContent(type="text", text=...)] *)
Record TextContent : Type := mkText { text : string }.

Definition newline : string := String (ascii_of_nat 10) EmptyString.

(** [s.rstrip('/')] *)
Fixpoint rstrip_slash (s : string) : string :=
  match s with
  | EmptyString => EmptyString
  | String c s' =>
      match rstrip_slash s' with
      | EmptyString => if Ascii.eqb c "/" then EmptyString else String c EmptyString
      | r => String c r
      end
  end.

(** [Path(dir) / x]: only a [str] can be joined to a path. *)
Definition path_div (dir : string) (x : json) : exn + string :=
  match x with
  | JStr name => inr (path_join dir name)
  | _ => inl (TypeError ("unsupported operand type(s) for /: 'PosixPath' and '"
                         ++ type_name x ++ "'"))
  end.

Module ComfyUIServer.
Import ComfyUI.

(** The text-injection step of one top-level entry (server.py, the body
    of the loop under "Inject prompt text if provided"): the new entry
    and whether it was updated. *)
Definition inject_node (prompt_text : string) (node_data : json)
  : exn + (json * bool) :=
  match node_data with
  | JObj fields =>
      match py_get node_data "inputs" (JObj []) with
      | inl e => inl e
      | inr inputs =>
          match py_in (JStr "text") inputs with
          | inl e => inl e
          | inr false => inr (node_data, false)
          | inr true =>
              match py_setitem inputs "text" (JStr prompt_text) with
              | inl e => inl e
              | inr inputs' => inr (JObj (dict_set "inputs" inputs' fields), true)
              end
          end
      end
  | _ => inr (node_data, false)
  end.

(** [for node_id, node_data in workflow.items(): ...] *)
Fixpoint inject_items (prompt_text : string) (items : list (string * json))
  : M (list (string * json)) :=
  match items with
  | [] => ret []
  | (node_id, node_data) :: rest =>
      r <- lift (inject_node prompt_text node_data) ;;
      (if snd r then logger INFO ("Updated text input in node " ++ node_id)
       else ret tt) ;;;
      rest' <- inject_items prompt_text rest ;;
      ret ((node_id, fst r) :: rest')
  end.

Definition inject_text (prompt_text : string) (workflow : json) : M json :=
  items <- lift (py_items workflow) ;;
  items' <- inject_items prompt_text items ;;
  ret (JObj items').

(** [workflow[node_id]["inputs"].update(param_data)] for each entry of
    the decoded [workflow_params]. *)
Fixpoint inject_params (params : list (string * json)) (workflow : json) : M json :=
  match params with
  | [] => ret workflow
  | (node_id, param_data) :: rest =>
      present <- lift (py_in (JStr node_id) workflow) ;;
      if (present : bool) then
        node <- lift (py_getitem workflow (JStr node_id)) ;;
        inputs <- lift (py_getitem node (JStr "inputs")) ;;
        match py_update inputs param_data with
        | UpdRaise e => raise e
        | UpdUnmodelled => fun w => (Unmodelled, w)
        | UpdOk inputs' =>
            node' <- lift (py_setitem node "inputs" (JObj inputs')) ;;
            workflow' <- lift (py_setitem workflow node_id node') ;;
            inject_params rest workflow'
        end
      else inject_params rest workflow
  end.

Section Server.
Variable env : Env.
Variable COMFYUI_BASE_URL : string.
Variable COMFYUI_WORKFLOW_PATH : string.

(** [client = ComfyUIClient(base_url=COMFYUI_BASE_URL)] *)
Definition base_url : string := rstrip_slash COMFYUI_BASE_URL.

(** The body of the download loop for one [file_info]: the saved path,
    or [None] when the attempt raised and was logged. *)
Definition save_one (output_path : string) (file_info : descriptor)
  : M (option string) :=
  try_except
    (file_data <- download_file env base_url (d_filename file_info)
                                (d_subfolder file_info) "output" ;;
     save_path <- lift (path_div output_path (d_filename file_info)) ;;
     open_wb env save_path ;;;
     write env save_path file_data ;;;
     logger INFO ("Saved " ++ d_type file_info ++ " file: " ++ save_path) ;;;
     ret (Some save_path))
    (fun e =>
       logger ERROR ("Failed to download file " ++ py_str (d_filename file_info)
                     ++ ": " ++ exn_msg e) ;;;
       ret None).

(** [for file_info in output_files: ...], returning [saved_files] *)
Fixpoint save_all (output_path : string) (output_files : list descriptor)
  : M (list string) :=
  match output_files with
  | [] => ret []
  | file_info :: rest =>
      r <- save_one output_path file_info ;;
      saved <- save_all output_path rest ;;
      ret (match r with Some p => p :: saved | None => saved end)
  end.

Definition or_default (x : option string) (dflt : string) : string :=
  match x with
  | Some s => if (s =? EmptyString)%string then dflt else s
  | None => dflt
  end.

Definition is_given (x : option string) : bool :=
  match x with
  | Some s => negb (s =? EmptyString)%string
  | None => false
  end.

(** The tool; [fuel] bounds the turns of the wait loop. *)
Definition execute_workflow (fuel : nat)
           (workflow_path prompt_text : option string)
           (output_directory : string) (max_wait : Z)
           (workflow_params : option string) : M TextContent :=
  healthy <- check_health env base_url ;;
  if negb healthy then
    ret (mkText ("Error: Cannot connect to ComfyUI server at " ++ COMFYUI_BASE_URL))
  else
    let wf_path := or_default workflow_path COMFYUI_WORKFLOW_PATH in
    if (wf_path =? EmptyString)%string then
      ret (mkText ("Error: No workflow path provided. Set COMFYUI_WORKFLOW_PATH "
                   ++ "or provide workflow_path parameter"))
    else
      try_except
        (workflow <- load_workflow env wf_path ;;
         workflow <- (if is_given prompt_text
                      then inject_text (or_default prompt_text EmptyString) workflow
                      else ret workflow) ;;
         workflow <- (if is_given workflow_params
                      then
                        params <- lift (json_loads env (or_default workflow_params EmptyString)) ;;
                        items <- lift (py_items params) ;;
                        inject_params items workflow
                      else ret workflow) ;;
         prompt_id <- queue_prompt env base_url workflow None ;;
         logger INFO ("Waiting for workflow completion (max "
                      ++ string_of_Z max_wait ++ "s)...") ;;;
         completed <- wait_for_completion env base_url fuel prompt_id max_wait 2 ;;
         if negb completed then
           ret (mkText ("Workflow execution timed out after " ++ string_of_Z max_wait
                        ++ "s. Check ComfyUI server."))
         else
           output_files <- get_output_files env base_url prompt_id ;;
           match output_files with
           | [] => ret (mkText "Workflow completed but no output files found")
           | _ =>
               mkdir env output_directory ;;;
               saved_files <- save_all output_directory output_files ;;
               match saved_files with
               | _ :: _ =>
                   ret (mkText ("Workflow completed successfully!" ++ newline ++ newline
                                ++ "Generated files:" ++ newline
                                ++ String.concat newline saved_files))
               | [] =>
                   ret (mkText "Workflow completed but failed to download output files")
               end
           end)
        (fun e =>
           logger ERROR ("Workflow execution failed: " ++ exn_msg e) ;;;
           ret (mkText ("Error: " ++ exn_msg e))).

End Server.
End ComfyUIServer.

(* ===================================================================== *)
(** ** uvr5_mcp/client.py and uvr5_mcp/server.py *)
(* ===================================================================== *)

(** [Path(p).name] *)
Definition path_name (p : string) : string := last (components p) EmptyString.

(** [s.rfind(c)] *)
Fixpoint rfind (c : ascii) (s : string) : option nat :=
  match s with
  | EmptyString => None
  | String c' s' =>
      match rfind c s' with
      | Some i => Some (S i)
      | None => if Ascii.eqb c' c then Some O else None
      end
  end.

(** [Path(p).stem] *)
Definition path_stem (p : string) : string :=
  let name := path_name p in
  match rfind "." name with
  | Some i =>
      if ((0 <? i) && (i <? String.length name - 1))%nat
      then substring 0 i name else name
  | None => name
  end.

(** [s.encode()] on code points up to U+00FF: UTF-8 *)
Fixpoint utf8 (s : string) : string :=
  match s with
  | EmptyString => EmptyString
  | String c s' =>
      let n := nat_of_ascii c in
      if (n <? 128)%nat then String c (utf8 s')
      else String (ascii_of_nat (192 + n / 64))
             (String (ascii_of_nat (128 + n mod 64)) (utf8 s'))
  end.

Module UVR5.

Section Client.
Variable env : Env.
Variable base_url : string.

Definition check_health : M bool :=
  try_except
    (response <- http env (GET (base_url ++ "/health") []) ;;
     ret (status_code response =? 200))
    (fun e =>
       logger ERROR ("Health check failed: " ++ exn_msg e) ;;;
       ret false).

Definition separate_audio (audio_file model_name output_format stem_naming : string)
  : M json :=
  try_except
    (let data := [("model_name", model_name); ("output_format", output_format);
                  ("stem_naming", stem_naming)] in
     response <- http env (POST_files (base_url ++ "/api/separate") audio_file data) ;;
     raise_for_status response ;;;
     lift (json_body response))
    (fun e =>
       logger ERROR ("Audio separation failed: " ++ exn_msg e) ;;;
       raise (Exception ("Failed to separate audio: " ++ exn_msg e))).

Definition result_request (job_id : json) : request :=
  GET (base_url ++ "/api/result/" ++ py_str job_id) [].

Definition get_separation_result (job_id : json) : M json :=
  try_except
    (response <- http env (result_request job_id) ;;
     raise_for_status response ;;;
     lift (json_body response))
    (fun e =>
       logger ERROR ("Failed to get separation result: " ++ exn_msg e) ;;;
       ret (JObj [("status", JStr "error"); ("message", JStr (exn_msg e))])).

Definition download_request (job_id : json) (stem_type : string) : request :=
  GET (base_url ++ "/api/download/" ++ py_str job_id ++ "/" ++ stem_type) [].

Definition download_stem (job_id : json) (stem_type : string) : M string :=
  try_except
    (response <- http env (download_request job_id stem_type) ;;
     raise_for_status response ;;;
     ret (content response))
    (fun e =>
       logger ERROR ("Failed to download stem: " ++ exn_msg e) ;;;
       raise (Exception ("Failed to download " ++ stem_type ++ " stem: "
                         ++ exn_msg e))).
End Client.
End UVR5.

Module UVR5Server.

(** What the stem data is: the [bytes] of a download, or the value found
    in an immediate result. *)
Inductive stem_data : Type :=
| Bytes (b : string)
| Value (v : json).

(** [data if isinstance(data, bytes) else data.encode()] *)
Definition to_bytes (d : stem_data) : exn + string :=
  match d with
  | Bytes b => inr b
  | Value (JStr s) => inr (utf8 s)
  | Value v => inl (AttributeError ("'" ++ type_name v
                                    ++ "' object has no attribute 'encode'"))
  end.

(** [flag and stem in job_result.get("stems", {})] *)
Definition wanted (flag : bool) (stem : string) (job_result : json) : exn + bool :=
  if flag then
    match py_get job_result "stems" (JObj []) with
    | inl e => inl e
    | inr stems => py_in (JStr stem) stems
    end
  else inr false.

Section Server.
Variable env : Env.
Variable UVR5_BASE_URL : string.

Definition base_url : string := rstrip_slash UVR5_BASE_URL.

(** The [try] block that downloads and saves one stem. *)
Definition save_stem (job_id job_result : json) (stem : string)
           (output_path base_name output_format : string) : M (option string) :=
  try_except
    (data <- (if truthy job_id
              then b <- UVR5.download_stem env base_url job_id stem ;; ret (Bytes b)
              else
                stems <- lift (py_getitem job_result (JStr "stems")) ;;
                v <- lift (py_getitem stems (JStr stem)) ;;
                ret (Value v)) ;;
     let path := path_join output_path
                           (base_name ++ "_" ++ stem ++ "." ++ output_format) in
     open_wb env path ;;;
     bytes <- lift (to_bytes data) ;;
     write env path bytes ;;;
     ret (Some path))
    (fun e =>
       logger ERROR ("Failed to save " ++ stem ++ ": " ++ exn_msg e) ;;;
       ret None).

Definition opt_list {A} (x : option A) : list A :=
  match x with Some a => [a] | None => [] end.

(** Everything after the job result is known: "Download and save stems". *)
Definition save_stems (job_id job_result : json)
           (audio_file_path model_name output_directory output_format : string)
           (extract_vocals extract_instrumental : bool) : M TextContent :=
  mkdir env output_directory ;;;
  let base_name := path_stem audio_file_path in
  want_v <- lift (wanted extract_vocals "vocals" job_result) ;;
  v <- (if (want_v : bool)
        then save_stem job_id job_result "vocals" output_directory base_name
                       output_format
        else ret None) ;;
  want_i <- lift (wanted extract_instrumental "instrumental" job_result) ;;
  i <- (if (want_i : bool)
        then save_stem job_id job_result "instrumental" output_directory base_name
                       output_format
        else ret None) ;;
  match (opt_list v ++ opt_list i)%list with
  | [] => ret (mkText "Separation completed but no stems could be saved")
  | saved_files =>
      ret (mkText ("Audio separation completed!" ++ newline ++ newline
                   ++ "Separated stems:" ++ newline
                   ++ String.concat newline saved_files
                   ++ newline ++ newline ++ "Model: " ++ model_name))
  end.

Definition separate_audio
           (audio_file_path model_name output_directory output_format : string)
           (extract_vocals extract_instrumental : bool) : M TextContent :=
  healthy <- UVR5.check_health env base_url ;;
  if negb healthy then
    ret (mkText ("Error: Cannot connect to UVR5 server at " ++ UVR5_BASE_URL))
  else
    try_except
      (if negb (exists_file env audio_file_path) then
         ret (mkText ("Error: File not found: " ++ audio_file_path))
       else
         audio_file <- lift (read_bytes env audio_file_path) ;;
         result <- UVR5.separate_audio env base_url audio_file model_name
                                       output_format "standard" ;;
         job_id <- lift (py_get result "job_id" JNull) ;;
         if truthy job_id then
           logger INFO ("Separation job queued with ID: " ++ py_str job_id) ;;;
           job_result <- UVR5.get_separation_result env base_url job_id ;;
           status <- lift (py_get job_result "status" JNull) ;;
           if negb (py_eq status (JStr "completed")) then
             ret (mkText ("Separation in progress. Job ID: " ++ py_str job_id
                          ++ newline ++ "Check status later."))
           else
             save_stems job_id job_result audio_file_path model_name
                        output_directory output_format
                        extract_vocals extract_instrumental
         else
           save_stems job_id result audio_file_path model_name
                      output_directory output_format
                      extract_vocals extract_instrumental)
      (fun e =>
         logger ERROR ("Audio separation failed: " ++ exn_msg e) ;;;
         ret (mkText ("Error: " ++ exn_msg e))).

End Server.
End UVR5Server.

(* ===================================================================== *)
(** ** localai_mcp/utils.py *)
(* ===================================================================== *)

Module LocalAIUtils.

(** A reading of [datetime.now()]. *)
Record datetime : Type := mkDatetime {
  year : nat; month : nat; day : nat;
  hour : nat; minute : nat; second : nat;
  microsecond : nat
}.

Definition digit (n : nat) : ascii := ascii_of_nat (48 + n mod 10).

Definition two_digits (n : nat) : string :=
  String (digit (n / 10)) (String (digit n) EmptyString).

Definition four_digits (n : nat) : string :=
  String (digit (n / 1000)) (String (digit (n / 100)) (two_digits n)).

(** [dt.strftime("%Y%m%d_%H%M%S")], for the years 1000 to 9999 *)
Definition strftime (dt : datetime) : string :=
  four_digits (year dt) ++ two_digits (month dt) ++ two_digits (day dt) ++ "_"
  ++ two_digits (hour dt) ++ two_digits (minute dt) ++ two_digits (second dt).

(** The character classes of [re] on [str] patterns, on the code points
    U+0000 to U+00FF (a [string] is read as a sequence of such code
    points). *)

(** [\w]: alphanumeric in the sense of [str.isalnum], or underscore *)
Definition is_word (c : ascii) : bool :=
  let n := nat_of_ascii c in
  ((48 <=? n) && (n <=? 57) || (65 <=? n) && (n <=? 90)
   || (97 <=? n) && (n <=? 122) || (n =? 95)
   || (n =? 170) || (n =? 178) || (n =? 179) || (n =? 181) || (n =? 185)
   || (n =? 186) || (188 <=? n) && (n <=? 190)
   || (192 <=? n) && (n <=? 214) || (216 <=? n) && (n <=? 246)
   || (248 <=? n))%nat.

(** [\s]: whitespace in the sense of [str.isspace] *)
Definition is_space (c : ascii) : bool :=
  let n := nat_of_ascii c in
  ((9 <=? n) && (n <=? 13) || (28 <=? n) && (n <=? 32)
   || (n =? 133) || (n =? 160))%nat.

Definition is_hyphen (c : ascii) : bool := Ascii.eqb c "-".

Fixpoint filter_string (keep : ascii -> bool) (s : string) : string :=
  match s with
  | EmptyString => EmptyString
  | String c s' =>
      if keep c then String c (filter_string keep s') else filter_string keep s'
  end.

(** [re.sub(r'[^\w\s-]', '', s)] *)
Definition remove_special (s : string) : string :=
  filter_string (fun c => is_word c || is_space c || is_hyphen c) s.

(** [s[:n]] *)
Definition take (n : nat) (s : string) : string := substring 0 n s.

(** [re.sub(r'[-\s]+', '_', s)]: each maximal run of hyphens and
    whitespace becomes one underscore. *)
Fixpoint collapse (s : string) : string :=
  match s with
  | EmptyString => EmptyString
  | String c s' =>
      if is_hyphen c || is_space c then
        match s' with
        | EmptyString => "_"
        | String c' _ =>
            if is_hyphen c' || is_space c' then collapse s'
            else String "_" (collapse s')
        end
      else String c (collapse s')
  end.

(** [s.lstrip('_')] *)
Fixpoint lstrip_underscore (s : string) : string :=
  match s with
  | EmptyString => EmptyString
  | String c s' => if Ascii.eqb c "_" then lstrip_underscore s' else s
  end.

(** [s.rstrip('_')] *)
Fixpoint rstrip_underscore (s : string) : string :=
  match s with
  | EmptyString => EmptyString
  | String c s' =>
      match rstrip_underscore s' with
      | EmptyString => if Ascii.eqb c "_" then EmptyString else String c EmptyString
      | r => String c r
      end
  end.

(** [s.strip('_')] *)
Definition strip_underscore (s : string) : string :=
  rstrip_underscore (lstrip_underscore s).

(** The two "Clean content for filename" lines: [safe_content]. *)
Definition safe_content (content : string) : string :=
  strip_underscore (collapse (take 30 (remove_special content))).

(** [make_output_file]; [now] is the reading of [datetime.now()] the call
    makes.  [output_path] is not used by the source. *)
Definition make_output_file (now : datetime)
           (prefix content output_path extension : string) : string :=
  let timestamp := strftime now in
  let safe := safe_content content in
  if negb (safe =? EmptyString)%string
  then prefix ++ "_" ++ safe ++ "_" ++ timestamp ++ "." ++ extension
  else prefix ++ "_" ++ timestamp ++ "." ++ extension.

End LocalAIUtils.

(* ===================================================================== *)
(** ** Vocabulary of the properties *)
(* ===================================================================== *)

(** ceil(a / b) for a positive [b] *)
Definition ceil_div (a b : Z) : Z := (a + b - 1) / b.

(** The number of turns the wait loop can make with [max_wait = T] and
    [poll_interval = P]: ceil(T / P), and none when [T <= 0]. *)
Definition turns (T P : Z) : nat := Z.to_nat (ceil_div T P).

(** Counting over a piece of trace. *)
Fixpoint requests (tr : list event) : nat :=
  match tr with
  | [] => O
  | EvRequest _ _ _ _ :: tr' => S (requests tr')
  | _ :: tr' => requests tr'
  end.

Fixpoint sleeps (tr : list event) : list Z :=
  match tr with
  | [] => []
  | EvSleep d :: tr' => d :: sleeps tr'
  | _ :: tr' => sleeps tr'
  end.

(** Time spent waiting for replies. *)
Fixpoint in_flight (tr : list event) : Z :=
  match tr with
  | [] => 0
  | EvRequest _ _ sent served :: tr' => (served - sent) + in_flight tr'
  | _ :: tr' => in_flight tr'
  end.

Definition is_log (e : event) : Prop :=
  match e with EvLog _ _ => True | _ => False end.

Fixpoint logged (lvl_is : level -> bool) (tr : list event) : list string :=
  match tr with
  | [] => []
  | EvLog l m :: tr' => if lvl_is l then m :: logged lvl_is tr' else logged lvl_is tr'
  | _ :: tr' => logged lvl_is tr'
  end.

Definition is_error (l : level) : bool :=
  match l with ERROR => true | _ => false end.

(** What [get_history] makes of the reply to its request. *)
Definition history_of (rp : reply) : json :=
  match rp with
  | Reply r =>
      if is_success r
      then match json_body r with inr j => j | inl _ => JObj [] end
      else JObj []
  | TransportError _ => JObj []
  end.

(** The reply holds a record for the token with an "outputs" section, as
    the wait loop tests it. *)
Definition shows_success (prompt_id : json) (rp : reply) : bool :=
  match ComfyUI.completed prompt_id (history_of rp) with
  | inr true => true
  | _ => false
  end.

(** No reply in this piece of trace shows the success record. *)
Definition no_success (prompt_id : json) (evs : list event) : Prop :=
  forall rq rp s t, In (EvRequest rq rp s t) evs -> shows_success prompt_id rp = false.

(** A poll failed: the request raised, the status is an error, or the
    body is not JSON. *)
Definition failed_poll (rp : reply) : bool :=
  match rp with
  | TransportError _ => true
  | Reply r => negb (is_success r) || match json_body r with inl _ => true | inr _ => false end
  end.

(** How the trace records a poll of the wait loop that started at
    [start] with [max_wait = T]: the request is the history request, it
    was sent before the deadline, and the reply is the one the
    environment serves when the request has been in flight for its
    delay. *)
Definition poll_of (env : Env) (base_url : string) (prompt_id : json)
           (start T : Z) (e : event) : Prop :=
  match e with
  | EvRequest rq rp s t =>
      rq = ComfyUI.history_request base_url prompt_id /\
      start <= s /\ s - start < T /\
      exists n, rp = serve env n t rq /\ t = s + Z.max 0 (delay env n)
  | _ => True
  end.

(** The newest request of a piece of trace, logs apart, is a poll that
    shows the success record. *)
Definition ends_with_success (prompt_id : json) (evs : list event) : Prop :=
  exists logs rq rp s t older,
    evs = (logs ++ EvRequest rq rp s t :: older)%list /\
    Forall is_log logs /\ shows_success prompt_id rp = true.

(* ===================================================================== *)
(** ** Sample environments *)
(* ===================================================================== *)

Definition no_file : exn := mkExn "FileNotFoundError" "[Errno 2] No such file or directory".

(** An environment around one way of answering requests: requests take
    [d], there are no files to read, and the file system takes every
    write. *)
Definition backend (answer : nat -> Z -> request -> reply) (d : Z) : Env :=
  mkEnv answer (fun _ => d) (fun _ => "client-0")
        (fun _ => Unreadable no_file) (fun _ => false) (fun _ => inl no_file)
        (fun _ _ => None) (fun _ _ => None) (fun _ _ => None)
        (fun _ => inl (ValueError "Expecting value")).

Definition world0 : World := mkWorld 0 0 [].

Definition empty_history : response := mkResponse 200 (inr (JObj [])) "{}".

Definition finished_history (job : string) : response :=
  mkResponse 200
    (inr (JObj [(job, JObj [("outputs",
                             JObj [("9", JObj [("audio",
                                    JArr [JObj [("filename", JStr "out.wav");
                                                ("subfolder", JStr EmptyString)]])])])])]))
    "{...}".

(** The record of "job-1" becomes observable at the instant [ready];
    every request takes [d]. *)
Definition late_backend (d ready : Z) : Env :=
  backend (fun _ t _ => Reply (if t <? ready then empty_history
                               else finished_history "job-1")) d.

(** Every request is answered with the given status and no JSON body. *)
Definition status_backend (status : Z) : Env :=
  backend (fun _ _ _ =>
             Reply (mkResponse status (inl (ValueError "Expecting value")) EmptyString)) 0.

(** No request gets through. *)
Definition unreachable_backend : Env :=
  backend (fun _ _ _ =>
             TransportError (mkExn "ConnectError" "[Errno 111] Connection refused")) 0.

(** All log entries of a trace, newest first. *)
Definition all_logs (tr : list event) : list string := logged (fun _ => true) tr.

(** The token a response body carries: [result.get("prompt_id")], when
    there is one and it is truthy. *)
Definition token_of (r : response) : option json :=
  match json_body r with
  | inr j =>
      match py_get j "prompt_id" JNull with
      | inr v => if truthy v then Some v else None
      | inl _ => None
      end
  | inl _ => None
  end.

(** A submission is rejected when the request raises, the status is not
    2xx, or the body carries no token. *)
Definition rejected (rp : reply) : Prop :=
  match rp with
  | TransportError _ => True
  | Reply r => is_success r = false \/ token_of r = None
  end.

(** The reply [queue_prompt] gets to its POST, in the world [w]. *)
Definition submission (env : Env) (base_url : string) (workflow : json)
           (client_id : option string) (w : World) : reply :=
  let n := match client_id with None => S (count w) | Some _ => count w end in
  let cid := match client_id with None => uuid4 env (count w) | Some c => c end in
  serve env n (now w + Z.max 0 (delay env n))
        (POST_json (base_url ++ "/prompt")
                   (JObj [("prompt", workflow); ("client_id", JStr cid)])).

(** A template file that cannot be used. *)
Definition unusable (f : file_state) (cause : exn) : Prop :=
  f = Unreadable cause \/ f = Unparseable cause.

(** The only file is the truncated template "/wf/broken.json". *)
Definition broken_template_env : Env :=
  mkEnv (fun _ _ _ => Reply (mkResponse 200 (inr (JObj [("error", JStr "no nodes")])) EmptyString))
        (fun _ => 0) (fun _ => "client-0")
        (fun p => if (p =? "/wf/broken.json")%string
                  then Unparseable (mkExn "JSONDecodeError"
                                          "Expecting value: line 1 column 1 (char 0)")
                  else Unreadable no_file)
        (fun _ => false) (fun _ => inl no_file)
        (fun _ _ => None) (fun _ _ => None) (fun _ _ => None)
        (fun _ => inl (ValueError "Expecting value")).

(** *** Result structures *)

Definition is_dict (v : json) : bool :=
  match v with JObj _ => true | _ => false end.

(** A typed output list: absent, or a list of dicts. *)
Definition section_ok (key : string) (sects : list (string * json)) : bool :=
  match dict_lookup key sects with
  | None => true
  | Some (JArr es) => forallb is_dict es
  | Some _ => false
  end.

(** A node's sub-structure: a dict whose "images" and "audio" sections
    are typed output lists; its other keys may hold anything. *)
Definition node_ok (node_output : json) : bool :=
  match node_output with
  | JObj sects => section_ok "images" sects && section_ok "audio" sects
  | _ => false
  end.

Definition well_formed (nodes : list (string * json)) : bool :=
  forallb (fun kv => node_ok (snd kv)) nodes.

(** The entries a node lists under [key], with the node's identifier. *)
Definition section_of (key : string) (node : string * json) : list (string * json) :=
  match snd node with
  | JObj sects =>
      match dict_lookup key sects with
      | Some (JArr es) => map (pair (fst node)) es
      | _ => []
      end
  | _ => []
  end.

(** All the entries under [key], over all nodes. *)
Definition entries_under (key : string) (nodes : list (string * json))
  : list (string * json) :=
  flat_map (section_of key) nodes.

Definition field (entry : json) (k : string) (dflt : json) : json :=
  match entry with
  | JObj kvs => match dict_lookup k kvs with Some v => v | None => dflt end
  | _ => dflt
  end.

(** The descriptor that belongs to an entry of a node. *)
Definition describe (kind : string) (ne : string * json) : ComfyUI.descriptor :=
  ComfyUI.mkDescriptor kind (field (snd ne) "filename" JNull)
                       (field (snd ne) "subfolder" (JStr EmptyString)) (fst ne).

(** The reply is the history of a completed job: a 2xx response whose
    body maps the token to a record with the "outputs" mapping [nodes]. *)
Definition result_structure (job : string) (rp : reply) (nodes : list (string * json))
  : Prop :=
  exists r h record,
    rp = Reply r /\ is_success r = true /\ json_body r = inr (JObj h) /\
    dict_lookup job h = Some (JObj record) /\
    dict_lookup "outputs" record = Some (JObj nodes).

(** A finished job with a picture in node "7", a sound in node "9", and
    outputs of other kinds. *)
Definition mixed_outputs : list (string * json) :=
  [("7", JObj [("images", JArr [JObj [("filename", JStr "cover.png");
                                     ("subfolder", JStr "art");
                                     ("type", JStr "output")]]);
               ("text", JArr [JStr "a caption"])]);
   ("9", JObj [("audio", JArr [JObj [("filename", JStr "song.flac")]]);
               ("latents", JInt 4)])].

Definition mixed_backend : Env :=
  backend (fun _ _ _ =>
             Reply (mkResponse 200
                      (inr (JObj [("job-1", JObj [("status", JObj []);
                                                  ("outputs", JObj mixed_outputs)])]))
                      EmptyString)) 0.

(** *** Job templates *)

(** An entry of a template is usable when it is not a dict (the loop
    skips it) or when its "inputs", if it has any, is a dict. *)
Definition node_valid (node : json) : bool :=
  match node with
  | JObj fields =>
      match dict_lookup "inputs" fields with
      | Some (JObj _) | None => true
      | Some _ => false
      end
  | _ => true
  end.

(** A valid Job Template: a mapping from node identifiers to usable
    entries. *)
Definition valid_template (workflow : json) (items : list (string * json)) : Prop :=
  workflow = JObj items /\ forallb (fun kv => node_valid (snd kv)) items = true.

(** The fields and the inputs of an entry that has a "text" input. *)
Definition text_inputs (node : json)
  : option (list (string * json) * list (string * json)) :=
  match node with
  | JObj fields =>
      match dict_lookup "inputs" fields with
      | Some (JObj ins) => if dict_mem "text" ins then Some (fields, ins) else None
      | _ => None
      end
  | _ => None
  end.

(** [d'] is [d] with the value of its binding of [k] replaced by [v'],
    and everything else, order included, as it was. *)
Definition replaced_at (k : string) (v' : json) (d d' : list (string * json)) : Prop :=
  exists l1 v l2,
    d = (l1 ++ (k, v) :: l2)%list /\ d' = (l1 ++ (k, v') :: l2)%list /\
    dict_lookup k l1 = None.

(** What injection may do to one entry: set the "text" input of an entry
    that has one, and nothing else. *)
Definition injected (prompt_text : string) (old new : json) : Prop :=
  match text_inputs old with
  | Some (fields, ins) =>
      exists fields' ins',
        new = JObj fields' /\
        replaced_at "inputs" (JObj ins') fields fields' /\
        replaced_at "text" (JStr prompt_text) ins ins'
  | None => new = old
  end.

Definition text_to_music : json :=
  JObj [("3", JObj [("class_type", JStr "CLIPTextEncode");
                    ("inputs", JObj [("clip", JArr [JStr "4"; JInt 1]);
                                     ("text", JStr "placeholder")])]);
        ("5", JObj [("class_type", JStr "EmptyLatentAudio");
                    ("inputs", JObj [("seconds", JInt 30)])]);
        ("_meta", JStr "v1")].

(** *** Download batches *)

(** The files written, newest first. *)
Fixpoint writes (tr : list event) : list string :=
  match tr with
  | [] => []
  | EvWrite p _ :: tr' => p :: writes tr'
  | _ :: tr' => writes tr'
  end.


(** Three files to fetch; the server has lost the second one. *)
Definition three_files : list ComfyUI.descriptor :=
  [ComfyUI.mkDescriptor "audio" (JStr "a.wav") (JStr EmptyString) "9";
   ComfyUI.mkDescriptor "audio" (JStr "b.wav") (JStr "takes") "9";
   ComfyUI.mkDescriptor "image" (JStr "c.png") (JStr EmptyString) "7"].

Definition lossy_backend : Env :=
  backend (fun _ _ rq =>
             match rq with
             | GET _ (("filename", JStr "b.wav") :: _) =>
                 Reply (mkResponse 404 (inl (ValueError "Expecting value")) "Not Found")
             | _ => Reply (mkResponse 200 (inl (ValueError "Expecting value")) "RIFF")
             end) 0.

(** *** A batch, seen from the environment *)






(** *** Downloads come after completion *)

(** A computation keeps an invariant of the trace, however it ends. *)
Definition preserves {A} (I : list event -> Prop) (m : M A) : Prop :=
  forall w, I (trace w) -> I (trace (snd (m w))).

(** [m], started from a trace with [I], ends in a trace with [K],
    however it ends. *)
Definition leads {A} (I K : list event -> Prop) (m : M A) : Prop :=
  forall w, I (trace w) -> K (trace (snd (m w))).

(** An event that fetches no artifact bytes (no GET of a download URL)
    and, when [disk] is set, leaves the file system alone. *)
Definition calm (download_url : string -> Prop) (disk : bool) (e : event) : Prop :=
  match e with
  | EvRequest (GET url _) _ _ _ => ~ download_url url
  | EvRequest _ _ _ _ => True
  | EvMkdir _ | EvOpen _ | EvWrite _ _ => disk = false
  | EvSleep _ | EvLog _ _ => True
  end.

(** The trace [tr] (newest first) is [tr0] followed by events that all
    satisfy [P]. *)
Definition since (P : event -> Prop) (tr0 tr : list event) : Prop :=
  exists evs, tr = (evs ++ tr0)%list /\ Forall P evs.

(** The same, with a property [Q] of the events made since [tr0]. *)
Definition since_with (P : event -> Prop) (Q : list event -> Prop)
           (tr0 tr : list event) : Prop :=
  exists evs, tr = (evs ++ tr0)%list /\ Forall P evs /\ Q evs.

(** ComfyUI: artifacts are fetched from [/view]. *)
Definition view_url (base_url url : string) : Prop := url = base_url ++ "/view".

(** Among the events [evs] is the submission that was answered with the
    token [prompt_id]. *)
Definition submitted (base_url : string) (prompt_id : json) (evs : list event) : Prop :=
  exists payload r s t,
    In (EvRequest (POST_json (base_url ++ "/prompt") payload) (Reply r) s t) evs /\
    is_success r = true /\ token_of r = Some prompt_id.

(** What a run asks of the server for the job [prompt_id]: the history
    of that job, or bytes from [/view]. *)
Definition for_prompt (base_url : string) (prompt_id : json) (e : event) : Prop :=
  match e with
  | EvRequest rq _ _ _ =>
      rq = ComfyUI.history_request base_url prompt_id \/
      exists params, rq = GET (base_url ++ "/view") params
  | _ => True
  end.

(** The shape of a run of [execute_workflow] that got past the wait.
    From the trace [tr0] it first made the calm events [pre], among them
    the submission that gave [prompt_id]; there, in the world [w1], the
    call [wait_for_completion(prompt_id, max_wait)] made the calm events
    [during] and returned [True] in the world [w2]; everything else the
    run did, [post], came after that and was for the same job. *)
Definition after_wait (env : Env) (base_url : string) (fuel : nat) (max_wait : Z)
           (disk : bool) (tr0 tr : list event) : Prop :=
  exists prompt_id w1 w2 pre during post,
    trace w1 = (pre ++ tr0)%list /\
    submitted base_url prompt_id pre /\
    ComfyUI.wait_for_completion env base_url fuel prompt_id max_wait 2 w1
    = (Ret true, w2) /\
    trace w2 = (during ++ trace w1)%list /\
    Forall (calm (view_url base_url) disk) (during ++ pre) /\
    tr = (post ++ trace w2)%list /\
    Forall (for_prompt base_url prompt_id) post.

(** UVR5: stems are fetched from [/api/download/...]; the job has
    completed when the polled result has status "completed". *)
Definition stem_url (base_url url : string) : Prop :=
  exists rest, url = base_url ++ "/api/download/" ++ rest.

Definition status_completed (job_result : json) : bool :=
  match py_get job_result "status" JNull with
  | inr status => py_eq status (JStr "completed")
  | inl _ => false
  end.

Definition reports_completed (rp : reply) : bool :=
  match rp with
  | Reply r =>
      is_success r && match json_body r with
                      | inr j => status_completed j
                      | inl _ => false
                      end
  | TransportError _ => false
  end.

Definition completed_result (base_url : string) (e : event) : Prop :=
  match e with
  | EvRequest rq rp _ _ =>
      exists job_id,
        rq = UVR5.result_request base_url job_id /\ reports_completed rp = true
  | _ => False
  end.

(** Among the events [evs] is the upload that was answered with the job
    token [job_id]. *)
Definition uploaded (base_url : string) (job_id : json) (evs : list event) : Prop :=
  exists audio_file data r j s t,
    In (EvRequest (POST_files (base_url ++ "/api/separate") audio_file data)
                  (Reply r) s t) evs /\
    is_success r = true /\ json_body r = inr j /\
    py_get j "job_id" JNull = inr job_id /\ truthy job_id = true.

(** A request, if any, is the download of a stem of the job [job_id]. *)
Definition for_job (base_url : string) (job_id : json) (e : event) : Prop :=
  match e with
  | EvRequest rq _ _ _ => exists stem, rq = UVR5.download_request base_url job_id stem
  | _ => True
  end.

(** The shape of a run of [separate_audio] that got past the poll.  From
    the trace [tr0] it first made the events [pre], none of them a
    download, among them the upload that gave [job_id]; there, in the
    world [w1], [get_separation_result(job_id)] made the events
    [during] and returned, in the world [w2], a result with status
    "completed"; everything else, [post], came after that, and its
    requests are downloads of stems of that job. *)
Definition after_result (env : Env) (base_url : string) (tr0 tr : list event) : Prop :=
  exists job_id job_result w1 w2 pre during post,
    trace w1 = (pre ++ tr0)%list /\
    uploaded base_url job_id pre /\
    UVR5.get_separation_result env base_url job_id w1 = (Ret job_result, w2) /\
    status_completed job_result = true /\
    trace w2 = (during ++ trace w1)%list /\
    Forall (calm (stem_url base_url) false) (during ++ pre) /\
    tr = (post ++ trace w2)%list /\
    Forall (for_job base_url job_id) post.

(** A ComfyUI server at "http://comfy" that accepts the workflow as
    "job-1", has it finished at once, and serves its one output file; the
    template is the file "/wf/music.json". *)
Definition studio_answer (rq : request) : reply :=
  match rq with
  | GET url _ =>
      if (url =? "http://comfy/system_stats")%string
      then Reply (mkResponse 200 (inr (JObj [])) "{}")
      else if (url =? "http://comfy/history/job-1")%string
      then Reply (finished_history "job-1")
      else if (url =? "http://comfy/view")%string
      then Reply (mkResponse 200 (inl (ValueError "Expecting value")) "RIFF....WAVE")
      else Reply (mkResponse 404 (inl (ValueError "Expecting value")) "Not Found")
  | POST_json _ _ =>
      Reply (mkResponse 200 (inr (JObj [("prompt_id", JStr "job-1")])) EmptyString)
  | POST_files _ _ _ =>
      Reply (mkResponse 404 (inl (ValueError "Expecting value")) "Not Found")
  end.

Definition studio : Env :=
  mkEnv (fun _ _ rq => studio_answer rq) (fun _ => 1) (fun _ => "client-0")
        (fun p => if (p =? "/wf/music.json")%string then Parsed text_to_music
                  else Unreadable no_file)
        (fun _ => false) (fun _ => inl no_file)
        (fun _ _ => None) (fun _ _ => None) (fun _ _ => None)
        (fun _ => inl (ValueError "Expecting value")).

(** A UVR5 server at "http://uvr5" that queues the separation as
    "sep-7" and reports it completed; the song is "/music/song.mp3". *)
Definition stems_answer (rq : request) : reply :=
  match rq with
  | GET url _ =>
      if (url =? "http://uvr5/health")%string
      then Reply (mkResponse 200 (inr (JObj [])) "{}")
      else if (url =? "http://uvr5/api/result/sep-7")%string
      then Reply (mkResponse 200
                    (inr (JObj [("status", JStr "completed");
                                ("stems", JObj [("vocals", JStr "available");
                                                ("instrumental", JStr "available")])]))
                    EmptyString)
      else if starts_with "http://uvr5/api/download/sep-7/" url
      then Reply (mkResponse 200 (inl (ValueError "Expecting value")) "RIFF")
      else Reply (mkResponse 404 (inl (ValueError "Expecting value")) "Not Found")
  | POST_files _ _ _ =>
      Reply (mkResponse 200 (inr (JObj [("job_id", JStr "sep-7");
                                        ("status", JStr "queued")])) EmptyString)
  | POST_json _ _ =>
      Reply (mkResponse 404 (inl (ValueError "Expecting value")) "Not Found")
  end.

Definition stem_studio : Env :=
  mkEnv (fun _ _ rq => stems_answer rq) (fun _ => 1) (fun _ => "client-0")
        (fun _ => Unreadable no_file)
        (fun p => (p =? "/music/song.mp3")%string)
        (fun p => if (p =? "/music/song.mp3")%string then inr "ID3" else inl no_file)
        (fun _ _ => None) (fun _ _ => None) (fun _ _ => None)
        (fun _ => inl (ValueError "Expecting value")).

(** *** File names *)

(** A reading of the clock that [strftime] prints in fifteen characters. *)
Definition valid_datetime (dt : LocalAIUtils.datetime) : Prop :=
  (1000 <= LocalAIUtils.year dt < 100 * 100 /\
   1 <= LocalAIUtils.month dt <= 12 /\
   1 <= LocalAIUtils.day dt <= 31 /\
   LocalAIUtils.hour dt <= 23 /\
   LocalAIUtils.minute dt <= 59 /\
   LocalAIUtils.second dt <= 59)%nat.

(** Two readings within the same second. *)
Definition same_second (a b : LocalAIUtils.datetime) : Prop :=
  LocalAIUtils.year a = LocalAIUtils.year b /\
  LocalAIUtils.month a = LocalAIUtils.month b /\
  LocalAIUtils.day a = LocalAIUtils.day b /\
  LocalAIUtils.hour a = LocalAIUtils.hour b /\
  LocalAIUtils.minute a = LocalAIUtils.minute b /\
  LocalAIUtils.second a = LocalAIUtils.second b.

Fixpoint all_chars (P : ascii -> bool) (s : string) : bool :=
  match s with
  | EmptyString => true
  | String c s' => P c && all_chars P s'
  end.

(** Thirty exclamation marks. *)
Definition thirty_bangs : string := "!!!!!!!!!!!!!!!!!!!!!!!!!!!!!!".

Definition noon : LocalAIUtils.datetime := LocalAIUtils.mkDatetime 2024 3 7 12 0 0 0.

(* ===================================================================== *)
(** * The rest of the adapters *)
(* ===================================================================== *)

(** [len(v)] *)
Definition py_len (v : json) : exn + nat :=
  match v with
  | JStr s => inr (String.length s)
  | JArr xs => inr (List.length xs)
  | JObj kvs => inr (List.length kvs)
  | _ => inl (TypeError ("object of type '" ++ type_name v ++ "' has no len()"))
  end.

(** [[f(x) for x in l]], stopping at the first exception *)
Fixpoint py_map {A B} (f : A -> exn + B) (l : list A) : exn + list B :=
  match l with
  | [] => inr []
  | x :: l' =>
      match f x with
      | inl e => inl e
      | inr y => match py_map f l' with
                 | inl e => inl e
                 | inr ys => inr (y :: ys)
                 end
      end
  end.

(** ** comfyui_mcp: the queue *)

Module ComfyUIQueue.
Section Queue.
Variable env : Env.
Variable COMFYUI_BASE_URL : string.

Definition base_url : string := rstrip_slash COMFYUI_BASE_URL.

(** [ComfyUIClient.get_queue] *)
Definition get_queue : M json :=
  try_except
    (response <- http env (GET (base_url ++ "/queue") []) ;;
     raise_for_status response ;;;
     lift (json_body response))
    (fun e =>
       logger ERROR ("Failed to get queue: " ++ exn_msg e) ;;;
       ret (JObj [])).

(** The tool [get_queue_status] *)
Definition get_queue_status : M TextContent :=
  healthy <- ComfyUI.check_health env base_url ;;
  if negb healthy then
    ret (mkText ("Error: Cannot connect to ComfyUI server at " ++ COMFYUI_BASE_URL))
  else
    try_except
      (queue_data <- get_queue ;;
       running <- lift (py_get queue_data "queue_running" (JArr [])) ;;
       pending <- lift (py_get queue_data "queue_pending" (JArr [])) ;;
       n_running <- lift (py_len running) ;;
       n_pending <- lift (py_len pending) ;;
       ret (mkText ("ComfyUI Queue Status:" ++ newline
                    ++ "Running: " ++ string_of_Z (Z.of_nat n_running)
                    ++ " workflows" ++ newline
                    ++ "Pending: " ++ string_of_Z (Z.of_nat n_pending)
                    ++ " workflows" ++ newline)))
      (fun e =>
         logger ERROR ("Failed to get queue status: " ++ exn_msg e) ;;;
         ret (mkText ("Error: " ++ exn_msg e))).
End Queue.
End ComfyUIQueue.

(** ** uvr5_mcp: the model list *)

Module UVR5Models.
Section Models.
Variable env : Env.
Variable UVR5_BASE_URL : string.

Definition base_url : string := rstrip_slash UVR5_BASE_URL.

(** [UVR5Client.list_models] *)
Definition list_models : M json :=
  try_except
    (response <- http env (GET (base_url ++ "/api/models") []) ;;
     raise_for_status response ;;;
     result <- lift (json_body response) ;;
     lift (py_get result "models" (JArr [])))
    (fun e =>
       logger ERROR ("Failed to list models: " ++ exn_msg e) ;;;
       ret (JArr [])).

(** The tool [list_uvr5_models] *)
Definition list_uvr5_models : M TextContent :=
  healthy <- UVR5.check_health env base_url ;;
  if negb healthy then
    ret (mkText ("Error: Cannot connect to UVR5 server at " ++ UVR5_BASE_URL))
  else
    try_except
      (models <- list_models ;;
       if negb (truthy models) then
         ret (mkText "No models found on UVR5 server")
       else
         items <- lift (py_iter models) ;;
         ret (mkText ("Available UVR5 models:" ++ newline
                      ++ String.concat newline
                           (map (fun m => "- " ++ py_str m) items))))
      (fun e =>
         logger ERROR ("Failed to list models: " ++ exn_msg e) ;;;
         ret (mkText ("Error: " ++ exn_msg e))).
End Models.
End UVR5Models.

(** ** localai_mcp/client.py *)

Module LocalAI.
Section Client.
Variable env : Env.
Variable base_url : string.

Definition check_health : M bool :=
  try_except
    (response <- http env (GET (base_url ++ "/readyz") []) ;;
     ret (status_code response =? 200))
    (fun e =>
       logger ERROR ("Health check failed: " ++ exn_msg e) ;;;
       ret false).

Definition speech_request (text model voice response_format : string) (speed : json)
  : request :=
  POST_json (base_url ++ "/v1/audio/speech")
            (JObj [("model", JStr model); ("input", JStr text); ("voice", JStr voice);
                   ("response_format", JStr response_format); ("speed", speed)]).

(** [speed] is the number as the caller gave it; it is only passed on. *)
Definition text_to_speech (text model voice response_format : string) (speed : json)
  : M string :=
  try_except
    (response <- http env (speech_request text model voice response_format speed) ;;
     raise_for_status response ;;;
     ret (content response))
    (fun e =>
       logger ERROR ("TTS generation failed: " ++ exn_msg e) ;;;
       raise (Exception ("Failed to generate speech: " ++ exn_msg e))).

Definition generation_request (prompt model : string)
           (duration temperature top_k top_p : json) : request :=
  POST_json (base_url ++ "/v1/audio/generations")
            (JObj [("model", JStr model); ("prompt", JStr prompt);
                   ("duration", duration); ("temperature", temperature);
                   ("top_k", top_k); ("top_p", top_p)]).

(** The numbers are passed on as they came. *)
Definition generate_audio (prompt model : string)
           (duration temperature top_k top_p : json) : M string :=
  try_except
    (response <- http env (generation_request prompt model duration temperature
                                              top_k top_p) ;;
     raise_for_status response ;;;
     ret (content response))
    (fun e =>
       logger ERROR ("Audio generation failed: " ++ exn_msg e) ;;;
       raise (Exception ("Failed to generate audio: " ++ exn_msg e))).

Definition list_models : M json :=
  try_except
    (response <- http env (GET (base_url ++ "/v1/models") []) ;;
     raise_for_status response ;;;
     result <- lift (json_body response) ;;
     lift (py_get result "data" (JArr [])))
    (fun e =>
       logger ERROR ("Failed to list models: " ++ exn_msg e) ;;;
       ret (JArr [])).
End Client.
End LocalAI.

(** ** localai_mcp/server.py, with [make_output_path] of utils.py *)

Module LocalAIServer.
Section Server.
Variable env : Env.
Variable LOCALAI_BASE_URL : string.
Variable LOCALAI_TTS_MODEL : string.
Variable LOCALAI_AUDIO_MODEL : string.
(** [Path(p).expanduser().resolve()], as the file system of the run has
    it: the text of the resolved path, or the exception it raises
    ([RuntimeError] when no home directory can be found for [~user]) *)
Variable resolve : string -> exn + string.
(** [datetime.now()] at a reading of the wall clock *)
Variable localtime : Z -> LocalAIUtils.datetime.

Definition base_url : string := rstrip_slash LOCALAI_BASE_URL.

(** [utils.make_output_path] *)
Definition make_output_path (output_directory : string) : M string :=
  output_path <- lift (resolve output_directory) ;;
  mkdir env output_path ;;;
  ret output_path.

(** [utils.make_output_file], called now *)
Definition make_output_file (prefix content output_path extension : string)
  : M string :=
  fun w => (Ret (LocalAIUtils.make_output_file (localtime (now w)) prefix content
                                               output_path extension), w).

(** "Save to file": the path of the file written *)
Definition save_audio (prefix content output_directory extension audio_data : string)
  : M string :=
  output_path <- make_output_path output_directory ;;
  output_file <- make_output_file prefix content output_path extension ;;
  let file_path := path_join output_path output_file in
  mkdir env output_path ;;;
  open_wb env file_path ;;;
  write env file_path audio_data ;;;
  ret file_path.

(** The tool [text_to_speech]; [speed] is the number the caller gave,
    passed on as it came. *)
Definition text_to_speech (text voice output_directory : string)
           (model : option string) (response_format : string) (speed : json)
  : M TextContent :=
  if (text =? EmptyString)%string then ret (mkText "Error: Text is required")
  else
    healthy <- LocalAI.check_health env base_url ;;
    if negb healthy then
      ret (mkText ("Error: Cannot connect to LocalAI server at " ++ LOCALAI_BASE_URL))
    else
      try_except
        (let model_to_use := ComfyUIServer.or_default model LOCALAI_TTS_MODEL in
         audio_data <- LocalAI.text_to_speech env base_url text model_to_use voice
                                              response_format speed ;;
         file_path <- save_audio "localai_tts" text output_directory response_format
                                 audio_data ;;
         ret (mkText ("Success. Audio saved to: " ++ file_path ++ newline
                      ++ "Voice: " ++ voice ++ ", Model: " ++ model_to_use)))
        (fun e =>
           logger ERROR ("Text-to-speech failed: " ++ exn_msg e) ;;;
           ret (mkText ("Error: " ++ exn_msg e))).

(** The tool [generate_audio]; the numbers are those the caller gave,
    passed on as they came. *)
Definition generate_audio (prompt output_directory : string) (model : option string)
           (duration temperature top_k top_p : json) : M TextContent :=
  if (prompt =? EmptyString)%string then ret (mkText "Error: Prompt is required")
  else
    healthy <- LocalAI.check_health env base_url ;;
    if negb healthy then
      ret (mkText ("Error: Cannot connect to LocalAI server at " ++ LOCALAI_BASE_URL))
    else
      try_except
        (let model_to_use := ComfyUIServer.or_default model LOCALAI_AUDIO_MODEL in
         audio_data <- LocalAI.generate_audio env base_url prompt model_to_use
                                              duration temperature top_k top_p ;;
         file_path <- save_audio "localai_audio" prompt output_directory "wav"
                                 audio_data ;;
         ret (mkText ("Success. Audio generated and saved to: " ++ file_path ++ newline
                      ++ "Model: " ++ model_to_use ++ ", Duration: "
                      ++ py_str duration ++ "s")))
        (fun e =>
           logger ERROR ("Audio generation failed: " ++ exn_msg e) ;;;
           ret (mkText ("Error: " ++ exn_msg e))).

(** The tool [list_localai_models] *)
Definition list_localai_models : M TextContent :=
  healthy <- LocalAI.check_health env base_url ;;
  if negb healthy then
    ret (mkText ("Error: Cannot connect to LocalAI server at " ++ LOCALAI_BASE_URL))
  else
    try_except
      (models <- LocalAI.list_models env base_url ;;
       if negb (truthy models) then
         ret (mkText "No models found on LocalAI server")
       else
         items <- lift (py_iter models) ;;
         ids <- lift (py_map (fun m => py_get m "id" (JStr "unknown")) items) ;;
         ret (mkText ("Available models on LocalAI:" ++ newline
                      ++ String.concat newline
                           (map (fun i => "- " ++ py_str i) ids))))
      (fun e =>
         logger ERROR ("Failed to list models: " ++ exn_msg e) ;;;
         ret (mkText ("Error: " ++ exn_msg e))).
End Server.
End LocalAIServer.

(* ===================================================================== *)
(** ** Vocabulary of the further properties *)
(* ===================================================================== *)

(** *** How a call ends *)

(** The call returns or raises: it is not cut off. *)
Definition settles {A} (m : M A) : Prop :=
  forall w, match fst (m w) with
            | Ret _ | Raise _ => True
            | OutOfFuel | Unmodelled => False
            end.

(** The call returns a value, whatever the world. *)
Definition answers {A} (m : M A) : Prop :=
  forall w, exists a w', m w = (Ret a, w').

(** No exception leaves the call. *)
Definition never_raises {A} (m : M A) : Prop :=
  forall w e w', m w <> (Raise e, w').

(** *** What comes before what *)

Definition request_url (rq : request) : string :=
  match rq with
  | GET url _ | POST_json url _ | POST_files url _ _ => url
  end.

Section Order.
(** The requests, and whether the effects on the file system, that need
    a [backing] event before them. *)
Variable needy_request : request -> Prop.
Variable needy_disk : bool.
Variable backing : event -> Prop.

Definition needy (e : event) : Prop :=
  match e with
  | EvRequest rq _ _ _ => needy_request rq
  | EvMkdir _ | EvOpen _ | EvWrite _ _ => needy_disk = true
  | EvSleep _ | EvLog _ _ => False
  end.

(** Every needy event of the trace (newest first) has a backing event
    before it. *)
Fixpoint ordered (tr : list event) : Prop :=
  match tr with
  | [] => True
  | e :: older => (needy e -> Exists backing older) /\ ordered older
  end.

(** The invariant of a run: the trace is ordered and, once [opened],
    holds a backing event. *)
Definition order_inv (opened : bool) (tr : list event) : Prop :=
  ordered tr /\ (opened = true -> Exists backing tr).

(** [m] keeps the invariant and, when it returns [a], establishes
    [post a]. *)
Definition order_triple {A} (m : M A) (post : A -> bool) : Prop :=
  forall w, order_inv false (trace w) ->
            match m w with
            | (Ret a, w') => order_inv (post a) (trace w')
            | (_, w') => order_inv false (trace w')
            end.
End Order.

(** The probe of a health check, answered with status 200. *)
Definition healthy_probe (url : string) (e : event) : Prop :=
  match e with
  | EvRequest (GET u _) (Reply r) _ _ => u = url /\ status_code r = 200
  | _ => False
  end.

(** Every request but the probe. *)
Definition beyond_probe (url : string) (rq : request) : Prop := request_url rq <> url.

Definition no_request (rq : request) : Prop := False.

(** A POST to [url] that was answered with a 2xx status. *)
Definition accepted_post (url : string) (e : event) : Prop :=
  match e with
  | EvRequest (POST_json u _) (Reply r) _ _ => u = url /\ is_success r = true
  | _ => False
  end.

(** UVR5: the upload was answered with the result itself, without a job
    token to poll. *)
Definition immediate_result (base_url : string) (e : event) : Prop :=
  match e with
  | EvRequest (POST_files u _ _) (Reply r) _ _ =>
      u = base_url ++ "/api/separate" /\ is_success r = true /\
      exists j v, json_body r = inr j /\ py_get j "job_id" JNull = inr v /\
                  truthy v = false
  | _ => False
  end.

Definition stems_ready (base_url : string) (e : event) : Prop :=
  completed_result base_url e \/ immediate_result base_url e.

(** A LocalAI server at "http://ai" that is ready and answers every POST
    with the same audio bytes. *)
Definition voice_answer (rq : request) : reply :=
  match rq with
  | GET url _ =>
      if (url =? "http://ai/readyz")%string
      then Reply (mkResponse 200 (inl (ValueError "Expecting value")) "ok")
      else if (url =? "http://ai/v1/models")%string
      then Reply (mkResponse 200
                    (inr (JObj [("data", JArr [JObj [("id", JStr "tts-1")];
                                               JObj [("object", JStr "model")]])]))
                    EmptyString)
      else Reply (mkResponse 404 (inl (ValueError "Expecting value")) "Not Found")
  | POST_json _ _ =>
      Reply (mkResponse 200 (inl (ValueError "Expecting value")) "ID3-audio")
  | POST_files _ _ _ =>
      Reply (mkResponse 404 (inl (ValueError "Expecting value")) "Not Found")
  end.

Definition voice_studio : Env := backend (fun _ _ rq => voice_answer rq) 1.

(** *** Slugs *)

(** A string that is already a slug: word characters only, at most
    thirty of them, no underscore at either end. *)
Definition clean_slug (s : string) : bool :=
  all_chars LocalAIUtils.is_word s && (String.length s <=? 30)%nat
  && negb (starts_with "_" s) && negb (ends_with_char "_" s).

(** No character of the string is a word character. *)
Definition wordless (s : string) : bool :=
  all_chars (fun c => negb (LocalAIUtils.is_word c)) s.

(** *** Overrides from [workflow_params] *)

(** A node whose "inputs" is a dict. *)
Definition has_inputs (node : json) : bool :=
  match node with
  | JObj fields =>
      match dict_lookup "inputs" fields with
      | Some (JObj _) => true
      | _ => false
      end
  | _ => false
  end.

(** An entry of the decoded [workflow_params] that can be applied to the
    template: a dict of overrides, for a node that is absent or has
    inputs. *)
Definition param_ok (items : list (string * json)) (p : string * json) : bool :=
  is_dict (snd p) &&
  match dict_lookup (fst p) items with
  | None => true
  | Some node => has_inputs node
  end.

(** [None], a [bool] or a number: a value that is no container. *)
Definition scalar (v : json) : bool :=
  match v with
  | JNull | JBool _ | JInt _ => true
  | _ => false
  end.

(** A finished job whose node "9" lists a sound and whose node "11"
    reports [null]. *)
Definition null_outputs : list (string * json) :=
  [("9", JObj [("audio", JArr [JObj [("filename", JStr "song.flac")]])]);
   ("11", JNull)].

Definition history_backend (job : string) (nodes : list (string * json)) : Env :=
  backend (fun _ _ _ =>
             Reply (mkResponse 200
                      (inr (JObj [(job, JObj [("outputs", JObj nodes)])]))
                      EmptyString)) 0.

(** *** Where the files go *)

(** [p] is directly inside the directory [dir]: its components are those
    of [dir] and one more, which is no [..]. *)
Definition directly_inside (dir p : string) : Prop :=
  exists name,
    components p = (components dir ++ [name])%list /\
    contains_char "/" name = false /\ name <> "..".

(** An effect on the file system that stays with [dir]: making [dir]
    itself, or opening or writing a file directly inside it. *)
Definition confined (dir : string) (e : event) : Prop :=
  match e with
  | EvMkdir p => p = dir
  | EvOpen p | EvWrite p _ => directly_inside dir p
  | EvRequest _ _ _ _ | EvSleep _ | EvLog _ _ => True
  end.

(** *** Fetching bytes *)

(** What a call that fetches bytes makes of the reply: the body of a 2xx
    response, or else an exception whose text [failure] makes from the
    cause. *)
Definition fetched (failure : string -> string) (rp : reply) : outcome string :=
  match rp with
  | Reply r =>
      if is_success r then Ret (content r)
      else Raise (Exception (failure ("Error response '"
                                      ++ string_of_Z (status_code r) ++ "'")))
  | TransportError e => Raise (Exception (failure (exn_msg e)))
  end.

(** The file system takes every directory and every write. *)
Definition disk_ok (env : Env) : Prop :=
  forall n p, mkdir_error env n p = None /\ open_error env n p = None /\
              write_error env n p = None.

(** *** More sample environments *)

(** The nodes of the template [text_to_music]. *)
Definition music_nodes : list (string * json) :=
  match text_to_music with
  | JObj nodes => nodes
  | _ => []
  end.

(** A template whose only node has no "inputs", and the override text
    [{"3": {}}] for it. *)
Definition bare_nodes : list (string * json) :=
  [("3", JObj [("class_type", JStr "CLIPTextEncode")])].

Definition override_text : string :=
  "{" ++ String dquote "3" ++ String dquote ": {}}".

Definition bare_studio : Env :=
  mkEnv (fun _ _ rq => studio_answer rq) (fun _ => 1) (fun _ => "client-0")
        (fun p => if (p =? "/wf/bare.json")%string then Parsed (JObj bare_nodes)
                  else Unreadable no_file)
        (fun _ => false) (fun _ => inl no_file)
        (fun _ _ => None) (fun _ _ => None) (fun _ _ => None)
        (fun s => if (s =? override_text)%string then inr (JObj [("3", JObj [])])
                  else inl (ValueError "Expecting value")).

(** A UVR5 server at "http://uvr5" that queues the separation as "sep-7"
    and then cannot be asked for the result. *)
Definition stalled_answer (rq : request) : reply :=
  match rq with
  | GET url _ =>
      if (url =? "http://uvr5/health")%string
      then Reply (mkResponse 200 (inr (JObj [])) "{}")
      else Reply (mkResponse 503 (inl (ValueError "Expecting value")) "Busy")
  | POST_files _ _ _ =>
      Reply (mkResponse 200 (inr (JObj [("job_id", JStr "sep-7");
                                        ("status", JStr "queued")])) EmptyString)
  | POST_json _ _ =>
      Reply (mkResponse 404 (inl (ValueError "Expecting value")) "Not Found")
  end.

Definition stalled_studio : Env :=
  mkEnv (fun _ _ rq => stalled_answer rq) (fun _ => 1) (fun _ => "client-0")
        (fun _ => Unreadable no_file)
        (fun p => (p =? "/music/song.mp3")%string)
        (fun p => if (p =? "/music/song.mp3")%string then inr "ID3" else inl no_file)
        (fun _ _ => None) (fun _ _ => None) (fun _ _ => None)
        (fun _ => inl (ValueError "Expecting value")).

(** The reply of [status_backend]. *)
Definition bare_reply (status : Z) : response :=
  mkResponse status (inl (ValueError "Expecting value")) EmptyString.

(** A file name that is one path component: not empty, without a
    separator, neither [.] nor [..]. *)
Definition plain_name (s : string) : bool :=
  negb (contains_char "/" s) && negb (s =? EmptyString)%string
  && negb (s =? ".")%string && negb (s =? "..")%string.

(** A descriptor whose file name, if it is a string, is plain. *)
Definition plainly_named (d : ComfyUI.descriptor) : bool :=
  match ComfyUI.d_filename d with
  | JStr s => plain_name s
  | _ => true
  end.


(* ===================================================================== *)
(** * Properties *)
(* ===================================================================== *)

Example py_in_dict :
  py_in (JStr "outputs") (JObj [("status", JNull); ("outputs", JObj [])]) = inr true.
Proof. reflexivity. Qed.

Example py_in_list_bool_int : py_in (JInt 1) (JArr [JStr "a"; JBool true]) = inr true.
Proof. reflexivity. Qed.

Example py_str_list :
  py_str (JArr [JInt 1; JStr "a'b"; JNull])
  = "[1, " ++ String dquote ("a'b" ++ String dquote ", None]").
Proof. reflexivity. Qed.

Example safe_content_hello :
  LocalAIUtils.safe_content "Hello, World! -- it's  me_" = "Hello_World_its_me".
Proof. reflexivity. Qed.

Example make_output_file_tts :
  LocalAIUtils.make_output_file
    (LocalAIUtils.mkDatetime 2024 3 7 9 5 30 250)
    "localai_tts" "Hello, World!" "/tmp/out" "mp3"
  = "localai_tts_Hello_World_20240307_090530.mp3".
Proof. reflexivity. Qed.

Example path_stem_song : path_stem "/music/my.song.wav" = "my.song".
Proof. reflexivity. Qed.

Example safe_content_cut :
  LocalAIUtils.safe_content "a very long prompt about rain, wind & thunder at night"
  = "a_very_long_prompt_about_rain".
Proof. reflexivity. Qed.

(** Running monadic code: unfold the plumbing, leave the strings alone. *)
Ltac run :=
  cbv beta iota zeta delta
      [bind ret raise lift try_except logger emit time_sleep time_time negb];
  cbn [now count trace].

(* ===================================================================== *)
(** ** The wait loop *)
(* ===================================================================== *)

Section WaitLoop.
Variable env : Env.
Variable base_url : string.
Variable prompt_id : json.

Let rq := ComfyUI.history_request base_url prompt_id.

Lemma requests_app (a b : list event) : requests (a ++ b) = (requests a + requests b)%nat.
Proof.
  induction a as [|[] a IH]; simpl; auto.
Qed.

Lemma sleeps_app (a b : list event) : sleeps (a ++ b) = (sleeps a ++ sleeps b)%list.
Proof.
  induction a as [|[] a IH]; simpl; auto. now rewrite IH.
Qed.

Lemma in_flight_app (a b : list event) : in_flight (a ++ b) = in_flight a + in_flight b.
Proof.
  induction a as [|[] a IH]; simpl; auto. lia.
Qed.

Lemma logs_requests (l : list event) : Forall is_log l -> requests l = O.
Proof.
  induction 1 as [|[] l H _ IH]; simpl in *; auto; contradiction.
Qed.

Lemma logs_sleeps (l : list event) : Forall is_log l -> sleeps l = [].
Proof.
  induction 1 as [|[] l H _ IH]; simpl in *; auto; contradiction.
Qed.

Lemma logs_in_flight (l : list event) : Forall is_log l -> in_flight l = 0.
Proof.
  induction 1 as [|[] l H _ IH]; simpl in *; auto; contradiction.
Qed.

(** What [get_history] does: one request, an error log when the poll
    failed, and [history_of] the reply. *)
Lemma get_history_run (w : World) :
  let t := now w + Z.max 0 (delay env (count w)) in
  let rp := serve env (count w) t rq in
  exists logs,
    Forall is_log logs /\
    (failed_poll rp = true -> logged is_error logs <> []) /\
    ComfyUI.get_history env base_url prompt_id w
    = (Ret (history_of rp),
       mkWorld t (S (count w)) (logs ++ EvRequest rq rp (now w) t :: trace w)).
Proof.
  cbv zeta. unfold ComfyUI.get_history, try_except, bind, http, raise_for_status.
  fold rq. destruct (serve env (count w) _ rq) as [e|r] eqn:Hrp; simpl.
  - eexists [_]. repeat split; [repeat constructor | discriminate].
  - destruct (is_success r); simpl.
    + destruct (json_body r) as [e|j]; simpl.
      * eexists [_]. repeat split; [repeat constructor | discriminate].
      * exists []. repeat split; auto. discriminate.
    + eexists [_]. repeat split; [repeat constructor | discriminate].
Qed.

(** One turn of the loop: the poll, then either [return True] or one
    sleep of [poll_interval]; a turn never raises. *)
Lemma poll_once_run (P : Z) (w : World) :
  0 <= P ->
  let t := now w + Z.max 0 (delay env (count w)) in
  let rp := serve env (count w) t rq in
  exists logs,
    Forall is_log logs /\
    ComfyUI.poll_once env base_url prompt_id P w
    = if shows_success prompt_id rp
      then (Ret true,
            mkWorld t (S (count w)) (logs ++ EvRequest rq rp (now w) t :: trace w))
      else (Ret false,
            mkWorld (t + P) (S (count w))
                    (EvSleep P :: logs ++ EvRequest rq rp (now w) t :: trace w)).
Proof.
  intros HP. cbv zeta.
  destruct (get_history_run w) as (logs & Hlogs & _ & Hrun).
  unfold ComfyUI.poll_once, try_except, bind at 1. rewrite Hrun.
  unfold shows_success.
  assert (Hs : (P <? 0) = false) by (apply Z.ltb_ge; lia).
  destruct (ComfyUI.completed prompt_id _) as [e|[|]]; run; rewrite ?Hs.
  - exists (EvLog ERROR ("Error checking completion: " ++ exn_msg e) :: logs).
    split; [constructor; simpl; auto|reflexivity].
  - exists (EvLog INFO ("Workflow " ++ py_str prompt_id ++ " completed") :: logs).
    split; [constructor; simpl; auto|reflexivity].
  - exists logs. split; auto.
Qed.

Lemma ceil_div_shift (x P : Z) : 0 < P -> ceil_div (x + P) P = ceil_div x P + 1.
Proof.
  intros HP. unfold ceil_div.
  replace (x + P + P - 1) with (x + P - 1 + 1 * P) by ring.
  now rewrite Z.div_add by lia.
Qed.

Lemma ceil_div_mono (x y P : Z) : 0 < P -> x <= y -> ceil_div x P <= ceil_div y P.
Proof.
  intros HP Hxy. unfold ceil_div. apply Z.div_le_mono; lia.
Qed.

Lemma ceil_div_pos (x P : Z) : 0 < P -> 0 < x -> 1 <= ceil_div x P.
Proof.
  intros HP Hx. unfold ceil_div.
  apply Z.div_le_lower_bound; lia.
Qed.

Lemma turns_pos (x P : Z) : 0 < P -> 0 < x -> (1 <= turns x P)%nat.
Proof.
  intros HP Hx. unfold turns. pose proof (ceil_div_pos x P HP Hx). lia.
Qed.

Lemma turns_step (x y P : Z) :
  0 < P -> 0 < x -> y <= x - P -> (S (turns y P) <= turns x P)%nat.
Proof.
  intros HP Hx Hy. unfold turns.
  pose proof (ceil_div_pos x P HP Hx).
  pose proof (ceil_div_mono (y + P) x P HP ltac:(lia)) as Hm.
  rewrite ceil_div_shift in Hm by lia. lia.
Qed.


(** The loop proper.  With [ceil(remaining / P)] units of fuel the loop
    returns; its trace is made of polls sent before the deadline, each
    followed by at most one sleep of [P]; [True] comes only from a poll
    that showed the success record. *)
Lemma wait_loop_run (T P start : Z) :
  0 < P ->
  forall (fuel : nat) (w : World),
    start <= now w ->
    (turns (T - (now w - start)) P <= fuel)%nat ->
    exists b w' evs,
      ComfyUI.wait_loop env base_url fuel prompt_id T P start w = (Ret b, w') /\
      trace w' = (evs ++ trace w)%list /\
      (requests evs <= turns (T - (now w - start)) P)%nat /\
      (List.length (sleeps evs) <= requests evs)%nat /\
      Forall (eq P) (sleeps evs) /\
      Forall (poll_of env base_url prompt_id start T) evs /\
      (no_success prompt_id evs -> b = false) /\
      (b = true -> ends_with_success prompt_id evs) /\
      now w' = now w + P * Z.of_nat (List.length (sleeps evs)) + in_flight evs.
Proof.
  intros HP fuel. induction fuel as [|fuel IH]; intros w Hstart Hfuel.
  - (* no fuel is needed only when the deadline has passed *)
    cbn [ComfyUI.wait_loop].
    destruct (now w - start <? T) eqn:Hlt.
    + apply Z.ltb_lt in Hlt.
      pose proof (turns_pos (T - (now w - start)) P HP ltac:(lia)). lia.
    + run. do 3 eexists. split; [reflexivity|]. cbn [trace].
      split; [instantiate (1 := [_]); reflexivity|].
      cbn. repeat split;
        first [lia | discriminate | now repeat constructor | auto using Nat.le_0_l].
  - cbn [ComfyUI.wait_loop].
    destruct (now w - start <? T) eqn:Hlt.
    + apply Z.ltb_lt in Hlt.
      destruct (poll_once_run P w ltac:(lia)) as (logs & Hlogs & Hrun).
      cbv zeta in Hrun. unfold bind at 1. rewrite Hrun. clear Hrun.
      set (t := now w + Z.max 0 (delay env (count w))) in *.
      set (rp := serve env (count w) t rq) in *.
      assert (Hpoll : poll_of env base_url prompt_id start T
                              (EvRequest rq rp (now w) t)).
      { cbn. repeat split; try lia. exists (count w). auto. }
      destruct (shows_success prompt_id rp) eqn:Hs.
      * (* return True *)
        run. exists true. eexists. exists (logs ++ [EvRequest rq rp (now w) t])%list.
        split; [reflexivity|]. cbn [trace now].
        rewrite <- app_assoc. split; [reflexivity|].
        rewrite requests_app, sleeps_app, in_flight_app.
        rewrite (logs_requests _ Hlogs), (logs_sleeps _ Hlogs), (logs_in_flight _ Hlogs).
        cbn. pose proof (turns_pos (T - (now w - start)) P HP ltac:(lia)).
        repeat split; auto; try lia.
        -- apply Forall_app. split; [|constructor; [exact Hpoll|constructor]].
           eapply Forall_impl; [|exact Hlogs]. intros [] H'; cbn in *; tauto.
        -- intros Hno. specialize (Hno rq rp (now w) t).
           rewrite Hno in Hs; [discriminate|]. apply in_or_app. right. now left.
        -- intros _. exists logs, rq, rp, (now w), t, []. auto.
      * (* one sleep, then around again *)
        set (w1 := mkWorld (t + P) (S (count w))
                           (EvSleep P :: logs ++ EvRequest rq rp (now w) t :: trace w)).
        assert (Ht : now w <= t) by (unfold t; lia).
        pose proof (turns_step (T - (now w - start)) (T - (now w1 - start)) P HP
                               ltac:(lia) ltac:(cbn; lia)) as Hstep.
        destruct (IH w1 ltac:(cbn; lia) ltac:(lia))
          as (b & w' & evs & Hrun & Htr & Hreq & Hsl & Hall & Hpolls & Hno & Hyes & Hnow).
        exists b, w', (evs ++ EvSleep P :: logs ++ [EvRequest rq rp (now w) t])%list.
        split; [exact Hrun|].
        split; [rewrite Htr; cbn; rewrite <- !app_assoc; cbn;
                rewrite <- app_assoc; reflexivity|].
        rewrite !requests_app, !sleeps_app, !in_flight_app. cbn.
        rewrite !requests_app, !sleeps_app, !in_flight_app.
        rewrite (logs_requests _ Hlogs), (logs_sleeps _ Hlogs), (logs_in_flight _ Hlogs).
        cbn. rewrite !length_app. cbn.
        repeat split; try lia.
        -- apply Forall_app. split; [assumption|repeat constructor].
        -- apply Forall_app. split; [assumption|]. constructor; [exact I|].
           apply Forall_app. split; [|constructor; [exact Hpoll|constructor]].
           eapply Forall_impl; [|exact Hlogs]. intros [] H'; cbn in *; tauto.
        -- intros Hall'. apply Hno. intros rq' rp' s' t' Hin.
           apply (Hall' rq' rp' s' t'). apply in_or_app. now left.
        -- intros Hb. destruct (Hyes Hb) as (l & q & r & s' & t' & older & E & Hl & Hsucc).
           exists l, q, r, s', t', (older ++ EvSleep P :: logs ++ [EvRequest rq rp (now w) t])%list.
           rewrite E, <- app_assoc. auto.
        -- rewrite Hnow. cbn. lia.
    + run. do 3 eexists. split; [reflexivity|]. cbn [trace].
      split; [instantiate (1 := [_]); reflexivity|].
      cbn. repeat split;
        first [lia | discriminate | now repeat constructor | auto using Nat.le_0_l].
Qed.

End WaitLoop.

Section WaitForCompletion.
Variable env : Env.
Variable base_url : string.
Variable prompt_id : json.




End WaitForCompletion.


Example wait_three_polls :
  fst (ComfyUI.wait_for_completion (late_backend 0 1000) "http://comfy" 3
                                   (JStr "job-1") 5 2 world0) = Ret false
  /\ now (snd (ComfyUI.wait_for_completion (late_backend 0 1000) "http://comfy" 3
                                           (JStr "job-1") 5 2 world0)) = 6.
Proof. vm_compute. split; reflexivity. Qed.

(** Time in flight comes on top of the sleeping time: with requests
    that take 3 s, [max_wait = 5] and [poll_interval = 1], the call makes
    two polls and lasts 8 s. *)
Example slow_polls_take_longer :
  fst (ComfyUI.wait_for_completion (late_backend 3 1000) "http://comfy" 5
                                   (JStr "job-1") 5 1 world0) = Ret false
  /\ now (snd (ComfyUI.wait_for_completion (late_backend 3 1000) "http://comfy" 5
                                           (JStr "job-1") 5 1 world0)) = 8.
Proof. vm_compute. split; reflexivity. Qed.




(* ===================================================================== *)
(** ** Health probe and failed polls *)
(* ===================================================================== *)

Section Absorbed.
Variable env : Env.
Variable base_url : string.

Lemma failed_poll_no_success (prompt_id : json) (rp : reply) :
  failed_poll rp = true -> shows_success prompt_id rp = false.
Proof.
  unfold failed_poll, shows_success, history_of.
  destruct rp as [e|r].
  - intros _. destruct prompt_id; reflexivity.
  - destruct (is_success r); cbn.
    + destruct (json_body r); [|discriminate]. intros _.
      destruct prompt_id; reflexivity.
    + intros _. destruct prompt_id; reflexivity.
Qed.

(** C8, as the code has it.  [check_health] never raises: a transport
    error gives [False] and one error log; a response with any status
    other than 200 gives [False] and no log.  A failed poll inside the
    wait loop is logged, counts as "not yet complete", is followed by the
    usual sleep, and the loop goes on. *)
Theorem transport_errors_absorbed (w : World) :
  let t := now w + Z.max 0 (delay env (count w)) in
  let probe := GET (base_url ++ "/system_stats") [] in
  (forall e,
      serve env (count w) t probe = TransportError e ->
      ComfyUI.check_health env base_url w
      = (Ret false,
         mkWorld t (S (count w))
                 (EvLog ERROR ("Health check failed: " ++ exn_msg e)
                  :: EvRequest probe (TransportError e) (now w) t :: trace w))) /\
  (forall r,
      serve env (count w) t probe = Reply r ->
      status_code r <> 200 ->
      ComfyUI.check_health env base_url w
      = (Ret false,
         mkWorld t (S (count w)) (EvRequest probe (Reply r) (now w) t :: trace w))) /\
  (forall prompt_id T P start fuel,
      let poll := ComfyUI.history_request base_url prompt_id in
      failed_poll (serve env (count w) t poll) = true ->
      0 <= P ->
      now w - start < T ->
      exists logs,
        Forall is_log logs /\ logged is_error logs <> [] /\
        ComfyUI.wait_loop env base_url (S fuel) prompt_id T P start w
        = ComfyUI.wait_loop env base_url fuel prompt_id T P start
            (mkWorld (t + P) (S (count w))
                     (EvSleep P :: logs
                      ++ EvRequest poll (serve env (count w) t poll) (now w) t
                      :: trace w))).
Proof.
  cbv zeta. split; [|split].
  - intros e He. unfold ComfyUI.check_health, http. run. now rewrite He.
  - intros r Hr Hst. unfold ComfyUI.check_health, http. run. rewrite Hr.
    apply Z.eqb_neq in Hst. now rewrite Hst.
  - intros prompt_id T P start fuel Hfail HP Hlt.
    destruct (get_history_run env base_url prompt_id w) as (logs & Hlogs & Herr & Hrun).
    cbv zeta in Hrun, Herr. specialize (Herr Hfail).
    pose proof (failed_poll_no_success prompt_id _ Hfail) as Hno.
    cbn [ComfyUI.wait_loop]. apply Z.ltb_lt in Hlt. rewrite Hlt.
    unfold bind at 1.
    unfold ComfyUI.poll_once, try_except, bind at 1. rewrite Hrun.
    unfold shows_success in Hno.
    assert (Hs : (P <? 0) = false) by (apply Z.ltb_ge; lia).
    destruct (ComfyUI.completed prompt_id _) as [e|[|]]; try discriminate;
      run; rewrite Hs.
    + exists (EvLog ERROR ("Error checking completion: " ++ exn_msg e) :: logs).
      split; [constructor; [exact I|assumption]|]. split; [discriminate|reflexivity].
    + exists logs. auto.
Qed.

End Absorbed.

(** C8 as stated fails on the log: a response with status 500 makes
    [check_health] return [False], and nothing is logged. *)
Lemma bad_status_is_not_logged :
  fst (ComfyUI.check_health (status_backend 500) "http://comfy" world0) = Ret false /\
  all_logs (trace (snd (ComfyUI.check_health (status_backend 500) "http://comfy"
                                             world0))) = [].
Proof. vm_compute. split; reflexivity. Qed.

(** C8 at work: an unreachable server, a server that answers 503, and a
    poll that fails while the wait loop has time left. *)
Lemma transport_errors_absorbed_witness :
  fst (ComfyUI.check_health unreachable_backend "http://comfy" world0) = Ret false /\
  fst (ComfyUI.check_health (status_backend 503) "http://comfy" world0) = Ret false /\
  exists w1,
    now w1 = 2 /\
    ComfyUI.wait_loop unreachable_backend "http://comfy" 3 (JStr "job-1") 5 2 0 world0
    = ComfyUI.wait_loop unreachable_backend "http://comfy" 2 (JStr "job-1") 5 2 0 w1.
Proof.
  destruct (transport_errors_absorbed unreachable_backend "http://comfy" world0)
    as (Hdown & _ & Hpoll).
  destruct (transport_errors_absorbed (status_backend 503) "http://comfy" world0)
    as (_ & Hstatus & _).
  split; [|split].
  - rewrite (Hdown _ eq_refl). reflexivity.
  - rewrite (Hstatus _ eq_refl ltac:(discriminate)). reflexivity.
  - destruct (Hpoll (JStr "job-1") 5 2 0 2%nat eq_refl ltac:(lia) ltac:(cbn; lia))
      as (logs & _ & _ & Hrun).
    eexists. split; [|exact Hrun]. reflexivity.
Defined.

(* ===================================================================== *)
(** ** Submission and template loading *)
(* ===================================================================== *)

Section HardFailures.
Variable env : Env.
Variable base_url : string.

(** C9.  [queue_prompt] raises, with a message that says a workflow was
    being queued, whenever the submission is rejected (no response, a
    status outside 2xx, or no "prompt_id" token in the body); what it
    returns is always the truthy token of the response.  [load_workflow]
    raises, naming the path and the cause, whenever the file cannot be
    read or parsed. *)
Theorem submit_and_load_fail_hard (w : World) :
  (forall workflow client_id,
      rejected (submission env base_url workflow client_id w) ->
      exists cause w',
        ComfyUI.queue_prompt env base_url workflow client_id w
        = (Raise (Exception ("Failed to queue workflow: " ++ cause)), w')) /\
  (forall workflow client_id v w',
      ComfyUI.queue_prompt env base_url workflow client_id w = (Ret v, w') ->
      truthy v = true /\
      exists r, submission env base_url workflow client_id w = Reply r /\
                is_success r = true /\ token_of r = Some v) /\
  (forall workflow_path cause,
      unusable (read_json env workflow_path) cause ->
      ComfyUI.load_workflow env workflow_path w
      = (Raise (Exception ("Failed to load workflow from " ++ workflow_path ++ ": "
                           ++ exn_msg cause)),
         mkWorld (now w) (count w)
                 (EvLog ERROR ("Failed to load workflow: " ++ exn_msg cause)
                  :: trace w))).
Proof.
  split; [|split].
  - intros workflow client_id.
    unfold submission, rejected, ComfyUI.queue_prompt, http, fresh_uuid,
      raise_for_status, token_of.
    destruct client_id as [c|]; run.
    all: destruct (serve env _ _ _) as [e|r]; run;
      [intros _; do 2 eexists; reflexivity|].
    all: destruct (is_success r); run;
      [|intros _; do 2 eexists; reflexivity].
    all: intros [H|H]; [discriminate|].
    all: destruct (json_body r) as [e|j]; run; [do 2 eexists; reflexivity|].
    all: destruct (py_get j "prompt_id" JNull) as [e|v]; run;
      [do 2 eexists; reflexivity|].
    all: destruct (truthy v); [discriminate|]; run.
    all: do 2 eexists; reflexivity.
  - intros workflow client_id v w'.
    unfold submission, ComfyUI.queue_prompt, http, fresh_uuid,
      raise_for_status, token_of.
    destruct client_id as [c|]; run.
    all: destruct (serve env _ _ _) as [e|r]; run; [discriminate|].
    all: destruct (is_success r) eqn:Hok; run; [|discriminate].
    all: destruct (json_body r) as [e|j] eqn:Hbody; run; [discriminate|].
    all: destruct (py_get j "prompt_id" JNull) as [e|v0] eqn:Hget; run;
      [discriminate|].
    all: destruct (truthy v0) eqn:Htr; run; [|discriminate].
    all: intros [= <- _]; split; [assumption|].
    all: exists r; rewrite Hbody, Hget, Htr; auto.
  - intros workflow_path cause [H|H];
      unfold ComfyUI.load_workflow, open_json; rewrite H; reflexivity.
Qed.

End HardFailures.

(** C9 at work: a server that answers 500, a server whose JSON body has
    no "prompt_id", and a template file that does not parse. *)
Lemma submit_and_load_fail_hard_witness :
  (exists cause w',
      ComfyUI.queue_prompt (status_backend 500) "http://comfy" (JObj []) None world0
      = (Raise (Exception ("Failed to queue workflow: " ++ cause)), w')) /\
  (exists cause w',
      ComfyUI.queue_prompt broken_template_env "http://comfy" (JObj []) None world0
      = (Raise (Exception ("Failed to queue workflow: " ++ cause)), w')) /\
  fst (ComfyUI.load_workflow broken_template_env "/wf/broken.json"
                             world0)
  = Raise (Exception ("Failed to load workflow from /wf/broken.json: "
                      ++ "Expecting value: line 1 column 1 (char 0)")).
Proof.
  destruct (submit_and_load_fail_hard (status_backend 500) "http://comfy" world0)
    as (Hstatus & _ & _).
  destruct (submit_and_load_fail_hard broken_template_env "http://comfy" world0)
    as (Htoken & _ & Hload).
  split; [|split].
  - apply Hstatus. left. reflexivity.
  - apply Htoken. right. reflexivity.
  - rewrite (Hload "/wf/broken.json" _ (or_intror eq_refl)). reflexivity.
Defined.

Example queue_prompt_ok :
  fst (ComfyUI.queue_prompt
         (backend (fun _ _ _ => Reply (mkResponse 200
                     (inr (JObj [("prompt_id", JStr "job-1"); ("number", JInt 3)])) EmptyString))
                  0)
         "http://comfy" (JObj []) None world0)
  = Ret (JStr "job-1").
Proof. reflexivity. Qed.

(* ===================================================================== *)
(** ** Output resolution *)
(* ===================================================================== *)

Section Resolver.

Lemma entries_of_dicts (kind node_id : string) (es : list json) :
  forallb is_dict es = true ->
  ComfyUI.entries kind node_id es = inr (map (describe kind) (map (pair node_id) es)).
Proof.
  induction es as [|e es IH]; [reflexivity|].
  cbn [forallb]. intros [He Hes]%andb_prop.
  destruct e; try discriminate.
  cbn [ComfyUI.entries py_get]. unfold describe at 1. cbn [map fst snd field].
  rewrite (IH Hes).
  destruct (dict_lookup "filename" kvs), (dict_lookup "subfolder" kvs); reflexivity.
Qed.

Lemma section_files_typed (key kind node_id : string) (sects : list (string * json)) :
  section_ok key sects = true ->
  ComfyUI.section_files key kind node_id (JObj sects)
  = inr (map (describe kind) (section_of key (node_id, JObj sects))).
Proof.
  unfold section_ok, ComfyUI.section_files, section_of. cbn [py_in py_getitem fst snd].
  unfold dict_mem.
  destruct (dict_lookup key sects) as [[]|]; try discriminate; [|reflexivity].
  intros H. cbn [py_iter]. now apply entries_of_dicts.
Qed.

(** On a well-formed result structure the resolver visits every node and
    lists its pictures, then its sounds. *)
Lemma output_files_typed (nodes : list (string * json)) :
  well_formed nodes = true ->
  ComfyUI.output_files nodes
  = inr (flat_map (fun node =>
                     map (describe "image") (section_of "images" node)
                     ++ map (describe "audio") (section_of "audio" node))%list
                  nodes).
Proof.
  induction nodes as [|[node_id out] nodes IH]; [reflexivity|].
  cbn [well_formed forallb snd]. intros [Hn Hrest]%andb_prop.
  destruct out; try discriminate. cbn [node_ok] in Hn.
  apply andb_prop in Hn as [Hi Ha].
  cbn [ComfyUI.output_files flat_map].
  rewrite (section_files_typed _ _ _ _ Hi), (section_files_typed _ _ _ _ Ha).
  unfold well_formed in IH. rewrite (IH Hrest). now rewrite app_assoc.
Qed.

Lemma flat_map_split {A B} (f g : A -> list B) (l : list A) :
  Permutation (flat_map (fun x => f x ++ g x)%list l) (flat_map f l ++ flat_map g l).
Proof.
  induction l as [|x l IH]; cbn; [constructor|].
  rewrite IH, <- !app_assoc. apply Permutation_app_head.
  rewrite !app_assoc. apply Permutation_app_tail, Permutation_app_comm.
Qed.

Lemma flat_map_describe (kind key : string) (nodes : list (string * json)) :
  flat_map (fun node => map (describe kind) (section_of key node)) nodes
  = map (describe kind) (entries_under key nodes).
Proof.
  unfold entries_under. induction nodes as [|n nodes IH]; cbn; [reflexivity|].
  now rewrite map_app, IH.
Qed.

Variable env : Env.
Variable base_url : string.

(** C5.  When the history of the job is a well-formed result structure
    whose nodes list, all together, exactly one entry under "images" and
    exactly one under "audio", [get_output_files] returns exactly two
    descriptors: the picture tagged "image" and the sound tagged "audio",
    each with the filename and subfolder of its entry and the identifier
    of its node.  What the nodes hold under other keys plays no part. *)
Theorem one_audio_one_image (job : string) (w : World)
        (nodes : list (string * json)) (img aud : string * json) :
  result_structure job
    (serve env (count w) (now w + Z.max 0 (delay env (count w)))
           (ComfyUI.history_request base_url (JStr job)))
    nodes ->
  well_formed nodes = true ->
  entries_under "images" nodes = [img] ->
  entries_under "audio" nodes = [aud] ->
  exists files w',
    ComfyUI.get_output_files env base_url (JStr job) w = (Ret files, w') /\
    List.length files = 2%nat /\
    Permutation files [describe "image" img; describe "audio" aud].
Proof.
  intros (r & h & record & Hrp & Hok & Hbody & Hrec & Hout) Hwf Himg Haud.
  destruct (get_history_run env base_url (JStr job) w) as (logs & _ & _ & Hrun).
  cbv zeta in Hrun. rewrite Hrp in Hrun. cbn [history_of] in Hrun.
  rewrite Hok, Hbody in Hrun.
  unfold ComfyUI.get_output_files, try_except, bind at 1. rewrite Hrun.
  cbn [py_in py_getitem]. unfold dict_mem. rewrite Hrec. run.
  cbn [py_get]. rewrite Hout. run. cbn [py_items]. run.
  rewrite (output_files_typed nodes Hwf). run.
  do 2 eexists. split; [reflexivity|].
  assert (HP : Permutation
                 (flat_map (fun node =>
                     map (describe "image") (section_of "images" node)
                     ++ map (describe "audio") (section_of "audio" node))%list nodes)
                 [describe "image" img; describe "audio" aud]).
  { rewrite flat_map_split, !flat_map_describe, Himg, Haud. reflexivity. }
  split; [|exact HP]. now rewrite (Permutation_length HP).
Qed.

End Resolver.

(** C5 at work: a picture in one node, a sound in another, and outputs of
    other kinds beside them. *)
Lemma one_audio_one_image_witness :
  exists files w',
    ComfyUI.get_output_files mixed_backend "http://comfy" (JStr "job-1") world0
    = (Ret files, w') /\
    List.length files = 2%nat /\
    Permutation files
      [ComfyUI.mkDescriptor "image" (JStr "cover.png") (JStr "art") "7";
       ComfyUI.mkDescriptor "audio" (JStr "song.flac") (JStr EmptyString) "9"].
Proof.
  apply (one_audio_one_image mixed_backend "http://comfy" "job-1" world0 mixed_outputs
           ("7", JObj [("filename", JStr "cover.png"); ("subfolder", JStr "art");
                       ("type", JStr "output")])
           ("9", JObj [("filename", JStr "song.flac")])).
  - do 3 eexists. repeat split; reflexivity.
  - reflexivity.
  - reflexivity.
  - reflexivity.
Defined.

Example unknown_kinds_ignored :
  ComfyUI.output_files [("3", JObj [("gifs", JArr [JObj [("filename", JStr "a.gif")]]);
                                    ("text", JStr "images and audio")])]
  = inr [].
Proof. reflexivity. Qed.

(* ===================================================================== *)
(** ** Text injection *)
(* ===================================================================== *)

Section Injection.

Lemma dict_set_replaced (k : string) (v v' : json) (d : list (string * json)) :
  dict_lookup k d = Some v -> replaced_at k v' d (dict_set k v' d).
Proof.
  induction d as [|[k0 v0] d IH]; [discriminate|].
  cbn [dict_lookup dict_set]. destruct (String.eqb_spec k0 k) as [->|Hne].
  - intros _. exists [], v0, d. auto.
  - intros H. destruct (IH H) as (l1 & x & l2 & E1 & E2 & Hl1).
    exists ((k0, v0) :: l1), x, l2. cbn [app dict_lookup].
    rewrite E1 at 1. rewrite E2.
    apply String.eqb_neq in Hne. rewrite Hne. auto.
Qed.

(** One entry: never an error on a usable entry, and only the "text"
    input changes. *)
Lemma inject_node_valid (prompt_text : string) (node : json) :
  node_valid node = true ->
  exists node',
    ComfyUIServer.inject_node prompt_text node
    = inr (node', match text_inputs node with Some _ => true | None => false end)
    /\ injected prompt_text node node'.
Proof.
  unfold node_valid, ComfyUIServer.inject_node, injected, text_inputs.
  destruct node as [| | | | |fields]; try (intros _; eexists; split; reflexivity).
  cbn [py_get].
  destruct (dict_lookup "inputs" fields) as [inputs|] eqn:Hin.
  - destruct inputs as [| | | | |ins]; try discriminate. intros _.
    cbn [py_in py_setitem]. destruct (dict_mem "text" ins) eqn:Hmem.
    + eexists. split; [reflexivity|].
      exists (dict_set "inputs" (JObj (dict_set "text" (JStr prompt_text) ins)) fields),
             (dict_set "text" (JStr prompt_text) ins).
      split; [reflexivity|]. split.
      * eapply dict_set_replaced; eassumption.
      * unfold dict_mem in Hmem.
        destruct (dict_lookup "text" ins) eqn:Ht; [|discriminate].
        eapply dict_set_replaced; eassumption.
    + eexists. split; reflexivity.
  - intros _. cbn [py_in]. eexists. split; reflexivity.
Qed.

(** C7.  On a valid Job Template, text injection returns (it raises
    nothing, and sends nothing): the result has the same entries in the
    same order, every entry whose inputs hold the key "text" has that one
    value replaced by the prompt, and every other field of every entry is
    what was loaded. *)
Theorem injection_frame (prompt_text : string) (workflow : json)
        (items : list (string * json)) (w : World) :
  valid_template workflow items ->
  exists items' logs,
    ComfyUIServer.inject_text prompt_text workflow w
    = (Ret (JObj items'), mkWorld (now w) (count w) (logs ++ trace w)%list) /\
    Forall is_log logs /\
    Forall2 (fun old new => fst new = fst old /\
                            injected prompt_text (snd old) (snd new))
            items items'.
Proof.
  intros [-> Hvalid]. unfold ComfyUIServer.inject_text. cbn [py_items]. run.
  revert w. induction items as [|[node_id node] items IH]; intros w.
  - exists [], []. cbn. destruct w. repeat split; constructor.
  - cbn [forallb snd] in Hvalid. apply andb_prop in Hvalid as [Hn Hrest].
    destruct (inject_node_valid prompt_text node Hn) as (node' & Hrun & Hinj).
    cbn [ComfyUIServer.inject_items]. rewrite Hrun. run. cbn [fst snd].
    destruct (text_inputs node) eqn:Ht; run.
    + destruct (IH Hrest (mkWorld (now w) (count w)
                  (EvLog INFO ("Updated text input in node " ++ node_id) :: trace w)))
        as (items' & logs & Hloop & Hlogs & Hall).
      revert Hloop. run. destruct (ComfyUIServer.inject_items _ _ _) as [[l|e| |] w1];
        try discriminate. intros [= -> ->].
      exists ((node_id, node') :: items'),
             (logs ++ [EvLog INFO ("Updated text input in node " ++ node_id)])%list.
      rewrite <- app_assoc. split; [reflexivity|]. split.
      * apply Forall_app. split; [assumption|repeat constructor].
      * constructor; [split; [reflexivity|assumption]|assumption].
    + destruct (IH Hrest w) as (items' & logs & Hloop & Hlogs & Hall).
      revert Hloop. run. destruct (ComfyUIServer.inject_items _ _ _) as [[l|e| |] w1];
        try discriminate. intros [= -> ->].
      exists ((node_id, node') :: items'), logs.
      split; [reflexivity|]. split; [assumption|].
      constructor; [split; [reflexivity|assumption]|assumption].
Qed.

End Injection.

(** C7 at work on a three-entry template. *)
Lemma injection_frame_witness :
  exists items' logs,
    ComfyUIServer.inject_text "rain on a tin roof" text_to_music world0
    = (Ret (JObj items'), mkWorld 0 0 (logs ++ [])%list) /\
    Forall is_log logs /\
    Forall2 (fun old new => fst new = fst old /\
                            injected "rain on a tin roof" (snd old) (snd new))
            [("3", JObj [("class_type", JStr "CLIPTextEncode");
                         ("inputs", JObj [("clip", JArr [JStr "4"; JInt 1]);
                                          ("text", JStr "placeholder")])]);
             ("5", JObj [("class_type", JStr "EmptyLatentAudio");
                         ("inputs", JObj [("seconds", JInt 30)])]);
             ("_meta", JStr "v1")]
            items'.
Proof.
  apply (injection_frame "rain on a tin roof" text_to_music _ world0).
  split; reflexivity.
Defined.

Example inject_text_example :
  fst (ComfyUIServer.inject_text "rain on a tin roof" text_to_music world0)
  = Ret (JObj [("3", JObj [("class_type", JStr "CLIPTextEncode");
                           ("inputs", JObj [("clip", JArr [JStr "4"; JInt 1]);
                                            ("text", JStr "rain on a tin roof")])]);
               ("5", JObj [("class_type", JStr "EmptyLatentAudio");
                           ("inputs", JObj [("seconds", JInt 30)])]);
               ("_meta", JStr "v1")]).
Proof. reflexivity. Qed.

(* ===================================================================== *)
(** ** Download batches *)
(* ===================================================================== *)

Section Downloads.
Variable env : Env.
Variable COMFYUI_BASE_URL : string.
Variable output_path : string.








End Downloads.




Example partial_download_paths :
  fst (ComfyUIServer.save_all lossy_backend "http://comfy/" "/out" three_files world0)
  = Ret ["/out/a.wav"; "/out/c.png"].
Proof. reflexivity. Qed.

(* ===================================================================== *)
(** ** Downloads come after completion *)
(* ===================================================================== *)

Section Preserving.
Context {A B : Type}.
Variable I : list event -> Prop.

Lemma preserves_ret (a : A) : preserves I (ret a).
Proof. intros w H. exact H. Qed.

Lemma preserves_raise (e : exn) : preserves I (@raise A e).
Proof. intros w H. exact H. Qed.

Lemma preserves_lift (r : exn + A) : preserves I (lift r).
Proof. destruct r; intros w H; exact H. Qed.

Lemma preserves_time : preserves I time_time.
Proof. intros w H. exact H. Qed.

Lemma preserves_bind (m : M A) (k : A -> M B) :
  preserves I m -> (forall a, preserves I (k a)) -> preserves I (bind m k).
Proof.
  intros Hm Hk w H. unfold bind. specialize (Hm w H).
  destruct (m w) as [[a|e| |] w']; cbn in *; auto. now apply Hk.
Qed.

Lemma preserves_try (body : M A) (handler : exn -> M A) :
  preserves I body -> (forall e, preserves I (handler e)) ->
  preserves I (try_except body handler).
Proof.
  intros Hm Hk w H. unfold try_except. specialize (Hm w H).
  destruct (body w) as [[a|e| |] w']; cbn in *; auto. now apply Hk.
Qed.
End Preserving.

(** ** Invariants that every step keeps *)

Section KeptAlways.
Variable env : Env.
Variable I : list event -> Prop.

Lemma preserves_uuid_any : preserves I (fresh_uuid env).
Proof. intros w H. exact H. Qed.

Lemma preserves_open_json_any (p : string) : preserves I (open_json env p).
Proof. unfold open_json. destruct (read_json env p); intros w H; exact H. Qed.

Lemma preserves_status_any (r : response) : preserves I (raise_for_status r).
Proof.
  unfold raise_for_status. destruct (is_success r);
    [apply preserves_ret|apply preserves_raise].
Qed.

(** Sequencing after a dynamic operation: its result is known. *)
Lemma preserves_bind_lift {A B} (r : exn + A) (k : A -> M B) :
  (forall a, r = inr a -> preserves I (k a)) -> preserves I (bind (lift r) k).
Proof.
  intros Hk. destruct r as [e|a]; intros w H; [exact H|].
  exact (Hk a eq_refl w H).
Qed.

Lemma preserves_unmodelled {A} : preserves I (fun w => (@Unmodelled A, w)).
Proof. intros w H. exact H. Qed.

(** A branch on the state of the world. *)
Lemma preserves_world_if {A} (c : World -> bool) (m1 m2 : M A) :
  preserves I m1 -> preserves I m2 ->
  preserves I (fun w => if c w then m1 w else m2 w).
Proof. intros H1 H2 w H. destruct (c w); [now apply H1|now apply H2]. Qed.
End KeptAlways.

Ltac kept_step :=
  first
    [ match goal with H : _ |- preserves _ _ => solve [apply H] end
    | apply preserves_ret | apply preserves_raise | apply preserves_lift
    | apply preserves_time | apply preserves_unmodelled
    | apply preserves_uuid_any | apply preserves_open_json_any
    | apply preserves_status_any
    | apply preserves_bind; [|intros ?]
    | apply preserves_try; [|intros ?]
    | match goal with
      | |- preserves _ (if ?c then _ else _) => destruct c
      | |- preserves _ (match ?x with _ => _ end) => destruct x
      end ].

Ltac kept := repeat kept_step.

(** The loops of the adapters keep every invariant that their steps
    keep. *)
Section Kept.
Variable env : Env.
Variable I : list event -> Prop.
Hypothesis Hlog : forall lvl msg, preserves I (logger lvl msg).
Hypothesis Hsleep : forall d, preserves I (time_sleep d).
Hypothesis Hreq : forall rq, preserves I (http env rq).
Hypothesis Hmkdir : forall p, preserves I (mkdir env p).
Hypothesis Hopen : forall p, preserves I (open_wb env p).
Hypothesis Hwrite : forall p d, preserves I (write env p d).

Lemma inject_items_kept (p : string) (items : list (string * json)) :
  preserves I (ComfyUIServer.inject_items p items).
Proof.
  induction items as [|[node_id node] items IH]; cbn [ComfyUIServer.inject_items]; kept.
Qed.

Lemma inject_params_kept (params : list (string * json)) (workflow : json) :
  preserves I (ComfyUIServer.inject_params params workflow).
Proof.
  revert workflow. induction params as [|[node_id param_data] params IH];
    intros workflow; cbn [ComfyUIServer.inject_params]; kept.
Qed.

Lemma wait_loop_kept (base_url : string) (fuel : nat) (prompt_id : json) (T P start : Z) :
  preserves I (ComfyUI.wait_loop env base_url fuel prompt_id T P start).
Proof.
  induction fuel as [|fuel IH]; cbn [ComfyUI.wait_loop];
    apply preserves_world_if; kept.
Qed.

Lemma save_all_kept (url output_path : string) (output_files : list ComfyUI.descriptor) :
  preserves I (ComfyUIServer.save_all env url output_path output_files).
Proof.
  induction output_files as [|file_info rest IH]; cbn [ComfyUIServer.save_all]; kept.
Qed.
End Kept.

Lemma append_cancel (p a b : string) : p ++ a = p ++ b -> a = b.
Proof.
  induction p as [|c p IH]; cbn; [auto|]. intros [= H]. auto.
Qed.

(** *** What a run has done since a given moment *)

Section SinceRules.
Variable P : event -> Prop.
Variable tr0 : list event.

Lemma since_refl : since P tr0 tr0.
Proof. exists []. split; [reflexivity|constructor]. Qed.

Lemma since_cons (e : event) (tr : list event) :
  P e -> since P tr0 tr -> since P tr0 (e :: tr).
Proof.
  intros He (evs & -> & H). exists (e :: evs). split; [reflexivity|now constructor].
Qed.

Lemma since_logger (lvl : level) (msg : string) :
  P (EvLog lvl msg) -> preserves (since P tr0) (logger lvl msg).
Proof. intros HP w H. cbn. now apply since_cons. Qed.

Lemma since_sleep (d : Z) : P (EvSleep d) -> preserves (since P tr0) (time_sleep d).
Proof.
  intros HP w H. unfold time_sleep. destruct (d <? 0); cbn; [exact H|].
  now apply since_cons.
Qed.

Section WithEnv.
Variable env : Env.

Lemma since_http (rq : request) :
  (forall rp s t, P (EvRequest rq rp s t)) -> preserves (since P tr0) (http env rq).
Proof.
  intros HP w H. unfold http.
  destruct (serve env _ _ _); cbn; (apply since_cons; [apply HP|exact H]).
Qed.

Lemma since_mkdir (p : string) : P (EvMkdir p) -> preserves (since P tr0) (mkdir env p).
Proof.
  intros HP w H. unfold mkdir. destruct (mkdir_error env _ _); cbn; [exact H|].
  now apply since_cons.
Qed.

Lemma since_open_wb (p : string) : P (EvOpen p) -> preserves (since P tr0) (open_wb env p).
Proof.
  intros HP w H. unfold open_wb. destruct (open_error env _ _); cbn; [exact H|].
  now apply since_cons.
Qed.

Lemma since_write (p d : string) :
  P (EvWrite p d) -> preserves (since P tr0) (write env p d).
Proof.
  intros HP w H. unfold write. destruct (write_error env _ _); cbn; [exact H|].
  now apply since_cons.
Qed.
End WithEnv.
End SinceRules.

(** What holds of the events since [tr0] goes on holding when the run
    goes on with events of the same kind. *)
Section SinceWith.
Variable P : event -> Prop.
Variable Q : list event -> Prop.
Variable tr0 : list event.
Hypothesis Q_grows : forall e evs, Q evs -> Q (e :: evs).

Lemma Q_grows_app (more evs : list event) : Q evs -> Q (more ++ evs)%list.
Proof. intros H. induction more as [|e more IH]; cbn; auto. Qed.

Lemma since_with_since (tr : list event) : since_with P Q tr0 tr -> since P tr0 tr.
Proof. intros (evs & -> & H & _). exists evs. auto. Qed.

Lemma since_with_kept {A} (m : M A) :
  (forall tr1, preserves (since P tr1) m) -> preserves (since_with P Q tr0) m.
Proof.
  intros Hm w (evs & Hw & Hevs & HQ).
  destruct (Hm (trace w) w (since_refl P (trace w))) as (more & -> & Hmore).
  exists (more ++ evs)%list. rewrite Hw, app_assoc. split; [reflexivity|]. split.
  - apply Forall_app. auto.
  - now apply Q_grows_app.
Qed.
End SinceWith.

(** *** From one stage of a run to the next *)

Section Leads.
Context {A B : Type}.
Variables I K : list event -> Prop.
Hypothesis HIK : forall tr, I tr -> K tr.

Lemma leads_kept (m : M A) : preserves I m -> leads I K m.
Proof. intros Hm w H. apply HIK. now apply Hm. Qed.

Lemma leads_bind (m : M A) (k : A -> M B) :
  preserves I m -> (forall a, leads I K (k a)) -> leads I K (bind m k).
Proof.
  intros Hm Hk w H. unfold bind. specialize (Hm w H).
  destruct (m w) as [[a|e| |] w']; cbn in *; auto. now apply Hk.
Qed.

(** Sequencing after a step whose result decides what holds next. *)
Lemma leads_bind_post (J : A -> list event -> Prop) (m : M A) (k : A -> M B) :
  (forall w, I (trace w) ->
             match m w with
             | (Ret a, w') => J a (trace w')
             | (_, w') => I (trace w')
             end) ->
  (forall a, leads (J a) K (k a)) -> leads I K (bind m k).
Proof.
  intros Hm Hk w H. unfold bind. specialize (Hm w H).
  destruct (m w) as [[a|e| |] w']; cbn in *; auto. now apply Hk.
Qed.

(** Sequencing after a dynamic operation: its result is known. *)
Lemma leads_bind_lift (r : exn + A) (k : A -> M B) :
  (forall a, r = inr a -> leads I K (k a)) -> leads I K (bind (lift r) k).
Proof.
  intros Hk. destruct r as [e|a]; intros w H; [now apply HIK|].
  exact (Hk a eq_refl w H).
Qed.

(** Sequencing, looking at the world in which the step runs. *)
Lemma leads_bind_world (m : M A) (k : A -> M B) :
  (forall w, I (trace w) ->
             match m w with
             | (Ret a, w') => K (trace (snd (k a w')))
             | (_, w') => K (trace w')
             end) ->
  leads I K (bind m k).
Proof.
  intros Hm w H. unfold bind. specialize (Hm w H).
  destruct (m w) as [[a|e| |] w']; exact Hm.
Qed.
End Leads.

Lemma leads_try {A} (I K : list event -> Prop) (body : M A) (handler : exn -> M A) :
  leads I K body -> (forall e, preserves K (handler e)) ->
  leads I K (try_except body handler).
Proof.
  intros Hm Hk w H. unfold try_except. specialize (Hm w H).
  destruct (body w) as [[a|e| |] w']; cbn in *; auto. now apply Hk.
Qed.

(** The request is no download. *)
Ltac not_a_download :=
  cbn [calm]; try exact I; try reflexivity;
  unfold view_url, stem_url, ComfyUI.history_request, UVR5.result_request;
  let H := fresh "H" in
  intros H;
  first [ apply append_cancel in H; cbn in H; discriminate H
        | destruct H as [? H]; apply append_cancel in H; cbn in H; discriminate H ].

(** Stepping through a program whose events, since some moment, are all
    of one kind; [side] shows that an event is of that kind. *)
Ltac since_step side :=
  first
    [ apply since_logger; side
    | apply since_sleep; side
    | apply since_http; intros ? ? ?; side
    | apply since_mkdir; side
    | apply since_open_wb; side
    | apply since_write; side
    | kept_step ].

Ltac calmly := repeat (since_step not_a_download).

(** *** ComfyUI: downloads come after the wait *)

Section ComfyStages.
Variable env : Env.
Variable COMFYUI_BASE_URL : string.
Variable COMFYUI_WORKFLOW_PATH : string.
Variable disk : bool.

#[local] Abbreviation base := (ComfyUIServer.base_url COMFYUI_BASE_URL).
#[local] Abbreviation calm_event := (calm (view_url base) disk).

Lemma check_health_calm (tr1 : list event) :
  preserves (since calm_event tr1) (ComfyUI.check_health env base).
Proof. unfold ComfyUI.check_health. calmly. Qed.

Lemma load_workflow_calm (tr1 : list event) (p : string) :
  preserves (since calm_event tr1) (ComfyUI.load_workflow env p).
Proof. unfold ComfyUI.load_workflow. calmly. Qed.

Lemma inject_text_calm (tr1 : list event) (p : string) (workflow : json) :
  preserves (since calm_event tr1) (ComfyUIServer.inject_text p workflow).
Proof.
  unfold ComfyUIServer.inject_text. calmly. apply inject_items_kept; intros; calmly.
Qed.

Lemma inject_params_calm (tr1 : list event) (params : list (string * json))
      (workflow : json) :
  preserves (since calm_event tr1) (ComfyUIServer.inject_params params workflow).
Proof. apply inject_params_kept; intros; calmly. Qed.

(** The wait loop fetches nothing and leaves the file system alone. *)
Lemma wait_for_completion_calm (tr1 : list event) (fuel : nat) (prompt_id : json)
      (T P : Z) :
  preserves (since calm_event tr1)
            (ComfyUI.wait_for_completion env base fuel prompt_id T P).
Proof.
  unfold ComfyUI.wait_for_completion.
  apply preserves_bind; [apply preserves_time|intros start].
  induction fuel as [|fuel IH]; cbn [ComfyUI.wait_loop];
    apply preserves_world_if;
    unfold ComfyUI.poll_once, ComfyUI.get_history; calmly.
Qed.

(** What [queue_prompt] returns is the token of an accepted submission,
    which is then in the trace. *)
Lemma queue_prompt_submits (tr0 : list event) (workflow : json) (w : World) :
  since calm_event tr0 (trace w) ->
  match ComfyUI.queue_prompt env base workflow None w with
  | (Ret prompt_id, w') =>
      since_with calm_event (submitted base prompt_id) tr0 (trace w')
  | (_, w') => since calm_event tr0 (trace w')
  end.
Proof.
  intros H.
  unfold ComfyUI.queue_prompt, http, fresh_uuid, raise_for_status. run.
  destruct (serve env _ _ _) as [e|r] eqn:Hrp; run.
  { repeat (apply since_cons; [exact I|]). exact H. }
  destruct (is_success r) eqn:Hok; run.
  2:{ repeat (apply since_cons; [exact I|]). exact H. }
  destruct (json_body r) as [e|j] eqn:Hbody; run.
  { repeat (apply since_cons; [exact I|]). exact H. }
  destruct (py_get j "prompt_id" JNull) as [e|v] eqn:Hget; run.
  { repeat (apply since_cons; [exact I|]). exact H. }
  destruct (truthy v) eqn:Hv; run.
  2:{ repeat (apply since_cons; [exact I|]). exact H. }
  destruct H as (evs & -> & Hevs).
  eexists (_ :: _ :: evs). split; [reflexivity|]. split.
  - constructor; [exact I|]. constructor; [exact I|exact Hevs].
  - do 4 eexists. split; [right; left; reflexivity|].
    split; [exact Hok|]. unfold token_of. now rewrite Hbody, Hget, Hv.
Qed.

(** After the wait, the requests are for the job that was waited for. *)
Lemma save_all_for_prompt (tr1 : list event) (prompt_id : json)
      (output_path : string) (output_files : list ComfyUI.descriptor) :
  preserves (since (for_prompt base prompt_id) tr1)
            (ComfyUIServer.save_all env COMFYUI_BASE_URL output_path output_files).
Proof.
  induction output_files as [|file_info rest IH]; cbn [ComfyUIServer.save_all];
    unfold ComfyUIServer.save_one, ComfyUI.download_file;
    repeat (since_step ltac:(cbn [for_prompt];
                             first [exact I | right; eexists; reflexivity])).
Qed.

Lemma get_output_files_for_prompt (tr1 : list event) (prompt_id : json) :
  preserves (since (for_prompt base prompt_id) tr1)
            (ComfyUI.get_output_files env base prompt_id).
Proof.
  unfold ComfyUI.get_output_files, ComfyUI.get_history.
  repeat (since_step ltac:(cbn [for_prompt]; first [exact I | left; reflexivity])).
Qed.

(** Every run of [execute_workflow] either made calm events only, or
    got past a wait that returned [True] for the job it had submitted. *)
Lemma execute_workflow_staged (tr0 : list event) (fuel : nat)
      (workflow_path prompt_text : option string) (output_directory : string)
      (max_wait : Z) (workflow_params : option string) :
  leads (since calm_event tr0)
        (fun tr => since calm_event tr0 tr \/
                   after_wait env base fuel max_wait disk tr0 tr)
        (ComfyUIServer.execute_workflow env COMFYUI_BASE_URL COMFYUI_WORKFLOW_PATH
           fuel workflow_path prompt_text output_directory max_wait workflow_params).
Proof.
  set (K := fun tr => _ \/ _).
  assert (HK : forall tr, since calm_event tr0 tr -> K tr)
    by (intros tr H; left; exact H).
  assert (HKlog : forall lvl msg, preserves K (logger lvl msg)).
  { intros lvl msg w [H|H]; [left; now apply since_logger|right].
    destruct H as (pid & w1 & w2 & pre & during & post
                   & H1 & Hs & Hw & H2 & Hc & Htr & Hp).
    exists pid, w1, w2, pre, during, (EvLog lvl msg :: post).
    cbn [logger emit snd trace]. rewrite Htr.
    repeat (split; [assumption|]). split; [reflexivity|].
    constructor; [exact I|exact Hp]. }
  unfold ComfyUIServer.execute_workflow.
  apply leads_bind; [exact HK|apply check_health_calm|intros healthy].
  destruct (negb healthy); [apply leads_kept; [exact HK|apply preserves_ret]|].
  cbv zeta.
  destruct (_ =? EmptyString)%string;
    [apply leads_kept; [exact HK|apply preserves_ret]|].
  apply leads_try; [|intros e; kept].
  apply leads_bind; [exact HK|apply load_workflow_calm|intros wf1].
  apply leads_bind;
    [exact HK
    |destruct (ComfyUIServer.is_given prompt_text);
     [apply inject_text_calm|apply preserves_ret]
    |intros wf2].
  apply leads_bind;
    [exact HK
    |destruct (ComfyUIServer.is_given workflow_params);
     [calmly; apply inject_params_calm|apply preserves_ret]
    |intros wf3].
  apply leads_bind_post
    with (J := fun prompt_id => since_with calm_event (submitted base prompt_id) tr0);
    [exact HK|apply queue_prompt_submits|intros prompt_id].
  assert (Hgrows : forall e evs, submitted base prompt_id evs ->
                                 submitted base prompt_id (e :: evs)).
  { intros e evs (payload & r & s & t & Hin & Hr).
    exists payload, r, s, t. split; [now right|exact Hr]. }
  apply leads_bind;
    [intros tr H; left; exact (since_with_since _ _ _ _ H)
    |apply since_with_kept; [exact Hgrows|intros tr1; calmly]
    |intros _].
  apply leads_bind_world. intros w1 (pre & Hpre & Hcalm & Hsub).
  pose proof (wait_for_completion_calm (trace w1) fuel prompt_id max_wait 2 w1
                (since_refl _ _)) as (during & Hduring & Hquiet).
  destruct (ComfyUI.wait_for_completion env base fuel prompt_id max_wait 2 w1)
    as [[completed|e| |] w2] eqn:Hwait; cbn [snd] in Hduring.
  2-4: left; exists (during ++ pre)%list; rewrite Hduring, Hpre, app_assoc;
       split; [reflexivity|apply Forall_app; auto].
  destruct completed; cbn [negb].
  2:{ left. exists (during ++ pre)%list. cbn [ret snd]. rewrite Hduring, Hpre, app_assoc.
      split; [reflexivity|apply Forall_app; auto]. }
  right.
  lazymatch goal with
  | |- after_wait _ _ _ _ _ _ (trace (snd (?m w2))) =>
      assert (Hpost : preserves (since (for_prompt base prompt_id) (trace w2)) m)
  end.
  { apply preserves_bind; [apply get_output_files_for_prompt|intros files].
    destruct files; [apply preserves_ret|].
    apply preserves_bind; [now apply since_mkdir|intros _].
    apply preserves_bind; [apply save_all_for_prompt|intros saved].
    destruct saved; apply preserves_ret. }
  destruct (Hpost w2 (since_refl _ _)) as (post & Hfinal & Hfor).
  exists prompt_id, w1, w2, pre, during, post.
  repeat (split; [assumption|]). split; [apply Forall_app; auto|].
  split; assumption.
Qed.

End ComfyStages.

(** *** UVR5: downloads come after the completed result *)

Section UVR5Stages.
Variable env : Env.
Variable UVR5_BASE_URL : string.

#[local] Abbreviation base := (UVR5Server.base_url UVR5_BASE_URL).
#[local] Abbreviation calm_event := (calm (stem_url base) false).

(** The upload that gave [result] is among the events. *)
#[local] Abbreviation gave result :=
  (fun evs : list event =>
     exists audio_file data r s t,
       In (EvRequest (POST_files (base ++ "/api/separate") audio_file data)
                     (Reply r) s t) evs /\
       is_success r = true /\ json_body r = inr result).

Lemma upload_gives (tr0 : list event)
      (audio_file model_name output_format stem_naming : string) (w : World) :
  since calm_event tr0 (trace w) ->
  match UVR5.separate_audio env base audio_file model_name output_format stem_naming w with
  | (Ret result, w') => since_with calm_event (gave result) tr0 (trace w')
  | (_, w') => since calm_event tr0 (trace w')
  end.
Proof.
  intros H. unfold UVR5.separate_audio, http, raise_for_status. run.
  destruct (serve env _ _ _) as [e|r] eqn:Hrp; run.
  { repeat (apply since_cons; [exact I|]). exact H. }
  destruct (is_success r) eqn:Hok; run.
  2:{ repeat (apply since_cons; [exact I|]). exact H. }
  destruct (json_body r) as [e|j] eqn:Hbody; run.
  { repeat (apply since_cons; [exact I|]). exact H. }
  destruct H as (evs & -> & Hevs).
  eexists (_ :: evs). split; [reflexivity|]. split.
  - constructor; [exact I|exact Hevs].
  - do 5 eexists. split; [left; reflexivity|]. auto.
Qed.

(** Asking for the result is no download. *)
Lemma get_separation_result_calm (tr1 : list event) (job_id : json) :
  preserves (since calm_event tr1) (UVR5.get_separation_result env base job_id).
Proof. unfold UVR5.get_separation_result. calmly. Qed.

(** Without a job token the stems come with the result: nothing is
    fetched. *)
Lemma save_stems_immediate (tr1 : list event) (job_id job_result : json)
      (audio_file_path model_name output_directory output_format : string)
      (extract_vocals extract_instrumental : bool) :
  truthy job_id = false ->
  preserves (since calm_event tr1)
            (UVR5Server.save_stems env UVR5_BASE_URL job_id job_result audio_file_path
               model_name output_directory output_format
               extract_vocals extract_instrumental).
Proof.
  intros Hid. unfold UVR5Server.save_stems, UVR5Server.save_stem. rewrite Hid. calmly.
Qed.

(** With a job token, what is fetched are stems of that job. *)
Lemma save_stems_for_job (tr1 : list event) (job_id job_result : json)
      (audio_file_path model_name output_directory output_format : string)
      (extract_vocals extract_instrumental : bool) :
  preserves (since (for_job base job_id) tr1)
            (UVR5Server.save_stems env UVR5_BASE_URL job_id job_result audio_file_path
               model_name output_directory output_format
               extract_vocals extract_instrumental).
Proof.
  unfold UVR5Server.save_stems, UVR5Server.save_stem, UVR5.download_stem.
  repeat (since_step ltac:(cbn [for_job]; first [exact I | eexists; reflexivity])).
Qed.

(** Every run of [separate_audio] either fetched nothing, or got past a
    poll that found the job it had uploaded completed. *)
Lemma separate_audio_staged (tr0 : list event)
      (audio_file_path model_name output_directory output_format : string)
      (extract_vocals extract_instrumental : bool) :
  leads (since calm_event tr0)
        (fun tr => since calm_event tr0 tr \/ after_result env base tr0 tr)
        (UVR5Server.separate_audio env UVR5_BASE_URL audio_file_path model_name
           output_directory output_format extract_vocals extract_instrumental).
Proof.
  set (K := fun tr => _ \/ _).
  assert (HK : forall tr, since calm_event tr0 tr -> K tr)
    by (intros tr H; left; exact H).
  assert (HKlog : forall lvl msg, preserves K (logger lvl msg)).
  { intros lvl msg w [H|H]; [left; now apply since_logger|right].
    destruct H as (job_id & job_result & w1 & w2 & pre & during & post
                   & H1 & Hs & Hw & Hst & H2 & Hc & Htr & Hp).
    exists job_id, job_result, w1, w2, pre, during, (EvLog lvl msg :: post).
    cbn [logger emit snd trace]. rewrite Htr.
    repeat (split; [assumption|]). split; [reflexivity|].
    constructor; [exact I|exact Hp]. }
  unfold UVR5Server.separate_audio.
  apply leads_bind; [exact HK|unfold UVR5.check_health; calmly|intros healthy].
  destruct (negb healthy); [apply leads_kept; [exact HK|apply preserves_ret]|].
  apply leads_try; [|intros e; kept].
  destruct (negb (exists_file env audio_file_path));
    [apply leads_kept; [exact HK|apply preserves_ret]|].
  apply leads_bind; [exact HK|apply preserves_lift|intros audio_file].
  apply leads_bind_post
    with (J := fun result => since_with calm_event (gave result) tr0);
    [exact HK|apply upload_gives|intros result].
  assert (Hgrows : forall e evs, gave result evs -> gave result (e :: evs)).
  { intros e evs (f & d & r & s & t & Hin & Hr).
    exists f, d, r, s, t. split; [now right|exact Hr]. }
  assert (HJK : forall tr, since_with calm_event (gave result) tr0 tr -> K tr)
    by (intros tr H; left; exact (since_with_since _ _ _ _ H)).
  apply leads_bind_lift; [exact HJK|intros job_id Hjob].
  destruct (truthy job_id) eqn:Hid.
  2:{ apply leads_kept; [exact HJK|].
      apply since_with_kept; [exact Hgrows|intros tr1].
      now apply save_stems_immediate. }
  apply leads_bind;
    [exact HJK|apply since_with_kept; [exact Hgrows|intros tr1; calmly]|intros _].
  apply leads_bind_world. intros w1 (pre & Hpre & Hcalm & Hgave).
  pose proof (get_separation_result_calm (trace w1) job_id w1 (since_refl _ _))
    as (during & Hduring & Hquiet).
  assert (Hall : Forall calm_event (during ++ pre)) by (apply Forall_app; auto).
  destruct (UVR5.get_separation_result env base job_id w1)
    as [[job_result|e| |] w2] eqn:Hres; cbn [snd] in Hduring.
  2-4: left; exists (during ++ pre)%list; rewrite Hduring, Hpre, app_assoc; auto.
  destruct (py_get job_result "status" JNull) as [e|status] eqn:Hstatus; run; cbn [snd].
  { left. exists (during ++ pre)%list. rewrite Hduring, Hpre, app_assoc. auto. }
  destruct (py_eq status (JStr "completed")) eqn:Heq; cbn [snd].
  2:{ left. exists (during ++ pre)%list. rewrite Hduring, Hpre, app_assoc. auto. }
  right.
  destruct (save_stems_for_job (trace w2) job_id job_result audio_file_path model_name
              output_directory output_format extract_vocals extract_instrumental
              w2 (since_refl _ _)) as (post & Hfinal & Hfor).
  destruct Hgave as (f & d & r & s & t & Hin & Hok & Hbody).
  exists job_id, job_result, w1, w2, pre, during, post.
  split; [exact Hpre|]. split; [exists f, d, r, result, s, t; auto|].
  split; [exact Hres|].
  split; [unfold status_completed; now rewrite Hstatus|].
  repeat (split; [assumption|]). exact Hfor.
Qed.

End UVR5Stages.
(** [get_output_files] on a history that does not show the completed
    record: no descriptor. *)
Lemma no_outputs_no_descriptors (env : Env) (base_url : string) (prompt_id : json)
      (w : World) :
  shows_success prompt_id
    (serve env (count w) (now w + Z.max 0 (delay env (count w)))
           (ComfyUI.history_request base_url prompt_id)) = false ->
  exists w', ComfyUI.get_output_files env base_url prompt_id w = (Ret [], w').
Proof.
  intros Hno.
  destruct (get_history_run env base_url prompt_id w) as (logs & _ & _ & Hrun).
  cbv zeta in Hrun. unfold ComfyUI.get_output_files, try_except, bind at 1.
  rewrite Hrun. unfold shows_success, ComfyUI.completed in Hno.
  destruct (py_in prompt_id (history_of _)) as [e|[|]]; run;
    try (eexists; reflexivity).
  destruct (py_getitem (history_of _) prompt_id) as [e|record]; run;
    try (eexists; reflexivity).
  destruct record as [| | | | |fields]; cbn [py_get]; run;
    try (eexists; reflexivity).
  cbn [py_in] in Hno. unfold dict_mem in Hno.
  destruct (dict_lookup "outputs" fields); [discriminate|]. run.
  eexists; reflexivity.
Qed.

(** A server that never shows the record is waited for in vain. *)
Lemma never_shown_never_completes (env : Env) (base_url : string) (prompt_id : json)
      (fuel : nat) (max_wait : Z) (w w' : World) :
  (forall n t, shows_success prompt_id
                 (serve env n t (ComfyUI.history_request base_url prompt_id)) = false) ->
  ComfyUI.wait_for_completion env base_url fuel prompt_id max_wait 2 w <> (Ret true, w').
Proof.
  intros Hno. unfold ComfyUI.wait_for_completion, bind, time_time.
  generalize (now w) as start. revert w.
  induction fuel as [|fuel IH]; intros w start; cbn [ComfyUI.wait_loop];
    destruct (now w - start <? max_wait); try (run; discriminate).
  unfold bind at 1.
  destruct (poll_once_run env base_url prompt_id 2 w ltac:(lia)) as (logs & _ & Hrun).
  cbv zeta in Hrun. rewrite Hrun, Hno. apply IH.
Qed.

(** C4.  Every run of [execute_workflow] has one of two shapes.  Either
    nothing it did fetched artifact bytes (no GET of [/view]); or it got
    to the point where [wait_for_completion], called for the token its
    own submission was answered with, returned [True], nothing before
    that point fetched artifact bytes, and the requests after it are the
    history read of that job and its downloads.  Every run of
    [separate_audio] likewise either fetched no stem, or got to the
    point where [get_separation_result], called for the token its own
    upload was answered with, returned a result with status "completed",
    nothing before that point fetched a stem, and every request after it
    is the download of a stem of that job.  And [get_output_files]
    returns no descriptor when the history it reads does not show a
    record with an "outputs" section. *)
Theorem downloads_after_completion (env : Env) (base_url : string) (w : World) :
  (forall workflow_path_default fuel workflow_path prompt_text output_directory
          max_wait workflow_params,
      let base := ComfyUIServer.base_url base_url in
      let tr := trace (snd (ComfyUIServer.execute_workflow env base_url
                              workflow_path_default fuel workflow_path prompt_text
                              output_directory max_wait workflow_params w)) in
      since (calm (view_url base) false) (trace w) tr \/
      after_wait env base fuel max_wait false (trace w) tr) /\
  (forall audio_file_path model_name output_directory output_format
          extract_vocals extract_instrumental,
      let base := UVR5Server.base_url base_url in
      let tr := trace (snd (UVR5Server.separate_audio env base_url audio_file_path
                              model_name output_directory output_format
                              extract_vocals extract_instrumental w)) in
      since (calm (stem_url base) false) (trace w) tr \/
      after_result env base (trace w) tr) /\
  (forall prompt_id,
      shows_success prompt_id
        (serve env (count w) (now w + Z.max 0 (delay env (count w)))
               (ComfyUI.history_request base_url prompt_id)) = false ->
      exists w', ComfyUI.get_output_files env base_url prompt_id w = (Ret [], w')).
Proof.
  split; [|split].
  - intros wfd fuel wp pt out mw params base tr.
    apply (execute_workflow_staged env base_url wfd false (trace w) fuel wp pt out mw
             params w).
    apply since_refl.
  - intros p m out fmt ev ei base tr.
    apply (separate_audio_staged env base_url (trace w) p m out fmt ev ei w).
    apply since_refl.
  - intros prompt_id. apply no_outputs_no_descriptors.
Qed.

(** The two shapes leave no room for a download that nothing backs: a
    trace that starts with a GET of [/view] has neither, when the server
    never shows the record. *)
Example unbacked_download_has_no_shape (fuel : nat) (max_wait : Z) :
  let tr := [EvRequest (GET "http://comfy/view" []) (Reply empty_history) 0 0] in
  ~ (since (calm (view_url "http://comfy") false) [] tr \/
     after_wait unreachable_backend "http://comfy" fuel max_wait false [] tr).
Proof.
  intros tr [(evs & Heq & Hall)|H].
  - rewrite app_nil_r in Heq. subst evs. inversion Hall as [|e l He Hl]; subst.
    apply He. reflexivity.
  - destruct H as (pid & w1 & w2 & pre & during & post & _ & _ & Hwait & _).
    revert Hwait. apply never_shown_never_completes. intros n t.
    destruct pid; reflexivity.
Qed.

Example execute_workflow_studio :
  fst (ComfyUIServer.execute_workflow studio "http://comfy/" "/wf/music.json" 200
         None (Some "rain on a tin roof") "/out" 300 None world0)
  = Ret (mkText ("Workflow completed successfully!" ++ newline ++ newline
                 ++ "Generated files:" ++ newline ++ "/out/out.wav"))
  /\ writes (trace (snd (ComfyUIServer.execute_workflow studio "http://comfy/"
                           "/wf/music.json" 200 None (Some "rain on a tin roof")
                           "/out" 300 None world0)))
     = ["/out/out.wav"].
Proof. vm_compute. split; reflexivity. Qed.

Example separate_audio_studio :
  fst (UVR5Server.separate_audio stem_studio "http://uvr5" "/music/song.mp3"
         "UVR-MDX-NET-Inst_HQ_3" "/stems" "wav" true true world0)
  = Ret (mkText ("Audio separation completed!" ++ newline ++ newline
                 ++ "Separated stems:" ++ newline
                 ++ "/stems/song_vocals.wav" ++ newline
                 ++ "/stems/song_instrumental.wav"
                 ++ newline ++ newline ++ "Model: UVR-MDX-NET-Inst_HQ_3")).
Proof. vm_compute. reflexivity. Qed.

(** C4 at work: a full run against each sample server, starting from an
    empty trace, and a history without the record. *)
Lemma downloads_after_completion_witness :
  (let tr := trace (snd (ComfyUIServer.execute_workflow studio "http://comfy/"
                           "/wf/music.json" 200 None (Some "rain on a tin roof")
                           "/out" 300 None world0)) in
   since (calm (view_url "http://comfy") false) [] tr \/
   after_wait studio "http://comfy" 200 300 false [] tr) /\
  (let tr := trace (snd (UVR5Server.separate_audio stem_studio "http://uvr5"
                           "/music/song.mp3" "UVR-MDX-NET-Inst_HQ_3" "/stems" "wav"
                           true true world0)) in
   since (calm (stem_url "http://uvr5") false) [] tr \/
   after_result stem_studio "http://uvr5" [] tr) /\
  exists w', ComfyUI.get_output_files (late_backend 0 5) "http://comfy"
                                      (JStr "job-1") world0 = (Ret [], w').
Proof.
  split; [|split].
  - destruct (downloads_after_completion studio "http://comfy/" world0) as (H & _ & _).
    exact (H "/wf/music.json" 200%nat None (Some "rain on a tin roof") "/out" 300 None).
  - destruct (downloads_after_completion stem_studio "http://uvr5" world0)
      as (_ & H & _).
    exact (H "/music/song.mp3" "UVR-MDX-NET-Inst_HQ_3" "/stems" "wav" true true).
  - destruct (downloads_after_completion (late_backend 0 5) "http://comfy" world0)
      as (_ & _ & H).
    apply H. reflexivity.
Defined.

(* ===================================================================== *)
(** ** File names *)
(* ===================================================================== *)

Section FileNames.
Import LocalAIUtils.

Lemma digit_inj (a b : nat) : digit a = digit b -> (a mod 10 = b mod 10)%nat.
Proof.
  unfold digit. intros H.
  pose proof (Nat.mod_upper_bound a 10 ltac:(lia)).
  pose proof (Nat.mod_upper_bound b 10 ltac:(lia)).
  apply (f_equal nat_of_ascii) in H.
  rewrite !nat_ascii_embedding in H by lia. lia.
Qed.

Lemma two_digits_eq (a b : nat) :
  (a < 100 -> b < 100 ->
   (a / 10) mod 10 = (b / 10) mod 10 -> a mod 10 = b mod 10 -> a = b)%nat.
Proof.
  intros.
  pose proof (Nat.div_mod_eq a 10). pose proof (Nat.div_mod_eq b 10).
  pose proof (Nat.div_mod_eq (a / 10) 10). pose proof (Nat.div_mod_eq (b / 10) 10).
  assert (a / 10 / 10 = 0)%nat
    by (rewrite Nat.Div0.div_div; apply Nat.div_small; lia).
  assert (b / 10 / 10 = 0)%nat
    by (rewrite Nat.Div0.div_div; apply Nat.div_small; lia).
  lia.
Qed.

Lemma four_digits_eq (a b : nat) :
  (a < 100 * 100 -> b < 100 * 100 ->
   (a / 1000) mod 10 = (b / 1000) mod 10 -> (a / 100) mod 10 = (b / 100) mod 10 ->
   (a / 10) mod 10 = (b / 10) mod 10 -> a mod 10 = b mod 10 -> a = b)%nat.
Proof.
  intros.
  pose proof (Nat.div_mod_eq a 10). pose proof (Nat.div_mod_eq b 10).
  pose proof (Nat.div_mod_eq (a / 10) 10). pose proof (Nat.div_mod_eq (b / 10) 10).
  pose proof (Nat.div_mod_eq (a / 100) 10). pose proof (Nat.div_mod_eq (b / 100) 10).
  pose proof (Nat.div_mod_eq (a / 1000) 10). pose proof (Nat.div_mod_eq (b / 1000) 10).
  assert (a / 10 / 10 = a / 100)%nat by (rewrite Nat.Div0.div_div; reflexivity).
  assert (a / 100 / 10 = a / 1000)%nat by (rewrite !Nat.Div0.div_div; reflexivity).
  assert (b / 10 / 10 = b / 100)%nat by (rewrite Nat.Div0.div_div; reflexivity).
  assert (b / 100 / 10 = b / 1000)%nat by (rewrite !Nat.Div0.div_div; reflexivity).
  assert (a / 1000 / 10 = 0)%nat
    by (rewrite Nat.Div0.div_div; apply Nat.div_small; lia).
  assert (b / 1000 / 10 = 0)%nat
    by (rewrite Nat.Div0.div_div; apply Nat.div_small; lia).
  lia.
Qed.

Lemma strftime_app (t : datetime) (rest : string) :
  strftime t ++ rest
  = String (digit (year t / 1000)) (String (digit (year t / 100))
      (String (digit (year t / 10)) (String (digit (year t))
      (String (digit (month t / 10)) (String (digit (month t))
      (String (digit (day t / 10)) (String (digit (day t))
      (String "_"
      (String (digit (hour t / 10)) (String (digit (hour t))
      (String (digit (minute t / 10)) (String (digit (minute t))
      (String (digit (second t / 10)) (String (digit (second t)) rest)))))))))))))).
Proof. reflexivity. Qed.

(** The timestamp tells two readings apart unless they fall in the same
    second. *)
Lemma strftime_inj (a b : datetime) :
  valid_datetime a -> valid_datetime b ->
  forall rest, strftime a ++ rest = strftime b ++ rest -> same_second a b.
Proof.
  intros Ha Hb rest H. unfold valid_datetime, same_second in *.
  rewrite !strftime_app in H.
  injection H as Y1 Y2 Y3 Y4 M1 M2 D1 D2 h1 h2 m1 m2 s1 s2.
  apply digit_inj in Y1, Y2, Y3, Y4, M1, M2, D1, D2, h1, h2, m1, m2, s1, s2.
  repeat split;
    first [apply four_digits_eq; (assumption || lia)
          |apply two_digits_eq; (assumption || lia)].
Qed.

(** C3, as the code has it.  Two calls of [make_output_file] with the
    same prefix, content, directory and extension give different file
    names whenever the clock readings they take are not within the same
    second. *)
Theorem distinct_seconds_distinct_names (t1 t2 : datetime)
        (prefix content output_path extension : string) :
  valid_datetime t1 -> valid_datetime t2 ->
  ~ same_second t1 t2 ->
  make_output_file t1 prefix content output_path extension
  <> make_output_file t2 prefix content output_path extension.
Proof.
  intros H1 H2 Hdiff E. apply Hdiff. unfold make_output_file in E.
  destruct (negb (safe_content content =? EmptyString)%string).
  - do 4 apply append_cancel in E. exact (strftime_inj t1 t2 H1 H2 _ E).
  - do 2 apply append_cancel in E. exact (strftime_inj t1 t2 H1 H2 _ E).
Qed.

End FileNames.

(** C3 as stated fails.  Two calls of [make_output_file] at different
    instants of the same second give the same name; and running
    [separate_audio] again on the same song writes the same two paths
    again. *)
Lemma same_request_same_filename :
  LocalAIUtils.mkDatetime 2024 3 7 9 5 30 100 <> LocalAIUtils.mkDatetime 2024 3 7 9 5 30 900
  /\ LocalAIUtils.make_output_file (LocalAIUtils.mkDatetime 2024 3 7 9 5 30 100)
       "localai_tts" "Hello, World!" "/out" "mp3"
     = LocalAIUtils.make_output_file (LocalAIUtils.mkDatetime 2024 3 7 9 5 30 900)
         "localai_tts" "Hello, World!" "/out" "mp3"
  /\ (let run := UVR5Server.separate_audio stem_studio "http://uvr5" "/music/song.mp3"
                   "UVR-MDX-NET-Inst_HQ_3" "/stems" "wav" true true in
      let after_first := snd (run world0) in
      let after_second := snd (run after_first) in
      now after_first < now after_second /\
      writes (trace after_second)
      = ["/stems/song_instrumental.wav"; "/stems/song_vocals.wav";
         "/stems/song_instrumental.wav"; "/stems/song_vocals.wav"]).
Proof.
  split; [discriminate|]. split; [reflexivity|].
  vm_compute. split; reflexivity.
Qed.

(** C3 at work: one second apart. *)
Lemma distinct_seconds_distinct_names_witness :
  LocalAIUtils.make_output_file (LocalAIUtils.mkDatetime 2024 3 7 9 5 30 100)
    "localai_tts" "Hello, World!" "/out" "mp3"
  <> LocalAIUtils.make_output_file (LocalAIUtils.mkDatetime 2024 3 7 9 5 31 100)
       "localai_tts" "Hello, World!" "/out" "mp3".
Proof.
  apply distinct_seconds_distinct_names.
  - unfold valid_datetime. cbn. lia.
  - unfold valid_datetime. cbn. lia.
  - unfold same_second. cbn. lia.
Defined.

Section SafeNames.
Import LocalAIUtils.

Lemma all_chars_filter (P : ascii -> bool) (s : string) :
  all_chars P (filter_string P s) = true.
Proof.
  induction s as [|c s IH]; [reflexivity|]. cbn [filter_string].
  destruct (P c) eqn:Hc; [cbn; now rewrite Hc|exact IH].
Qed.

Lemma all_chars_take (P : ascii -> bool) (n : nat) (s : string) :
  all_chars P s = true -> all_chars P (take n s) = true.
Proof.
  unfold take. revert n. induction s as [|c s IH]; intros [|n] H; try reflexivity.
  cbn in *. apply andb_prop in H as [Hc Hs]. rewrite Hc. now apply IH.
Qed.

Lemma length_take (n : nat) (s : string) : (String.length (take n s) <= n)%nat.
Proof.
  unfold take. revert n. induction s as [|c s IH]; intros [|n]; cbn; try lia.
  specialize (IH n). lia.
Qed.

Lemma underscore_is_word : is_word "_" = true.
Proof. reflexivity. Qed.

(** After the run-collapsing substitution only word characters are
    left: what was a hyphen or whitespace is now an underscore. *)
Lemma all_chars_collapse (s : string) :
  all_chars (fun c => is_word c || is_space c || is_hyphen c) s = true ->
  all_chars is_word (collapse s) = true.
Proof.
  induction s as [|c s IH]; [reflexivity|].
  cbn [all_chars collapse]. intros [Hc Hs]%andb_prop. specialize (IH Hs).
  destruct (is_hyphen c || is_space c) eqn:Hsep.
  - destruct s as [|c' s']; [reflexivity|].
    destruct (is_hyphen c' || is_space c'); [exact IH|].
    cbn [all_chars]. now rewrite underscore_is_word.
  - cbn [all_chars]. rewrite IH, andb_true_r.
    apply orb_false_elim in Hsep as [Hh Hsp]. rewrite Hh, Hsp in Hc.
    now rewrite !orb_false_r in Hc.
Qed.

Lemma length_collapse (s : string) : (String.length (collapse s) <= String.length s)%nat.
Proof.
  induction s as [|c s IH]; [reflexivity|]. cbn [collapse].
  destruct (is_hyphen c || is_space c).
  - destruct s as [|c' s']; [cbn; lia|].
    destruct (is_hyphen c' || is_space c'); cbn in *; lia.
  - cbn. lia.
Qed.

Lemma all_chars_lstrip (P : ascii -> bool) (s : string) :
  all_chars P s = true -> all_chars P (lstrip_underscore s) = true.
Proof.
  induction s as [|c s IH]; [reflexivity|]. cbn [lstrip_underscore].
  intros H. destruct (Ascii.eqb c "_"); [|exact H].
  cbn in H. apply andb_prop in H as [_ H]. now apply IH.
Qed.

Lemma length_lstrip (s : string) :
  (String.length (lstrip_underscore s) <= String.length s)%nat.
Proof.
  induction s as [|c s IH]; [reflexivity|]. cbn [lstrip_underscore].
  destruct (Ascii.eqb c "_"); cbn in *; lia.
Qed.

Lemma all_chars_rstrip (P : ascii -> bool) (s : string) :
  all_chars P s = true -> all_chars P (rstrip_underscore s) = true.
Proof.
  induction s as [|c s IH]; [reflexivity|]. cbn [rstrip_underscore all_chars].
  intros [Hc Hs]%andb_prop. specialize (IH Hs).
  destruct (rstrip_underscore s).
  - destruct (Ascii.eqb c "_"); cbn; [reflexivity|now rewrite Hc].
  - cbn [all_chars] in *. now rewrite Hc.
Qed.

Lemma length_rstrip (s : string) :
  (String.length (rstrip_underscore s) <= String.length s)%nat.
Proof.
  induction s as [|c s IH]; [reflexivity|]. cbn [rstrip_underscore].
  destruct (rstrip_underscore s).
  - destruct (Ascii.eqb c "_"); cbn; lia.
  - cbn in *. lia.
Qed.

(** The slug: at most thirty characters, all of them word characters. *)
Lemma safe_content_word (content : string) :
  all_chars is_word (safe_content content) = true /\
  (String.length (safe_content content) <= 30)%nat.
Proof.
  unfold safe_content, strip_underscore, remove_special. split.
  - apply all_chars_rstrip, all_chars_lstrip, all_chars_collapse, all_chars_take,
      all_chars_filter.
  - eapply Nat.le_trans; [apply length_rstrip|].
    eapply Nat.le_trans; [apply length_lstrip|].
    eapply Nat.le_trans; [apply length_collapse|]. apply length_take.
Qed.

Lemma all_chars_excludes (P : ascii -> bool) (c : ascii) (s : string) :
  all_chars P s = true -> P c = false -> contains_char c s = false.
Proof.
  intros Hs Hc. induction s as [|c' s IH]; [reflexivity|].
  cbn in *. apply andb_prop in Hs as [Hc' Hs]. rewrite (IH Hs), orb_false_r.
  destruct (Ascii.eqb_spec c' c) as [->|]; [congruence|reflexivity].
Qed.

Lemma contains_char_app (c : ascii) (a b : string) :
  contains_char c (a ++ b) = contains_char c a || contains_char c b.
Proof.
  induction a as [|c' a IH]; [reflexivity|]. cbn. now rewrite IH, orb_assoc.
Qed.

Lemma digit_is_word (n : nat) : is_word (digit n) = true.
Proof.
  unfold digit. pose proof (Nat.mod_upper_bound n 10 ltac:(lia)) as H.
  destruct (n mod 10)%nat as [|k]; [reflexivity|].
  do 9 (destruct k as [|k]; [reflexivity|]). lia.
Qed.

Lemma append_empty (s : string) : s ++ EmptyString = s.
Proof. induction s as [|c s IH]; cbn; [reflexivity|now rewrite IH]. Qed.

Lemma strftime_word (t : datetime) : all_chars is_word (strftime t) = true.
Proof.
  rewrite <- (append_empty (strftime t)).
  rewrite (strftime_app t EmptyString). cbn [all_chars].
  now rewrite !digit_is_word, underscore_is_word.
Qed.

Lemma split_on_cons (sep : ascii) (s : string) : split_on sep s <> [].
Proof.
  destruct s as [|c s]; cbn; [discriminate|].
  destruct (Ascii.eqb c sep); [discriminate|].
  destruct (split_on sep s); discriminate.
Qed.

Lemma split_on_whole (sep : ascii) (s : string) :
  contains_char sep s = false -> split_on sep s = [s].
Proof.
  induction s as [|c s IH]; [reflexivity|]. cbn.
  intros [Hc Hs]%orb_false_elim. rewrite Hc, (IH Hs). reflexivity.
Qed.

Lemma split_on_app (sep : ascii) (a b : string) :
  split_on sep (a ++ String sep b) = (split_on sep a ++ split_on sep b)%list.
Proof.
  induction a as [|c a IH]; cbn.
  - now rewrite Ascii.eqb_refl.
  - destruct (Ascii.eqb c sep); rewrite IH; [reflexivity|].
    pose proof (split_on_cons sep a).
    destruct (split_on sep a); [contradiction|reflexivity].
Qed.

Lemma prefix_slash (s : string) :
  contains_char "/" s = false -> starts_with "/" s = false.
Proof.
  destruct s as [|c s]; [reflexivity|]. cbn [contains_char starts_with].
  intros [Hc _]%orb_false_elim. now rewrite Ascii.eqb_sym, Hc.
Qed.

(** *** Paths as [pathlib] prints them *)

Lemma split_on_no_sep (sep : ascii) (s : string) :
  Forall (fun c => contains_char sep c = false) (split_on sep s).
Proof.
  induction s as [|c s IH]; cbn [split_on]; [repeat constructor|].
  destruct (Ascii.eqb c sep) eqn:Hc; [constructor; [reflexivity|exact IH]|].
  destruct (split_on sep s) as [|x l]; [repeat constructor; cbn; now rewrite Hc|].
  inversion IH as [|? ? Hx Hl]; subst. constructor; [|exact Hl].
  cbn. now rewrite Hc, Hx.
Qed.

Lemma split_on_concat (sep : ascii) (parts : list string) :
  parts <> [] ->
  Forall (fun c => contains_char sep c = false) parts ->
  split_on sep (String.concat (String sep EmptyString) parts) = parts.
Proof.
  intros Hne Hall. induction Hall as [|x l Hx Hl IH]; [contradiction|].
  destruct l as [|y l].
  - cbn [String.concat]. now apply split_on_whole.
  - change (String.concat (String sep EmptyString) (x :: y :: l))
      with (x ++ String sep (String.concat (String sep EmptyString) (y :: l))).
    rewrite split_on_app, (split_on_whole _ _ Hx), IH by discriminate. reflexivity.
Qed.

(** What [components] keeps are names without a separator, neither empty
    nor [.]; read again, they are themselves. *)
Lemma components_clean (p : string) :
  Forall (fun c => contains_char "/" c = false /\
                   (negb (c =? EmptyString) && negb (c =? "."))%string = true)
         (components p).
Proof.
  unfold components. pose proof (split_on_no_sep "/" p) as H.
  induction H as [|x l Hx Hl IH]; cbn [filter]; [constructor|].
  destruct (negb (x =? EmptyString)%string && negb (x =? ".")%string) eqn:Hk;
    [constructor; auto|exact IH].
Qed.

Lemma components_concat (parts : list string) :
  Forall (fun c => contains_char "/" c = false /\
                   (negb (c =? EmptyString) && negb (c =? "."))%string = true)
         parts ->
  components (String.concat "/" parts) = parts.
Proof.
  intros Hall. destruct parts as [|x l]; [reflexivity|].
  unfold components. rewrite split_on_concat.
  - induction Hall as [|y l' [_ Hy] Hl IH]; [reflexivity|].
    cbn [filter]. rewrite Hy. f_equal. exact IH.
  - discriminate.
  - eapply Forall_impl; [|exact Hall]. now intros c [Hc _].
Qed.

Lemma components_app_sep (a b : string) :
  components (a ++ String "/" b) = (components a ++ components b)%list.
Proof. unfold components. now rewrite split_on_app, filter_app. Qed.

Lemma components_slash (s : string) : components (String "/" s) = components s.
Proof. exact (components_app_sep EmptyString s). Qed.

(** Printing a path and reading it again gives the same components. *)
Lemma components_path_str (p : string) : components (path_str p) = components p.
Proof.
  unfold path_str. pose proof (components_clean p) as Hclean.
  assert (Hroot : path_root p = EmptyString \/ path_root p = "/" \/ path_root p = "//").
  { unfold path_root. destruct (_ && _); [auto|]. destruct (starts_with "/" p); auto. }
  destruct Hroot as [-> | [-> | ->]].
  - destruct (components p) as [|x l] eqn:E; [reflexivity|].
    rewrite <- E in *. now apply components_concat.
  - change ("/" ++ String.concat "/" (components p))
      with (String "/" (String.concat "/" (components p))).
    rewrite components_slash. now apply components_concat.
  - change ("//" ++ String.concat "/" (components p))
      with (String "/" (String "/" (String.concat "/" (components p)))).
    rewrite !components_slash. now apply components_concat.
Qed.

Lemma ends_with_char_app (c : ascii) (s : string) :
  ends_with_char c s = true -> exists d, s = d ++ String c EmptyString.
Proof.
  induction s as [|a s IH]; [discriminate|]. cbn [ends_with_char].
  destruct s as [|b s].
  - intros H%Ascii.eqb_eq. subst. now exists EmptyString.
  - intros H. destruct (IH H) as (d & Hd). exists (String a d). cbn. now rewrite Hd.
Qed.

Lemma append_assoc (a b c : string) : (a ++ b) ++ c = a ++ b ++ c.
Proof. induction a as [|x a IH]; cbn; [reflexivity|now rewrite IH]. Qed.

(** A relative name is put below the directory, whatever separators the
    directory ends with. *)
Lemma components_posix_join (dir name : string) :
  starts_with "/" name = false ->
  components (posix_join dir name) = (components dir ++ components name)%list.
Proof.
  intros Hrel. unfold posix_join. rewrite Hrel.
  destruct (String.eqb_spec dir EmptyString) as [->|_]; [reflexivity|]. cbn [orb].
  destruct (ends_with_char "/" dir) eqn:Hend.
  - destruct (ends_with_char_app _ _ Hend) as (d & ->).
    rewrite append_assoc. cbn [append]. rewrite !components_app_sep.
    cbn [components split_on filter String.eqb negb andb]. now rewrite app_nil_r.
  - apply components_app_sep.
Qed.

Lemma components_path_join (dir name : string) :
  starts_with "/" name = false ->
  components (path_join dir name) = (components dir ++ components name)%list.
Proof.
  intros Hrel. unfold path_join. rewrite components_path_str.
  now apply components_posix_join.
Qed.

(** A name without a separator, neither empty nor [.], is one
    component. *)
Lemma components_plain (name : string) :
  contains_char "/" name = false -> name <> EmptyString -> name <> "." ->
  components name = [name].
Proof.
  intros Hslash Hne Hdot. unfold components. rewrite (split_on_whole _ _ Hslash).
  cbn [filter].
  destruct (String.eqb_spec name EmptyString) as [E|_]; [contradiction|].
  destruct (String.eqb_spec name ".") as [E|_]; [contradiction|]. reflexivity.
Qed.

(** The join on the cases where [pathlib] does more than put a
    separator in between. *)
Example path_join_as_pathlib :
  path_join "/out" "a.wav" = "/out/a.wav" /\
  path_join "/out/" "a.wav" = "/out/a.wav" /\
  path_join EmptyString "a.wav" = "a.wav" /\
  path_join "." "a.wav" = "a.wav" /\
  path_join "/" "a.wav" = "/a.wav" /\
  path_join "/out" "sub//b/./c.wav/" = "/out/sub/b/c.wav" /\
  path_join "/out" "mp3/" = "/out/mp3" /\
  path_join "/out" "/etc/passwd" = "/etc/passwd" /\
  path_join "/out" "../x" = "/out/../x" /\
  path_join "//srv" "x" = "//srv/x" /\
  path_join "///srv" "x" = "/srv/x" /\
  path_join "/out" EmptyString = "/out" /\
  path_join EmptyString EmptyString = ".".
Proof. repeat split; reflexivity. Qed.

(** C10, as the code has it.  The file name is the prefix, the slug (if
    any), the timestamp and the extension, joined by underscores and a
    dot.  The slug has at most thirty characters, all of them word
    characters (letters, digits, underscore): no path separator, no dot.
    When neither the prefix nor the extension holds a path separator,
    the name is a single path component, and the artifact path is the
    output directory followed by that one component. *)
Theorem make_output_file_safe (now : datetime)
        (prefix content output_path extension : string) :
  let slug := safe_content content in
  let name := make_output_file now prefix content output_path extension in
  name = (if (slug =? EmptyString)%string
          then prefix ++ "_" ++ strftime now ++ "." ++ extension
          else prefix ++ "_" ++ slug ++ "_" ++ strftime now ++ "." ++ extension) /\
  (String.length slug <= 30)%nat /\
  all_chars is_word slug = true /\
  contains_char "/" slug = false /\
  contains_char "." slug = false /\
  contains_char backslash slug = false /\
  (contains_char "/" prefix = false ->
   contains_char "/" extension = false ->
   contains_char "/" name = false /\
   components (path_join output_path name) = (components output_path ++ [name])%list).
Proof.
  cbv zeta. destruct (safe_content_word content) as [Hword Hlen].
  assert (Hslash : contains_char "/" (safe_content content) = false)
    by (eapply all_chars_excludes; [exact Hword|reflexivity]).
  split; [|repeat split; auto].
  - unfold make_output_file. now destruct (safe_content content =? EmptyString)%string.
  - eapply all_chars_excludes; [exact Hword|reflexivity].
  - eapply all_chars_excludes; [exact Hword|reflexivity].
  - assert (Hts : contains_char "/" (strftime now) = false)
      by (eapply all_chars_excludes; [apply strftime_word|reflexivity]).
    unfold make_output_file.
    destruct (negb _); rewrite !contains_char_app, ?H, ?H0, ?Hts, ?Hslash; reflexivity.
  - assert (Hts : contains_char "/" (strftime now) = false)
      by (eapply all_chars_excludes; [apply strftime_word|reflexivity]).
    set (name := make_output_file now prefix content output_path extension).
    assert (Hname : contains_char "/" name = false).
    { unfold name, make_output_file.
      destruct (negb _); rewrite !contains_char_app, ?H, ?H0, ?Hts, ?Hslash;
        reflexivity. }
    assert (Hus : contains_char "_" name = true).
    { unfold name, make_output_file.
      destruct (negb _); rewrite !contains_char_app; cbn;
        now rewrite orb_true_r. }
    rewrite (components_path_join _ _ (prefix_slash _ Hname)). f_equal.
    apply components_plain; [exact Hname| |]; intros E; rewrite E in Hus;
      discriminate.
Qed.

End SafeNames.

(** C10 as stated fails twice over.  The slug is cut from the content
    after its special characters are gone, so it can come from beyond the
    first thirty characters; and an extension (or prefix) with path
    separators puts [..] components into the artifact path. *)
Lemma slug_beyond_thirty_and_escape :
  (String.length thirty_bangs = 30%nat /\
   LocalAIUtils.safe_content (thirty_bangs ++ "abc") = "abc" /\
   LocalAIUtils.safe_content (thirty_bangs ++ "xyz") = "xyz") /\
  components (path_join "/out"
                (LocalAIUtils.make_output_file noon "localai_tts" "hi" "/out"
                   "mp3/../../etc/cron.d/job"))
  = ["out"; "localai_tts_hi_20240307_120000.mp3"; ".."; ".."; "etc"; "cron.d"; "job"].
Proof. vm_compute. repeat split; reflexivity. Qed.

(** C10 at work on a hostile content string. *)
Lemma make_output_file_safe_witness :
  contains_char "/"
    (LocalAIUtils.make_output_file noon "localai_tts" "../../etc/passwd -- x" "/out" "mp3")
  = false /\
  components (path_join "/out"
                (LocalAIUtils.make_output_file noon "localai_tts"
                   "../../etc/passwd -- x" "/out" "mp3"))
  = ["out"; "localai_tts_etcpasswd_x_20240307_120000.mp3"].
Proof.
  destruct (make_output_file_safe noon "localai_tts" "../../etc/passwd -- x" "/out" "mp3")
    as (_ & _ & _ & _ & _ & _ & H).
  destruct (H eq_refl eq_refl) as [H1 H2]. split; [exact H1|].
  rewrite H2. reflexivity.
Defined.

(* ===================================================================== *)
(** * Further properties of the adapters *)
(* ===================================================================== *)

(* ===================================================================== *)
(** ** What comes before what *)
(* ===================================================================== *)

Section OrderRules.
Variable needy_request : request -> Prop.
Variable needy_disk : bool.
Variable backing : event -> Prop.

#[local] Abbreviation needy := (needy needy_request needy_disk).
#[local] Abbreviation order_inv := (order_inv needy_request needy_disk backing).
#[local] Abbreviation order_triple := (order_triple needy_request needy_disk backing).

Lemma order_start (tr : list event) :
  ordered needy_request needy_disk backing tr -> order_inv false tr.
Proof. intros H. split; [exact H|discriminate]. Qed.

Lemma order_weaken (b : bool) (tr : list event) : order_inv b tr -> order_inv false tr.
Proof. intros [H _]. split; [assumption|discriminate]. Qed.

Lemma order_cons (b : bool) (e : event) (tr : list event) :
  ~ needy e -> order_inv b tr -> order_inv b (e :: tr).
Proof.
  intros He [Hs Ho]. split.
  - cbn. split; [tauto|assumption].
  - intros Hb. apply Exists_cons_tl. auto.
Qed.

Lemma order_cons_opened (e : event) (tr : list event) :
  order_inv true tr -> order_inv true (e :: tr).
Proof.
  intros [Hs Ho]. split.
  - cbn. split; [auto|assumption].
  - intros _. apply Exists_cons_tl. auto.
Qed.

Lemma order_open (b : bool) (e : event) (tr : list event) :
  backing e -> ~ needy e -> order_inv b tr -> order_inv true (e :: tr).
Proof.
  intros Hg He [Hs Ho]. split.
  - cbn. split; [tauto|assumption].
  - intros _. now apply Exists_cons_hd.
Qed.

Lemma order_logs (b : bool) (logs tr : list event) :
  Forall is_log logs -> order_inv b tr -> order_inv b (logs ++ tr).
Proof.
  induction 1 as [|e logs He _ IH]; intros H; [exact H|].
  cbn. apply order_cons; auto. destruct e; cbn in *; tauto.
Qed.

Lemma order_logger (b : bool) (lvl : level) (msg : string) :
  preserves (order_inv b) (logger lvl msg).
Proof. intros w H. cbn. apply order_cons; auto. Qed.

Lemma order_sleep (b : bool) (d : Z) : preserves (order_inv b) (time_sleep d).
Proof.
  intros w H. unfold time_sleep. destruct (d <? 0); cbn; auto.
  apply order_cons; auto.
Qed.

Section WithEnv.
Variable env : Env.

Lemma order_http (b : bool) (rq : request) :
  ~ needy_request rq -> preserves (order_inv b) (http env rq).
Proof.
  intros Hrq w H. unfold http.
  destruct (serve env _ _ _); cbn; now apply order_cons.
Qed.

Lemma order_http_opened (rq : request) : preserves (order_inv true) (http env rq).
Proof.
  intros w H. unfold http.
  destruct (serve env _ _ _); cbn; now apply order_cons_opened.
Qed.

Lemma order_mkdir_opened (p : string) : preserves (order_inv true) (mkdir env p).
Proof.
  intros w H. unfold mkdir. destruct (mkdir_error env _ _); cbn; auto.
  now apply order_cons_opened.
Qed.

Lemma order_open_wb_opened (p : string) : preserves (order_inv true) (open_wb env p).
Proof.
  intros w H. unfold open_wb. destruct (open_error env _ _); cbn; auto.
  now apply order_cons_opened.
Qed.

Lemma order_write_opened (p d : string) : preserves (order_inv true) (write env p d).
Proof.
  intros w H. unfold write. destruct (write_error env _ _); cbn; auto.
  now apply order_cons_opened.
Qed.

(** A health check: the probe, and [True] exactly for a reply with
    status 200. *)
Lemma probe_opens (url : string) :
  ~ needy_request (GET url []) ->
  (forall r s t, status_code r = 200 -> backing (EvRequest (GET url []) (Reply r) s t)) ->
  order_triple
    (try_except
       (response <- http env (GET url []) ;;
        ret (status_code response =? 200))
       (fun e =>
          logger ERROR ("Health check failed: " ++ exn_msg e) ;;;
          ret false))
    (fun healthy => healthy).
Proof.
  intros Hrq Hback w H. unfold http. run.
  destruct (serve env _ _ _) as [e|r]; run.
  - apply order_cons; [cbn; tauto|]. now apply order_cons.
  - destruct (status_code r =? 200) eqn:Hs.
    + eapply order_open; [|exact Hrq|exact H]. apply Hback. now apply Z.eqb_eq.
    + now apply order_cons.
Qed.
End WithEnv.

(** Sequencing after a step that may record the backing event. *)
Lemma order_bind_triple {A B} (m : M A) (k : A -> M B) (mid : A -> bool) :
  order_triple m mid -> (forall a, preserves (order_inv (mid a)) (k a)) ->
  preserves (order_inv false) (bind m k).
Proof.
  intros Hm Hk w H. unfold bind. specialize (Hm w H).
  destruct (m w) as [[a|e| |] w']; cbn in *; auto.
  eapply order_weaken. now apply Hk.
Qed.

End OrderRules.

(** Once the backing event is there, every step keeps the invariant. *)
Ltac opened_step :=
  first
    [ apply order_logger | apply order_sleep | apply order_http_opened
    | apply order_mkdir_opened | apply order_open_wb_opened | apply order_write_opened
    | kept_step
    | apply wait_loop_kept; intros
    | apply inject_items_kept; intros
    | apply inject_params_kept; intros
    | apply save_all_kept; intros ].

Ltac opened := repeat opened_step.

(** *** Nothing happens before the health check has passed *)

Section ProbeFirst.
Variable env : Env.

Lemma probe_not_beyond (url : string) : ~ beyond_probe url (GET url []).
Proof. intros H. now apply H. Qed.

Lemma probe_is_healthy (url : string) (r : response) (s t : Z) :
  status_code r = 200 -> healthy_probe url (EvRequest (GET url []) (Reply r) s t).
Proof. intros H. cbn. auto. Qed.

(** A tool that starts with the health check and gives up when it
    fails. *)
Lemma probe_first {A} (url : string) (check : M bool) (rest : M A) (sorry : A) :
  check = try_except
            (response <- http env (GET url []) ;;
             ret (status_code response =? 200))
            (fun e =>
               logger ERROR ("Health check failed: " ++ exn_msg e) ;;;
               ret false) ->
  preserves (order_inv (beyond_probe url) true (healthy_probe url) true) rest ->
  preserves (order_inv (beyond_probe url) true (healthy_probe url) false)
            (healthy <- check ;; if negb healthy then ret sorry else rest).
Proof.
  intros -> Hrest.
  eapply order_bind_triple;
    [apply probe_opens; [apply probe_not_beyond|apply probe_is_healthy]|].
  intros [|]; cbn [negb]; [exact Hrest|apply preserves_ret].
Qed.

(** X1.  The ComfyUI tools: unless the probe of [/system_stats] has been
    answered with status 200, a tool makes no other request and touches
    no file. *)
Theorem comfyui_probe_first
        (COMFYUI_BASE_URL COMFYUI_WORKFLOW_PATH : string) (fuel : nat)
        (workflow_path prompt_text : option string) (output_directory : string)
        (max_wait : Z) (workflow_params : option string) (w : World) :
  let probe := rstrip_slash COMFYUI_BASE_URL ++ "/system_stats" in
  let fine := ordered (beyond_probe probe) true (healthy_probe probe) in
  fine (trace w) ->
  fine (trace (snd (ComfyUIServer.execute_workflow env COMFYUI_BASE_URL
                      COMFYUI_WORKFLOW_PATH fuel workflow_path prompt_text
                      output_directory max_wait workflow_params w))) /\
  fine (trace (snd (ComfyUIQueue.get_queue_status env COMFYUI_BASE_URL w))).
Proof.
  cbv zeta. intros H%order_start. split.
  - refine (proj1 (probe_first _ _ _ _ eq_refl _ w H)).
    cbv zeta. destruct (_ =? EmptyString)%string; opened.
  - refine (proj1 (probe_first _ _ _ _ eq_refl _ w H)). opened.
Qed.

(** X2.  The UVR5 tools: unless the probe of [/health] has been answered
    with status 200, nothing is uploaded, no other request is made and no
    file is touched. *)
Theorem uvr5_probe_first
        (UVR5_BASE_URL audio_file_path model_name output_directory output_format : string)
        (extract_vocals extract_instrumental : bool) (w : World) :
  let probe := rstrip_slash UVR5_BASE_URL ++ "/health" in
  let fine := ordered (beyond_probe probe) true (healthy_probe probe) in
  fine (trace w) ->
  fine (trace (snd (UVR5Server.separate_audio env UVR5_BASE_URL audio_file_path
                      model_name output_directory output_format
                      extract_vocals extract_instrumental w))) /\
  fine (trace (snd (UVR5Models.list_uvr5_models env UVR5_BASE_URL w))).
Proof.
  cbv zeta. intros H%order_start. split.
  - refine (proj1 (probe_first _ _ _ _ eq_refl _ w H)).
    unfold UVR5Server.save_stems, UVR5Server.save_stem. opened.
  - refine (proj1 (probe_first _ _ _ _ eq_refl _ w H)). opened.
Qed.

(** X3.  The LocalAI tools: unless the probe of [/readyz] has been
    answered with status 200, nothing is posted, no other request is made
    and no file is touched. *)
Theorem localai_probe_first
        (LOCALAI_BASE_URL LOCALAI_TTS_MODEL LOCALAI_AUDIO_MODEL : string)
        (resolve : string -> exn + string) (localtime : Z -> LocalAIUtils.datetime)
        (text voice output_directory : string) (model : option string)
        (response_format : string) (speed duration temperature top_k top_p : json)
        (w : World) :
  let probe := rstrip_slash LOCALAI_BASE_URL ++ "/readyz" in
  let fine := ordered (beyond_probe probe) true (healthy_probe probe) in
  fine (trace w) ->
  fine (trace (snd (LocalAIServer.text_to_speech env LOCALAI_BASE_URL LOCALAI_TTS_MODEL
                      resolve localtime text voice output_directory model
                      response_format speed w))) /\
  fine (trace (snd (LocalAIServer.generate_audio env LOCALAI_BASE_URL
                      LOCALAI_AUDIO_MODEL resolve localtime text output_directory model
                      duration temperature top_k top_p w))) /\
  fine (trace (snd (LocalAIServer.list_localai_models env LOCALAI_BASE_URL w))).
Proof.
  cbv zeta. intros H%order_start.
  assert (Hnow : forall p c o x,
             preserves (order_inv (beyond_probe (rstrip_slash LOCALAI_BASE_URL ++ "/readyz"))
                                  true
                                  (healthy_probe (rstrip_slash LOCALAI_BASE_URL ++ "/readyz"))
                                  true)
                       (LocalAIServer.make_output_file localtime p c o x))
    by (intros p c o x w' H'; exact H').
  split; [|split].
  - unfold LocalAIServer.text_to_speech.
    destruct (text =? EmptyString)%string; [exact (proj1 H)|].
    refine (proj1 (probe_first _ _ _ _ eq_refl _ w H)).
    unfold LocalAIServer.save_audio, LocalAIServer.make_output_path. opened.
  - unfold LocalAIServer.generate_audio.
    destruct (text =? EmptyString)%string; [exact (proj1 H)|].
    refine (proj1 (probe_first _ _ _ _ eq_refl _ w H)).
    unfold LocalAIServer.save_audio, LocalAIServer.make_output_path. opened.
  - refine (proj1 (probe_first _ _ _ _ eq_refl _ w H)). opened.
Qed.

End ProbeFirst.

(** *** Files are touched only when there is something to save *)

(** Before the backing event: steps that touch no file. *)
Ltac quiet_step :=
  first
    [ apply order_logger | apply order_sleep
    | apply order_http; [intros []]
    | kept_step
    | apply wait_loop_kept; intros
    | apply inject_items_kept; intros
    | apply inject_params_kept; intros ].

Ltac quiet := repeat quiet_step.

Section DiskAfterResult.
Variable env : Env.

(** X4.  [execute_workflow] makes no directory, opens and writes no
    file and fetches nothing from [/view] unless [wait_for_completion],
    called for the token its own submission was answered with, has
    returned [True]: every run either left the file system as it was
    (so after a timeout, a refused submission or an unreadable
    template), or touched it only after that call. *)
Theorem comfyui_disk_after_completion
        (COMFYUI_BASE_URL COMFYUI_WORKFLOW_PATH : string) (fuel : nat)
        (workflow_path prompt_text : option string) (output_directory : string)
        (max_wait : Z) (workflow_params : option string) (w : World) :
  let base := rstrip_slash COMFYUI_BASE_URL in
  let tr := trace (snd (ComfyUIServer.execute_workflow env COMFYUI_BASE_URL
                          COMFYUI_WORKFLOW_PATH fuel workflow_path prompt_text
                          output_directory max_wait workflow_params w)) in
  since (calm (view_url base) true) (trace w) tr \/
  after_wait env base fuel max_wait true (trace w) tr.
Proof.
  cbv zeta.
  apply (execute_workflow_staged env COMFYUI_BASE_URL COMFYUI_WORKFLOW_PATH true
           (trace w) fuel workflow_path prompt_text output_directory max_wait
           workflow_params w).
  apply since_refl.
Qed.

(** The upload: when it returns a result without a job token, the trace
    holds the reply that carried the result. *)
Lemma upload_orders (base_url audio_file model_name output_format stem_naming : string) :
  order_triple no_request true (stems_ready base_url)
    (UVR5.separate_audio env base_url audio_file model_name output_format stem_naming)
    (fun result => match py_get result "job_id" JNull with
                   | inr v => negb (truthy v)
                   | inl _ => false
                   end).
Proof.
  intros w H. unfold UVR5.separate_audio, http, raise_for_status. run.
  destruct (serve env _ _ _) as [e|r] eqn:Hrp; run.
  { apply order_cons; [cbn; tauto|]. apply order_cons; [intros []|exact H]. }
  destruct (is_success r) eqn:Hok; run.
  2:{ apply order_cons; [cbn; tauto|]. apply order_cons; [intros []|exact H]. }
  destruct (json_body r) as [e|j] eqn:Hbody; run.
  { apply order_cons; [cbn; tauto|]. apply order_cons; [intros []|exact H]. }
  destruct (py_get j "job_id" JNull) as [e|v] eqn:Hid;
    [apply order_cons; [intros []|exact H]|].
  destruct (truthy v) eqn:Hv; cbn [negb];
    [apply order_cons; [intros []|exact H]|].
  eapply order_open; [|intros []|exact H].
  right. cbn. repeat split; auto. exists j, v. auto.
Qed.

(** Polling the result records the completion exactly when the status
    that comes back is "completed". *)
Lemma result_orders (base_url : string) (job_id : json) :
  order_triple no_request true (stems_ready base_url)
               (UVR5.get_separation_result env base_url job_id) status_completed.
Proof.
  intros w H. unfold UVR5.get_separation_result, http, raise_for_status. run.
  destruct (serve env _ _ _) as [e|r] eqn:Hrp; run.
  { apply order_cons; [cbn; tauto|]. apply order_cons; [intros []|exact H]. }
  destruct (is_success r) eqn:Hok; run.
  2:{ apply order_cons; [cbn; tauto|]. apply order_cons; [intros []|exact H]. }
  destruct (json_body r) as [e|j] eqn:Hbody; run.
  { apply order_cons; [cbn; tauto|]. apply order_cons; [intros []|exact H]. }
  destruct (status_completed j) eqn:Hst.
  - eapply order_open; [|intros []|exact H].
    left. cbn. exists job_id. split; [reflexivity|]. now rewrite Hok, Hbody, Hst.
  - apply order_cons; [intros []|exact H].
Qed.

(** X5.  [separate_audio] makes no directory and opens or writes no file
    unless the polled job result had the status "completed", or the
    upload was answered with a result that carries no job token: while
    the job is in progress, and after any failure before that, the file
    system is left as it was. *)
Theorem uvr5_disk_after_result
        (UVR5_BASE_URL audio_file_path model_name output_directory output_format : string)
        (extract_vocals extract_instrumental : bool) (w : World) :
  let fine := ordered no_request true (stems_ready (rstrip_slash UVR5_BASE_URL)) in
  fine (trace w) ->
  fine (trace (snd (UVR5Server.separate_audio env UVR5_BASE_URL audio_file_path
                      model_name output_directory output_format
                      extract_vocals extract_instrumental w))).
Proof.
  cbv zeta. intros H%order_start.
  refine (proj1 ((_ : preserves (order_inv _ _ _ false) _) w H)).
  unfold UVR5Server.separate_audio.
  apply preserves_bind; [quiet|intros healthy].
  destruct (negb healthy); [apply preserves_ret|].
  apply preserves_try; [|intros e; quiet].
  destruct (negb (exists_file env audio_file_path)); [apply preserves_ret|].
  apply preserves_bind; [apply preserves_lift|intros audio_file].
  eapply order_bind_triple; [apply upload_orders|intros result]. cbv beta.
  apply preserves_bind_lift. intros job_id ->.
  unfold UVR5Server.save_stems, UVR5Server.save_stem.
  destruct (truthy job_id); cbn [negb]; [|opened].
  apply preserves_bind; [quiet|intros _].
  eapply order_bind_triple; [apply result_orders|intros job_result].
  unfold status_completed.
  apply preserves_bind_lift. intros status ->.
  destruct (py_eq status (JStr "completed")); cbn [negb]; opened.
Qed.

(** The speech and generation calls return only what a 2xx reply
    carried. *)
Lemma post_orders (url : string) (body : json) (what why : string) :
  order_triple no_request true (accepted_post url)
    (try_except
       (response <- http env (POST_json url body) ;;
        raise_for_status response ;;;
        ret (content response))
       (fun e =>
          logger ERROR (what ++ exn_msg e) ;;;
          raise (Exception (why ++ exn_msg e))))
    (fun _ => true).
Proof.
  intros w H. unfold http, raise_for_status. run.
  destruct (serve env _ _ _) as [e|r] eqn:Hrp; run.
  { apply order_cons; [cbn; tauto|]. apply order_cons; [intros []|exact H]. }
  destruct (is_success r) eqn:Hok; run.
  - eapply order_open; [|intros []|exact H]. cbn. auto.
  - apply order_cons; [cbn; tauto|]. apply order_cons; [intros []|exact H].
Qed.

(** X6.  The LocalAI tools make no directory and open or write no file
    unless the speech (or generation) request was answered with a 2xx
    status: a failed generation leaves the file system as it was. *)
Theorem localai_disk_after_audio
        (LOCALAI_BASE_URL LOCALAI_TTS_MODEL LOCALAI_AUDIO_MODEL : string)
        (resolve : string -> exn + string) (localtime : Z -> LocalAIUtils.datetime)
        (text voice output_directory : string) (model : option string)
        (response_format : string) (speed duration temperature top_k top_p : json)
        (w : World) :
  let base := rstrip_slash LOCALAI_BASE_URL in
  let fine url := ordered no_request true (accepted_post (base ++ url)) in
  (fine "/v1/audio/speech" (trace w) ->
   fine "/v1/audio/speech"
        (trace (snd (LocalAIServer.text_to_speech env LOCALAI_BASE_URL LOCALAI_TTS_MODEL
                       resolve localtime text voice output_directory model
                       response_format speed w)))) /\
  (fine "/v1/audio/generations" (trace w) ->
   fine "/v1/audio/generations"
        (trace (snd (LocalAIServer.generate_audio env LOCALAI_BASE_URL
                       LOCALAI_AUDIO_MODEL resolve localtime text output_directory
                       model duration temperature top_k top_p w)))).
Proof.
  cbv zeta.
  assert (Hnow : forall I p c o x,
             preserves I (LocalAIServer.make_output_file localtime p c o x))
    by (intros I p c o x w' H'; exact H').
  split; intros H%order_start;
    refine (proj1 ((_ : preserves (order_inv _ _ _ false) _) w H)).
  - unfold LocalAIServer.text_to_speech.
    destruct (text =? EmptyString)%string; [apply preserves_ret|].
    apply preserves_bind; [quiet|intros healthy].
    destruct (negb healthy); [apply preserves_ret|].
    apply preserves_try; [|intros e; quiet]. cbv zeta.
    eapply order_bind_triple; [apply post_orders|intros audio_data].
    unfold LocalAIServer.save_audio, LocalAIServer.make_output_path. opened.
  - unfold LocalAIServer.generate_audio.
    destruct (text =? EmptyString)%string; [apply preserves_ret|].
    apply preserves_bind; [quiet|intros healthy].
    destruct (negb healthy); [apply preserves_ret|].
    apply preserves_try; [|intros e; quiet]. cbv zeta.
    eapply order_bind_triple; [apply post_orders|intros audio_data].
    unfold LocalAIServer.save_audio, LocalAIServer.make_output_path. opened.
Qed.

End DiskAfterResult.

(* ===================================================================== *)
(** ** Every tool answers *)
(* ===================================================================== *)

Section Settling.
Context {A B : Type}.

Lemma settles_ret (a : A) : settles (ret a).
Proof. intros w. exact I. Qed.

Lemma settles_raise (e : exn) : settles (@raise A e).
Proof. intros w. exact I. Qed.

Lemma settles_lift (r : exn + A) : settles (lift r).
Proof. destruct r; intros w; exact I. Qed.

Lemma settles_bind (m : M A) (k : A -> M B) :
  settles m -> (forall a, settles (k a)) -> settles (bind m k).
Proof.
  intros Hm Hk w. unfold bind. specialize (Hm w).
  destruct (m w) as [[a|e| |] w']; cbn in *; auto. apply Hk.
Qed.

Lemma settles_try (body : M A) (handler : exn -> M A) :
  settles body -> (forall e, settles (handler e)) -> settles (try_except body handler).
Proof.
  intros Hm Hk w. unfold try_except. specialize (Hm w).
  destruct (body w) as [[a|e| |] w']; cbn in *; auto. apply Hk.
Qed.

Lemma answers_settles (m : M A) : answers m -> settles m.
Proof. intros H w. destruct (H w) as (a & w' & ->). exact I. Qed.

Lemma answers_never_raises (m : M A) : answers m -> never_raises m.
Proof. intros H w e w' E. destruct (H w) as (a & w1 & E1). congruence. Qed.

Lemma answers_ret (a : A) : answers (ret a).
Proof. intros w. now exists a, w. Qed.

Lemma answers_bind (m : M A) (k : A -> M B) :
  answers m -> (forall a, answers (k a)) -> answers (bind m k).
Proof.
  intros Hm Hk w. unfold bind. destruct (Hm w) as (a & w' & ->). apply Hk.
Qed.

(** A [try] block whose handler answers lets nothing escape. *)
Lemma answers_try (body : M A) (handler : exn -> M A) :
  settles body -> (forall e, answers (handler e)) -> answers (try_except body handler).
Proof.
  intros Hm Hk w. unfold try_except. specialize (Hm w).
  destruct (body w) as [[a|e| |] w']; cbn in *; try contradiction.
  - now exists a, w'.
  - apply Hk.
Qed.

Lemma never_raises_bind (m : M A) (k : A -> M B) :
  never_raises m -> (forall a, never_raises (k a)) -> never_raises (bind m k).
Proof.
  intros Hm Hk w e w' E. unfold bind in E.
  destruct (m w) as [[a|e0| |] w1] eqn:Em; try discriminate.
  - exact (Hk a w1 e w' E).
  - exact (Hm w e0 w1 Em).
Qed.

Lemma never_raises_try (body : M A) (handler : exn -> M A) :
  (forall e, never_raises (handler e)) -> never_raises (try_except body handler).
Proof.
  intros Hk w e w' E. unfold try_except in E.
  destruct (body w) as [[a|e0| |] w1]; try discriminate.
  exact (Hk e0 w1 e w' E).
Qed.
End Settling.

Lemma settles_time : settles time_time.
Proof. intros w. exact I. Qed.

Lemma settles_logger (lvl : level) (msg : string) : settles (logger lvl msg).
Proof. intros w. exact I. Qed.

Lemma answers_logger (lvl : level) (msg : string) : answers (logger lvl msg).
Proof. intros w. now eexists _, _. Qed.

Lemma settles_sleep (d : Z) : settles (time_sleep d).
Proof. intros w. unfold time_sleep. now destruct (d <? 0). Qed.

Lemma settles_status (r : response) : settles (raise_for_status r).
Proof. intros w. unfold raise_for_status. now destruct (is_success r). Qed.

Section SettlingWithEnv.
Variable env : Env.

Lemma settles_http (rq : request) : settles (http env rq).
Proof. intros w. unfold http. now destruct (serve env _ _ _). Qed.

Lemma settles_uuid : settles (fresh_uuid env).
Proof. intros w. exact I. Qed.

Lemma settles_open_json (p : string) : settles (open_json env p).
Proof. intros w. unfold open_json. now destruct (read_json env p). Qed.

Lemma settles_mkdir (p : string) : settles (mkdir env p).
Proof. intros w. unfold mkdir. now destruct (mkdir_error env _ _). Qed.

Lemma settles_open_wb (p : string) : settles (open_wb env p).
Proof. intros w. unfold open_wb. now destruct (open_error env _ _). Qed.

Lemma settles_write (p d : string) : settles (write env p d).
Proof. intros w. unfold write. now destruct (write_error env _ _). Qed.
End SettlingWithEnv.

Ltac settle_step :=
  first
    [ match goal with H : _ |- settles _ => solve [apply H] end
    | apply settles_ret | apply settles_raise | apply settles_lift
    | apply settles_time | apply settles_logger | apply settles_sleep
    | apply settles_status | apply settles_http | apply settles_uuid
    | apply settles_open_json | apply settles_mkdir | apply settles_open_wb
    | apply settles_write
    | apply settles_bind; [|intros ?]
    | apply settles_try; [|intros ?]
    | match goal with
      | |- settles (if ?c then _ else _) => destruct c
      | |- settles (match ?x with _ => _ end) => destruct x
      end ].

Ltac settle := repeat settle_step.

(** The handler of a tool: log the failure, answer with its text. *)
Ltac answer :=
  repeat first
    [ apply answers_ret | apply answers_logger
    | apply answers_bind; [|intros ?]
    | apply answers_try; [|intros ?]
    | match goal with
      | |- answers (if ?c then _ else _) => destruct c
      end ].

Section ToolsAnswer.
Variable env : Env.

Lemma inject_items_settles (p : string) (items : list (string * json)) :
  settles (ComfyUIServer.inject_items p items).
Proof.
  induction items as [|[node_id node] items IH]; cbn [ComfyUIServer.inject_items];
    settle.
Qed.

Lemma save_all_settles (url output_path : string) (files : list ComfyUI.descriptor) :
  settles (ComfyUIServer.save_all env url output_path files).
Proof.
  induction files as [|file_info rest IH]; cbn [ComfyUIServer.save_all]; settle.
Qed.

(** With fuel for ceil([max_wait] / [poll_interval]) turns the wait
    loop returns. *)
Lemma wait_for_completion_answers (base_url : string) (fuel : nat) (prompt_id : json)
      (T P : Z) :
  0 < P -> (turns T P <= fuel)%nat ->
  answers (ComfyUI.wait_for_completion env base_url fuel prompt_id T P).
Proof.
  intros HP Hfuel w. unfold ComfyUI.wait_for_completion, bind, time_time.
  destruct (wait_loop_run env base_url prompt_id T P (now w) HP fuel w (Z.le_refl _))
    as (b & w' & _ & Hrun & _).
  - now rewrite Z.sub_diag, Z.sub_0_r.
  - now exists b, w'.
Qed.

Lemma check_health_answers (url : string) :
  answers (try_except
             (response <- http env (GET url []) ;;
              ret (status_code response =? 200))
             (fun e =>
                logger ERROR ("Health check failed: " ++ exn_msg e) ;;;
                ret false)).
Proof. apply answers_try; [settle|intros e; answer]. Qed.

(** X7.  The ComfyUI tools let no exception escape: [execute_workflow]
    never raises, and with fuel for the turns of its wait loop
    (ceil([max_wait] / 2)) and no [workflow_params] it returns a text,
    whatever the server and the file system do; [get_queue_status] always
    returns a text. *)
Theorem comfyui_tools_answer
        (COMFYUI_BASE_URL COMFYUI_WORKFLOW_PATH : string) (fuel : nat)
        (workflow_path prompt_text : option string) (output_directory : string)
        (max_wait : Z) (workflow_params : option string) :
  let run := ComfyUIServer.execute_workflow env COMFYUI_BASE_URL COMFYUI_WORKFLOW_PATH
               fuel workflow_path prompt_text output_directory max_wait
               workflow_params in
  never_raises run /\
  ((turns max_wait 2 <= fuel)%nat ->
   ComfyUIServer.is_given workflow_params = false -> answers run) /\
  answers (ComfyUIQueue.get_queue_status env COMFYUI_BASE_URL).
Proof.
  cbv zeta. split; [|split].
  - unfold ComfyUIServer.execute_workflow.
    apply never_raises_bind;
      [apply answers_never_raises, check_health_answers|intros healthy].
    destruct (negb healthy); [apply answers_never_raises, answers_ret|]. cbv zeta.
    destruct (_ =? EmptyString)%string; [apply answers_never_raises, answers_ret|].
    apply never_raises_try. intros e. apply answers_never_raises. answer.
  - intros Hfuel Hparams. unfold ComfyUIServer.execute_workflow. rewrite Hparams.
    apply answers_bind; [apply check_health_answers|intros healthy].
    destruct (negb healthy); [apply answers_ret|]. cbv zeta.
    destruct (_ =? EmptyString)%string; [apply answers_ret|].
    apply answers_try; [|intros e; answer].
    apply settles_bind; [unfold ComfyUI.load_workflow; settle|intros wf1].
    apply settles_bind;
      [destruct (ComfyUIServer.is_given prompt_text);
       [unfold ComfyUIServer.inject_text; settle; apply inject_items_settles
       |apply settles_ret]|intros wf2].
    apply settles_bind; [apply settles_ret|intros wf3].
    apply settles_bind; [unfold ComfyUI.queue_prompt; settle|intros prompt_id].
    apply settles_bind; [apply settles_logger|intros _].
    apply settles_bind;
      [apply answers_settles, wait_for_completion_answers; [lia|exact Hfuel]
      |intros completed].
    destruct (negb completed); [apply settles_ret|].
    apply settles_bind; [unfold ComfyUI.get_output_files, ComfyUI.get_history; settle
                        |intros files].
    destruct files; [apply settles_ret|].
    apply settles_bind; [apply settles_mkdir|intros _].
    apply settles_bind; [apply save_all_settles|intros saved].
    destruct saved; apply settles_ret.
  - unfold ComfyUIQueue.get_queue_status.
    apply answers_bind; [apply check_health_answers|intros healthy].
    destruct (negb healthy); [apply answers_ret|].
    apply answers_try; [|intros e; answer].
    unfold ComfyUIQueue.get_queue. settle.
Qed.

(** X8.  The UVR5 tools let no exception escape: whatever the server and
    the file system do, [separate_audio] and [list_uvr5_models] return a
    text. *)
Theorem uvr5_tools_answer
        (UVR5_BASE_URL audio_file_path model_name output_directory output_format : string)
        (extract_vocals extract_instrumental : bool) :
  answers (UVR5Server.separate_audio env UVR5_BASE_URL audio_file_path model_name
             output_directory output_format extract_vocals extract_instrumental) /\
  answers (UVR5Models.list_uvr5_models env UVR5_BASE_URL).
Proof.
  split.
  - unfold UVR5Server.separate_audio.
    apply answers_bind; [apply check_health_answers|intros healthy].
    destruct (negb healthy); [apply answers_ret|].
    apply answers_try; [|intros e; answer].
    unfold UVR5.separate_audio, UVR5.get_separation_result, UVR5Server.save_stems,
      UVR5Server.save_stem, UVR5.download_stem.
    settle.
  - unfold UVR5Models.list_uvr5_models.
    apply answers_bind; [apply check_health_answers|intros healthy].
    destruct (negb healthy); [apply answers_ret|].
    apply answers_try; [|intros e; answer].
    unfold UVR5Models.list_models. settle.
Qed.

(** X9.  The LocalAI tools let no exception escape: whatever the server,
    the clock and the file system do, [text_to_speech], [generate_audio]
    and [list_localai_models] return a text. *)
Theorem localai_tools_answer
        (LOCALAI_BASE_URL LOCALAI_TTS_MODEL LOCALAI_AUDIO_MODEL : string)
        (resolve : string -> exn + string) (localtime : Z -> LocalAIUtils.datetime)
        (text voice output_directory : string) (model : option string)
        (response_format : string) (speed duration temperature top_k top_p : json) :
  answers (LocalAIServer.text_to_speech env LOCALAI_BASE_URL LOCALAI_TTS_MODEL
             resolve localtime text voice output_directory model response_format
             speed) /\
  answers (LocalAIServer.generate_audio env LOCALAI_BASE_URL LOCALAI_AUDIO_MODEL
             resolve localtime text output_directory model duration temperature
             top_k top_p) /\
  answers (LocalAIServer.list_localai_models env LOCALAI_BASE_URL).
Proof.
  assert (Hnow : forall p c o x,
             settles (LocalAIServer.make_output_file localtime p c o x))
    by (intros p c o x w; exact I).
  split; [|split].
  - unfold LocalAIServer.text_to_speech.
    destruct (text =? EmptyString)%string; [apply answers_ret|].
    apply answers_bind; [apply check_health_answers|intros healthy].
    destruct (negb healthy); [apply answers_ret|].
    apply answers_try; [|intros e; answer].
    unfold LocalAI.text_to_speech, LocalAIServer.save_audio,
      LocalAIServer.make_output_path.
    settle.
  - unfold LocalAIServer.generate_audio.
    destruct (text =? EmptyString)%string; [apply answers_ret|].
    apply answers_bind; [apply check_health_answers|intros healthy].
    destruct (negb healthy); [apply answers_ret|].
    apply answers_try; [|intros e; answer].
    unfold LocalAI.generate_audio, LocalAIServer.save_audio,
      LocalAIServer.make_output_path.
    settle.
  - unfold LocalAIServer.list_localai_models.
    apply answers_bind; [apply check_health_answers|intros healthy].
    destruct (negb healthy); [apply answers_ret|].
    apply answers_try; [|intros e; answer].
    unfold LocalAI.list_models. settle.
Qed.

End ToolsAnswer.

(* ===================================================================== *)
(** ** The edges of the wait loop *)
(* ===================================================================== *)

Section WaitEdges.
Variable env : Env.
Variable base_url : string.
Variable prompt_id : json.

(** X10.  A job that has already completed is reported by the first
    poll: [wait_for_completion] returns [True] after one request and
    without sleeping, whatever the poll interval. *)
Theorem finished_job_first_poll (fuel : nat) (T P : Z) (w : World) :
  let rq := ComfyUI.history_request base_url prompt_id in
  let t := now w + Z.max 0 (delay env (count w)) in
  let rp := serve env (count w) t rq in
  0 < T ->
  shows_success prompt_id rp = true ->
  exists logs,
    Forall is_log logs /\
    ComfyUI.wait_for_completion env base_url (S fuel) prompt_id T P w
    = (Ret true, mkWorld t (S (count w)) (logs ++ EvRequest rq rp (now w) t :: trace w)).
Proof.
  cbv zeta. intros HT Hs.
  destruct (get_history_run env base_url prompt_id w) as (logs & Hlogs & _ & Hrun).
  cbv zeta in Hrun.
  unfold ComfyUI.wait_for_completion, bind at 1, time_time. cbn [ComfyUI.wait_loop].
  rewrite Z.sub_diag. destruct (Z.ltb_spec 0 T) as [_|]; [|lia].
  unfold bind at 1, ComfyUI.poll_once, try_except, bind at 1. rewrite Hrun.
  unfold shows_success in Hs.
  destruct (ComfyUI.completed prompt_id _) as [e|[|]]; try discriminate. run.
  exists (EvLog INFO ("Workflow " ++ py_str prompt_id ++ " completed") :: logs).
  split; [constructor; [exact I|assumption]|reflexivity].
Qed.

(** X11.  With [max_wait <= 0] the body of the wait loop never runs: no
    poll is made, the timeout is logged and [False] comes back at once,
    also for a job that has completed. *)
Theorem no_time_no_poll (fuel : nat) (T P : Z) (w : World) :
  T <= 0 ->
  ComfyUI.wait_for_completion env base_url fuel prompt_id T P w
  = (Ret false,
     mkWorld (now w) (count w)
             (EvLog WARNING ("Workflow " ++ py_str prompt_id
                             ++ " did not complete within " ++ string_of_Z T ++ "s")
                :: trace w)).
Proof.
  intros HT. unfold ComfyUI.wait_for_completion, bind at 1, time_time.
  assert (E : (now w - now w <? T) = false) by (apply Z.ltb_ge; lia).
  destruct fuel; cbn [ComfyUI.wait_loop]; rewrite E; reflexivity.
Qed.

(** X12.  With a negative [poll_interval] the sleep after a poll that
    shows no completed record raises [ValueError], in the [try] block and
    again in its handler, and the exception leaves [wait_for_completion]
    after that one poll. *)
Theorem negative_interval_raises (fuel : nat) (T P : Z) (w : World) :
  let rq := ComfyUI.history_request base_url prompt_id in
  let t := now w + Z.max 0 (delay env (count w)) in
  let rp := serve env (count w) t rq in
  0 < T -> P < 0 -> shows_success prompt_id rp = false ->
  exists w',
    ComfyUI.wait_for_completion env base_url (S fuel) prompt_id T P w
    = (Raise (ValueError "sleep length must be non-negative"), w') /\
    requests (trace w') = S (requests (trace w)) /\ now w' = t.
Proof.
  cbv zeta. intros HT HP Hs.
  destruct (get_history_run env base_url prompt_id w) as (logs & Hlogs & _ & Hrun).
  cbv zeta in Hrun.
  unfold ComfyUI.wait_for_completion, bind at 1, time_time. cbn [ComfyUI.wait_loop].
  rewrite Z.sub_diag. destruct (Z.ltb_spec 0 T) as [_|]; [|lia].
  unfold bind at 1, ComfyUI.poll_once, try_except, bind at 1. rewrite Hrun.
  unfold shows_success in Hs.
  assert (E : (P <? 0) = true) by (apply Z.ltb_lt; lia).
  destruct (ComfyUI.completed prompt_id _) as [e|[|]]; try discriminate;
    run; rewrite E; run; rewrite ?E; eexists; (split; [reflexivity|]);
    cbn [trace now]; rewrite ?requests_app; cbn [requests];
    rewrite ?requests_app, (logs_requests _ Hlogs); cbn [requests]; split; auto.
Qed.

End WaitEdges.

(* ===================================================================== *)
(** ** Slugs and base URLs *)
(* ===================================================================== *)

Section Slugs.
Import LocalAIUtils.

Lemma all_chars_impl (P Q : ascii -> bool) (s : string) :
  (forall c, P c = true -> Q c = true) -> all_chars P s = true -> all_chars Q s = true.
Proof.
  intros HPQ. induction s as [|c s IH]; [reflexivity|]. cbn.
  intros [Hc Hs]%andb_prop. now rewrite (HPQ c Hc), IH.
Qed.

Lemma filter_string_all (P : ascii -> bool) (s : string) :
  all_chars P s = true -> filter_string P s = s.
Proof.
  induction s as [|c s IH]; [reflexivity|]. cbn.
  intros [Hc Hs]%andb_prop. now rewrite Hc, IH.
Qed.

Lemma take_all (n : nat) (s : string) : (String.length s <= n)%nat -> take n s = s.
Proof.
  unfold take. revert n. induction s as [|c s IH]; intros [|n] H; cbn in *;
    try reflexivity; try lia.
  now rewrite IH by lia.
Qed.

(** A word character is neither a hyphen nor whitespace. *)
Lemma word_not_separator (c : ascii) :
  is_word c = true -> is_hyphen c || is_space c = false.
Proof.
  destruct c as [[|] [|] [|] [|] [|] [|] [|] [|]]; vm_compute; congruence.
Qed.

Lemma collapse_words (s : string) : all_chars is_word s = true -> collapse s = s.
Proof.
  induction s as [|c s IH]; [reflexivity|]. cbn [all_chars collapse].
  intros [Hc Hs]%andb_prop. now rewrite (word_not_separator c Hc), IH.
Qed.

Lemma lstrip_no_lead (s : string) : starts_with "_" (lstrip_underscore s) = false.
Proof.
  induction s as [|c s IH]; [reflexivity|]. cbn [lstrip_underscore].
  destruct (Ascii.eqb c "_") eqn:E; [exact IH|].
  cbn [starts_with]. now rewrite Ascii.eqb_sym, E.
Qed.

Lemma lstrip_kept (s : string) : starts_with "_" s = false -> lstrip_underscore s = s.
Proof.
  destruct s as [|c s]; [reflexivity|]. cbn [starts_with lstrip_underscore].
  rewrite Ascii.eqb_sym. now destruct (Ascii.eqb c "_").
Qed.

Lemma rstrip_no_trail (s : string) : ends_with_char "_" (rstrip_underscore s) = false.
Proof.
  induction s as [|c s IH]; [reflexivity|]. cbn [rstrip_underscore].
  destruct (rstrip_underscore s) as [|c' r].
  - destruct (Ascii.eqb c "_") eqn:E; [reflexivity|exact E].
  - exact IH.
Qed.

Lemma rstrip_keeps_lead (s : string) :
  starts_with "_" s = false -> starts_with "_" (rstrip_underscore s) = false.
Proof.
  destruct s as [|c s]; [reflexivity|]. cbn [rstrip_underscore starts_with].
  rewrite andb_true_r. intros E.
  destruct (rstrip_underscore s); [|cbn [starts_with]; now rewrite E].
  rewrite Ascii.eqb_sym in E. rewrite E. cbn [starts_with].
  now rewrite Ascii.eqb_sym, E.
Qed.

Lemma rstrip_kept (s : string) : ends_with_char "_" s = false -> rstrip_underscore s = s.
Proof.
  induction s as [|c s IH]; [reflexivity|]. cbn [ends_with_char rstrip_underscore].
  destruct s as [|c' s'].
  - intros E. cbn. now rewrite E.
  - intros E. rewrite (IH E). reflexivity.
Qed.

(** X13.  What [make_output_file] makes of the content is a clean slug
    (word characters only, at most thirty, no underscore at either end),
    and a content string that is a clean slug already is taken as it is:
    cleaning twice changes nothing. *)
Theorem safe_content_clean (content : string) :
  clean_slug (safe_content content) = true /\
  (clean_slug content = true -> safe_content content = content) /\
  safe_content (safe_content content) = safe_content content.
Proof.
  assert (Hclean : forall c, clean_slug (safe_content c) = true).
  { intros c. destruct (safe_content_word c) as [Hw Hl].
    unfold clean_slug. rewrite Hw. apply Nat.leb_le in Hl. rewrite Hl. cbn [andb].
    unfold safe_content, strip_underscore.
    now rewrite rstrip_keeps_lead, rstrip_no_trail by apply lstrip_no_lead. }
  assert (Hfix : forall c, clean_slug c = true -> safe_content c = c).
  { intros c. unfold clean_slug.
    intros [[[Hw Hl]%andb_prop Hlead%negb_true_iff]%andb_prop
              Htrail%negb_true_iff]%andb_prop.
    apply Nat.leb_le in Hl.
    unfold safe_content, strip_underscore, remove_special.
    rewrite filter_string_all
      by (eapply all_chars_impl; [|exact Hw]; intros a ->; reflexivity).
    now rewrite (take_all _ _ Hl), (collapse_words _ Hw), (lstrip_kept _ Hlead),
      (rstrip_kept _ Htrail). }
  auto.
Qed.

Lemma all_chars_and (P Q : ascii -> bool) (s : string) :
  all_chars P s = true -> all_chars Q s = true ->
  all_chars (fun c => P c && Q c) s = true.
Proof.
  induction s as [|c s IH]; [reflexivity|]. cbn.
  intros [Hp Hps]%andb_prop [Hq Hqs]%andb_prop. now rewrite Hp, Hq, IH.
Qed.

Lemma all_chars_filter_keeps (P Q : ascii -> bool) (s : string) :
  all_chars Q s = true -> all_chars Q (filter_string P s) = true.
Proof.
  induction s as [|c s IH]; [reflexivity|]. cbn.
  intros [Hq Hs]%andb_prop. destruct (P c); cbn; rewrite ?Hq; auto.
Qed.

(** Runs of hyphens and whitespace, and nothing else, leave at most one
    underscore. *)
Lemma collapse_separators (s : string) :
  all_chars (fun c => is_hyphen c || is_space c) s = true ->
  collapse s = EmptyString \/ collapse s = "_".
Proof.
  induction s as [|c s IH]; [now left|]. cbn [all_chars collapse].
  intros [Hc Hs]%andb_prop. rewrite Hc.
  destruct s as [|c' s']; [now right|].
  pose proof Hs as Hs'. cbn [all_chars] in Hs'. apply andb_prop in Hs' as [Hc' _].
  rewrite Hc'. exact (IH Hs).
Qed.

(** X14.  A content string without any word character (the empty string,
    punctuation, whitespace) gives no slug, and the file name is the
    prefix, the timestamp and the extension alone. *)
Theorem wordless_content_no_slug (now : datetime)
        (prefix content output_path extension : string) :
  wordless content = true ->
  safe_content content = EmptyString /\
  make_output_file now prefix content output_path extension
  = prefix ++ "_" ++ strftime now ++ "." ++ extension.
Proof.
  intros Hw.
  assert (E : safe_content content = EmptyString).
  { unfold safe_content, remove_special.
    set (kept := filter_string _ content).
    assert (Hsep : all_chars (fun c => is_hyphen c || is_space c) (take 30 kept) = true).
    { apply all_chars_take.
      eapply all_chars_impl;
        [|apply all_chars_and;
          [apply (all_chars_filter (fun c => is_word c || is_space c || is_hyphen c))
          |apply all_chars_filter_keeps; exact Hw]].
      intros c. cbv beta. destruct (is_word c), (is_space c), (is_hyphen c);
        cbn; congruence. }
    destruct (collapse_separators _ Hsep) as [-> | ->]; reflexivity. }
  split; [exact E|]. unfold make_output_file. now rewrite E.
Qed.

Lemma rstrip_slash_no_trail (s : string) : ends_with_char "/" (rstrip_slash s) = false.
Proof.
  induction s as [|c s IH]; [reflexivity|]. cbn [rstrip_slash].
  destruct (rstrip_slash s) as [|c' r].
  - destruct (Ascii.eqb c "/") eqn:E; [reflexivity|exact E].
  - exact IH.
Qed.

Lemma rstrip_slash_kept (s : string) : ends_with_char "/" s = false -> rstrip_slash s = s.
Proof.
  induction s as [|c s IH]; [reflexivity|]. cbn [ends_with_char rstrip_slash].
  destruct s as [|c' s'].
  - intros E. cbn. now rewrite E.
  - intros E. rewrite (IH E). reflexivity.
Qed.

Lemma rstrip_slash_app (s : string) : rstrip_slash (s ++ "/") = rstrip_slash s.
Proof.
  induction s as [|c s IH]; [reflexivity|]. cbn [append rstrip_slash]. now rewrite IH.
Qed.

(** X15.  The base URL the clients keep never ends with a slash; a
    configured URL without a trailing slash is kept as it is, and one
    more trailing slash makes no difference; the three servers
    normalise it alike. *)
Theorem base_url_normalised (url : string) :
  ends_with_char "/" (ComfyUIServer.base_url url) = false /\
  ComfyUIServer.base_url (url ++ "/") = ComfyUIServer.base_url url /\
  (ends_with_char "/" url = false -> ComfyUIServer.base_url url = url) /\
  UVR5Server.base_url url = ComfyUIServer.base_url url /\
  LocalAIServer.base_url url = ComfyUIServer.base_url url.
Proof.
  unfold ComfyUIServer.base_url, UVR5Server.base_url, LocalAIServer.base_url.
  repeat split.
  - apply rstrip_slash_no_trail.
  - apply rstrip_slash_app.
  - apply rstrip_slash_kept.
Qed.

End Slugs.

(* ===================================================================== *)
(** ** Overrides from [workflow_params] *)
(* ===================================================================== *)

Section Dicts.
Context {V : Type}.

Lemma dict_lookup_set_same (k : string) (v : V) (d : list (string * V)) :
  dict_lookup k (dict_set k v d) = Some v.
Proof.
  induction d as [|[k' v'] d IH]; cbn.
  - now rewrite String.eqb_refl.
  - destruct (k' =? k)%string eqn:E; cbn; now rewrite E.
Qed.

Lemma dict_lookup_set_other (k k' : string) (v : V) (d : list (string * V)) :
  k' <> k -> dict_lookup k' (dict_set k v d) = dict_lookup k' d.
Proof.
  intros Hne. induction d as [|[k0 v0] d IH]; cbn.
  - destruct (String.eqb_spec k k'); [congruence|reflexivity].
  - destruct (String.eqb_spec k0 k) as [->|]; cbn.
    + destruct (String.eqb_spec k k'); [congruence|reflexivity].
    + now rewrite IH.
Qed.

(** Setting a key that is there keeps the keys and their order. *)
Lemma dict_set_keys (k : string) (v v0 : V) (d : list (string * V)) :
  dict_lookup k d = Some v0 -> map fst (dict_set k v d) = map fst d.
Proof.
  induction d as [|[k' v'] d IH]; cbn; [discriminate|].
  destruct (k' =? k)%string; cbn; [reflexivity|]. intros H. now rewrite IH.
Qed.

(** [d.update(kvs)]: the last binding of a key in [kvs] wins, the other
    keys keep their values. *)
Lemma dict_lookup_update (k : string) (kvs d : list (string * V)) :
  dict_lookup k (fold_left (fun acc kv => dict_set (fst kv) (snd kv) acc) kvs d)
  = match dict_lookup k (rev kvs) with
    | Some v => Some v
    | None => dict_lookup k d
    end.
Proof.
  revert d. induction kvs as [|[k' v'] kvs IH]; intros d; [reflexivity|].
  cbn [fold_left rev fst snd]. rewrite IH.
  assert (Happ : forall l, dict_lookup k (l ++ [(k', v')])%list
                           = match dict_lookup k l with
                             | Some v => Some v
                             | None => if (k' =? k)%string then Some v' else None
                             end).
  { induction l as [|[k1 v1] l IHl]; cbn; [reflexivity|].
    destruct (k1 =? k)%string; [reflexivity|exact IHl]. }
  rewrite Happ. destruct (dict_lookup k (rev kvs)); [reflexivity|].
  destruct (String.eqb_spec k' k) as [->|Hne].
  - apply dict_lookup_set_same.
  - apply dict_lookup_set_other. congruence.
Qed.
End Dicts.

Section Overrides.

Lemma has_inputs_set (fields ins' : list (string * json)) :
  has_inputs (JObj (dict_set "inputs" (JObj ins') fields)) = true.
Proof. cbn. now rewrite dict_lookup_set_same. Qed.

(** One entry of [workflow_params], for a node with inputs. *)
Lemma inject_params_step (node_id : string) (kvs : list (string * json))
      (rest items fields ins : list (string * json)) (w : World) :
  dict_lookup node_id items = Some (JObj fields) ->
  dict_lookup "inputs" fields = Some (JObj ins) ->
  ComfyUIServer.inject_params ((node_id, JObj kvs) :: rest) (JObj items) w
  = ComfyUIServer.inject_params rest
      (JObj (dict_set node_id
               (JObj (dict_set "inputs"
                        (JObj (fold_left (fun acc kv => dict_set (fst kv) (snd kv) acc)
                                         kvs ins))
                        fields))
               items)) w.
Proof.
  intros Hnode Hins. cbn [ComfyUIServer.inject_params py_in py_getitem].
  unfold dict_mem. rewrite Hnode. run. cbn [py_getitem]. rewrite Hins. reflexivity.
Qed.

(** An entry for a node the template does not have is skipped. *)
Lemma inject_params_skip (node_id : string) (param_data : json)
      (rest items : list (string * json)) (w : World) :
  dict_lookup node_id items = None ->
  ComfyUIServer.inject_params ((node_id, param_data) :: rest) (JObj items) w
  = ComfyUIServer.inject_params rest (JObj items) w.
Proof.
  intros Hnode. cbn [ComfyUIServer.inject_params py_in].
  unfold dict_mem. rewrite Hnode. reflexivity.
Qed.

(** X16.  Applying [workflow_params] to a template.  When every entry is
    a dict of overrides for a node that is absent or has a dict of
    inputs, the loop returns a template with the same node identifiers
    in the same order, without any effect on the world; every node that
    no entry names is left exactly as it was, and entries for absent
    nodes are skipped. *)
Theorem inject_params_frame (params items : list (string * json)) (w : World) :
  forallb (param_ok items) params = true ->
  exists items',
    ComfyUIServer.inject_params params (JObj items) w = (Ret (JObj items'), w) /\
    map fst items' = map fst items /\
    (forall node_id, ~ In node_id (map fst params) ->
                     dict_lookup node_id items' = dict_lookup node_id items) /\
    ((forall node_id, In node_id (map fst params) -> dict_lookup node_id items = None) ->
     items' = items).
Proof.
  revert items. induction params as [|[node_id param_data] params IH]; intros items Hok.
  - exists items. repeat split; auto.
  - cbn [forallb] in Hok. apply andb_prop in Hok as [Hp Hrest].
    unfold param_ok in Hp. cbn [fst snd] in Hp. apply andb_prop in Hp as [Hdict Hnode].
    destruct param_data as [| | | | |kvs]; try discriminate.
    destruct (dict_lookup node_id items) as [node|] eqn:Hlook.
    + destruct node as [| | | | |fields]; try discriminate. cbn in Hnode.
      destruct (dict_lookup "inputs" fields) as [[| | | | |ins]|] eqn:Hins;
        try discriminate.
      rewrite (inject_params_step _ _ _ _ _ _ w Hlook Hins).
      set (node' := JObj (dict_set "inputs" _ fields)).
      destruct (IH (dict_set node_id node' items)) as (items' & Hrun & Hkeys & Hframe & _).
      { rewrite forallb_forall in *. intros [id pd] Hin. specialize (Hrest _ Hin).
        unfold param_ok in *. cbn [fst snd] in *.
        apply andb_prop in Hrest as [Hd Hn]. rewrite Hd. cbn [andb].
        destruct (String.eqb_spec id node_id) as [->|Hne].
        - rewrite dict_lookup_set_same. apply has_inputs_set.
        - now rewrite dict_lookup_set_other. }
      exists items'. split; [exact Hrun|]. split; [|split].
      * rewrite Hkeys. eapply dict_set_keys. exact Hlook.
      * intros id Hnot. rewrite Hframe.
        -- apply dict_lookup_set_other. intros ->. apply Hnot. now left.
        -- intros Hin. apply Hnot. now right.
      * intros Habsent. rewrite (Habsent node_id) in Hlook; [discriminate|now left].
    + rewrite (inject_params_skip _ _ _ _ w Hlook).
      destruct (IH items Hrest) as (items' & Hrun & Hkeys & Hframe & Hsame).
      exists items'. split; [exact Hrun|]. split; [exact Hkeys|]. split.
      * intros id Hnot. apply Hframe. intros Hin. apply Hnot. now right.
      * intros Habsent. apply Hsame. intros id Hin. apply Habsent. now right.
Qed.

(** X17.  One entry of [workflow_params] for a node with inputs overrides
    exactly the inputs it names: afterwards an input has the value the
    entry gives it (the last one, should the entry bind it more than
    once) and every other input has the value it had; the other fields
    of the node and the other nodes are as they were. *)
Theorem inject_params_overrides (node_id : string)
        (kvs items fields ins : list (string * json)) (w : World) :
  dict_lookup node_id items = Some (JObj fields) ->
  dict_lookup "inputs" fields = Some (JObj ins) ->
  exists items' fields' ins',
    ComfyUIServer.inject_params [(node_id, JObj kvs)] (JObj items) w
    = (Ret (JObj items'), w) /\
    dict_lookup node_id items' = Some (JObj fields') /\
    dict_lookup "inputs" fields' = Some (JObj ins') /\
    (forall k, dict_lookup k ins'
               = match dict_lookup k (rev kvs) with
                 | Some v => Some v
                 | None => dict_lookup k ins
                 end) /\
    (forall k, k <> "inputs" -> dict_lookup k fields' = dict_lookup k fields) /\
    (forall id, id <> node_id -> dict_lookup id items' = dict_lookup id items).
Proof.
  intros Hnode Hins. rewrite (inject_params_step _ _ _ _ _ _ w Hnode Hins).
  do 3 eexists. split; [reflexivity|].
  split; [apply dict_lookup_set_same|].
  split; [apply dict_lookup_set_same|].
  split; [intros k; apply dict_lookup_update|].
  split; intros k Hk; now apply dict_lookup_set_other.
Qed.

(** X18.  An override for a node that has no "inputs" stops the run:
    [workflow[node_id]["inputs"]] raises [KeyError], and
    [execute_workflow] answers "Error: 'inputs'" with the health probe as
    its only request: nothing is submitted. *)
Theorem override_without_inputs_aborts (env : Env)
        (COMFYUI_BASE_URL COMFYUI_WORKFLOW_PATH : string) (fuel : nat)
        (workflow_path : option string) (output_directory : string) (max_wait : Z)
        (params_text node_id : string) (param_data : json)
        (rest items fields : list (string * json)) (w : World) (r : response) :
  let probe := GET (rstrip_slash COMFYUI_BASE_URL ++ "/system_stats") [] in
  let t := now w + Z.max 0 (delay env (count w)) in
  let wf_path := ComfyUIServer.or_default workflow_path COMFYUI_WORKFLOW_PATH in
  serve env (count w) t probe = Reply r -> status_code r = 200 ->
  wf_path <> EmptyString ->
  read_json env wf_path = Parsed (JObj items) ->
  params_text <> EmptyString ->
  json_loads env params_text = inr (JObj ((node_id, param_data) :: rest)) ->
  dict_lookup node_id items = Some (JObj fields) ->
  dict_lookup "inputs" fields = None ->
  ComfyUIServer.execute_workflow env COMFYUI_BASE_URL COMFYUI_WORKFLOW_PATH fuel
    workflow_path None output_directory max_wait (Some params_text) w
  = (Ret (mkText "Error: 'inputs'"),
     mkWorld t (S (count w))
             (EvLog ERROR "Workflow execution failed: 'inputs'"
                :: EvRequest probe (Reply r) (now w) t :: trace w)).
Proof.
  cbv zeta. intros Hprobe Hstatus Hpath Hread Htext Hloads Hnode Hins.
  unfold ComfyUIServer.execute_workflow, ComfyUI.check_health, ComfyUI.load_workflow,
    ComfyUIServer.base_url, http, open_json.
  run. rewrite Hprobe. run. rewrite Hstatus, Z.eqb_refl. run.
  destruct (String.eqb_spec (ComfyUIServer.or_default workflow_path
                               COMFYUI_WORKFLOW_PATH) EmptyString) as [|_];
    [contradiction|].
  rewrite Hread. run. cbn [ComfyUIServer.is_given ComfyUIServer.or_default].
  destruct (String.eqb_spec params_text EmptyString) as [|_]; [contradiction|].
  run. rewrite Hloads. run. cbn [py_items]. run.
  cbn [ComfyUIServer.inject_params py_in]. unfold dict_mem. rewrite Hnode. run.
  cbn [py_getitem]. rewrite Hnode. run. cbn [py_getitem]. rewrite Hins. run.
  reflexivity.
Qed.

End Overrides.

(* ===================================================================== *)
(** ** The list of output files *)
(* ===================================================================== *)

Section OutputList.
Variable env : Env.
Variable base_url : string.

(** A node whose output is no container stops the loop, wherever it
    stands. *)
Lemma output_files_scalar (pre post : list (string * json)) (node_id : string) (v : json) :
  scalar v = true ->
  exists e, ComfyUI.output_files (pre ++ (node_id, v) :: post) = inl e.
Proof.
  intros Hv. induction pre as [|[id0 v0] pre [e IH]]; cbn [app ComfyUI.output_files].
  - destruct v; try discriminate; cbn; eauto.
  - rewrite IH.
    destruct (ComfyUI.section_files "images" "image" id0 v0); [eauto|].
    destruct (ComfyUI.section_files "audio" "audio" id0 v0); eauto.
Qed.

(** X19.  For a completed job whose nodes are well formed,
    [get_output_files] returns one descriptor for every file listed
    under "images" or "audio", node by node in the order of the result,
    the pictures of a node before its sounds, and logs nothing. *)
Theorem get_output_files_lists_all (job : string) (w : World)
        (nodes : list (string * json)) :
  let rq := ComfyUI.history_request base_url (JStr job) in
  let t := now w + Z.max 0 (delay env (count w)) in
  result_structure job (serve env (count w) t rq) nodes ->
  well_formed nodes = true ->
  ComfyUI.get_output_files env base_url (JStr job) w
  = (Ret (flat_map (fun node =>
                      map (describe "image") (section_of "images" node)
                      ++ map (describe "audio") (section_of "audio" node))%list nodes),
     mkWorld t (S (count w)) (EvRequest rq (serve env (count w) t rq) (now w) t :: trace w))
  /\
  List.length (flat_map (fun node =>
                      map (describe "image") (section_of "images" node)
                      ++ map (describe "audio") (section_of "audio" node))%list nodes)
  = (List.length (entries_under "images" nodes)
     + List.length (entries_under "audio" nodes))%nat.
Proof.
  cbv zeta. intros (r & h & record & Hrp & Hok & Hbody & Hrec & Hout) Hwf. split.
  - unfold ComfyUI.get_output_files, ComfyUI.get_history, http, raise_for_status. run.
    rewrite Hrp. run. rewrite Hok. run. rewrite Hbody. run.
    cbn [py_in py_getitem]. unfold dict_mem. rewrite Hrec. run.
    cbn [py_get]. rewrite Hout. run. cbn [py_items]. run.
    rewrite (output_files_typed nodes Hwf). reflexivity.
  - rewrite (Permutation_length (flat_map_split _ _ nodes)), length_app,
      !flat_map_describe, !length_map. reflexivity.
Qed.

(** X20.  One node whose output is [None], a [bool] or a number makes
    [get_output_files] give up: the error is logged and the list that
    comes back is empty, whatever files the other nodes list. *)
Theorem scalar_node_discards_all (job : string) (w : World)
        (pre post : list (string * json)) (node_id : string) (v : json) :
  let rq := ComfyUI.history_request base_url (JStr job) in
  let t := now w + Z.max 0 (delay env (count w)) in
  result_structure job (serve env (count w) t rq) (pre ++ (node_id, v) :: post) ->
  scalar v = true ->
  exists e,
    ComfyUI.get_output_files env base_url (JStr job) w
    = (Ret [],
       mkWorld t (S (count w))
               (EvLog ERROR ("Failed to get output files: " ++ exn_msg e)
                  :: EvRequest rq (serve env (count w) t rq) (now w) t :: trace w)).
Proof.
  cbv zeta. intros (r & h & record & Hrp & Hok & Hbody & Hrec & Hout) Hv.
  destruct (output_files_scalar pre post node_id v Hv) as [e He]. exists e.
  unfold ComfyUI.get_output_files, ComfyUI.get_history, http, raise_for_status. run.
  rewrite Hrp. run. rewrite Hok. run. rewrite Hbody. run.
  cbn [py_in py_getitem]. unfold dict_mem. rewrite Hrec. run.
  cbn [py_get]. rewrite Hout. run. cbn [py_items]. run.
  rewrite He. reflexivity.
Qed.

End OutputList.

(* ===================================================================== *)
(** ** A failed listing reads as an empty one *)
(* ===================================================================== *)

Section EmptyListings.
Variable env : Env.

(** X21.  When the server passes the health check but the request for
    the queue then fails (no connection, an error status or a body that
    is no JSON), [get_queue] logs the failure and hands back an empty
    dict, and [get_queue_status] reports an idle queue: 0 running and 0
    pending, not an error. *)
Theorem queue_failure_reads_as_idle (COMFYUI_BASE_URL : string) (w : World) :
  let base := rstrip_slash COMFYUI_BASE_URL in
  let probe := GET (base ++ "/system_stats") [] in
  let rq := GET (base ++ "/queue") [] in
  let t1 := now w + Z.max 0 (delay env (count w)) in
  let t2 := t1 + Z.max 0 (delay env (S (count w))) in
  let rp := serve env (S (count w)) t2 rq in
  forall r, serve env (count w) t1 probe = Reply r ->
  status_code r = 200 ->
  failed_poll rp = true ->
  exists e,
    ComfyUIQueue.get_queue_status env COMFYUI_BASE_URL w
    = (Ret (mkText ("ComfyUI Queue Status:" ++ newline
                    ++ "Running: 0 workflows" ++ newline
                    ++ "Pending: 0 workflows" ++ newline)),
       mkWorld t2 (S (S (count w)))
               (EvLog ERROR ("Failed to get queue: " ++ exn_msg e)
                  :: EvRequest rq rp t1 t2
                  :: EvRequest probe (Reply r) (now w) t1 :: trace w)).
Proof.
  cbv zeta. intros r Hprobe Hstatus Hfail.
  unfold ComfyUIQueue.get_queue_status, ComfyUI.check_health, ComfyUIQueue.get_queue,
    ComfyUIQueue.base_url, http, raise_for_status.
  run. rewrite Hprobe. run. rewrite Hstatus, Z.eqb_refl. run.
  destruct (serve env (S (count w)) _ _) as [e|r2]; run.
  - exists e. reflexivity.
  - cbn [failed_poll] in Hfail. destruct (is_success r2); run.
    + destruct (json_body r2) as [e|j]; [|discriminate]. run.
      exists e. reflexivity.
    + eexists. reflexivity.
Qed.

(** X22.  When the server passes the health check but the request for
    the models then fails, [list_models] logs the failure and hands back
    an empty list, and the tools report "No models found", not an error:
    for UVR5 and for LocalAI alike. *)
Theorem models_failure_reads_as_none (BASE_URL : string) (w : World) :
  let base := rstrip_slash BASE_URL in
  let t1 := now w + Z.max 0 (delay env (count w)) in
  let t2 := t1 + Z.max 0 (delay env (S (count w))) in
  forall r, status_code r = 200 ->
  (serve env (count w) t1 (GET (base ++ "/health") []) = Reply r ->
   failed_poll (serve env (S (count w)) t2 (GET (base ++ "/api/models") [])) = true ->
   exists w',
     UVR5Models.list_uvr5_models env BASE_URL w
     = (Ret (mkText "No models found on UVR5 server"), w') /\
     logged is_error (trace w')
     <> logged is_error (trace w)) /\
  (serve env (count w) t1 (GET (base ++ "/readyz") []) = Reply r ->
   failed_poll (serve env (S (count w)) t2 (GET (base ++ "/v1/models") [])) = true ->
   exists w',
     LocalAIServer.list_localai_models env BASE_URL w
     = (Ret (mkText "No models found on LocalAI server"), w') /\
     logged is_error (trace w')
     <> logged is_error (trace w)).
Proof.
  cbv zeta. intros r Hstatus.
  assert (Hlonger : forall (m : string) (l : list string), m :: l <> l).
  { intros m l E. apply (f_equal (@List.length string)) in E. cbn in E. lia. }
  split; intros Hprobe Hfail.
  - unfold UVR5Models.list_uvr5_models, UVR5.check_health, UVR5Models.list_models,
      UVR5Models.base_url, http, raise_for_status.
    run. rewrite Hprobe. run. rewrite Hstatus, Z.eqb_refl. run.
    destruct (serve env (S (count w)) _ _) as [e|r2]; run.
    + eexists. split; [reflexivity|]. cbn. apply Hlonger.
    + cbn [failed_poll] in Hfail. destruct (is_success r2); run.
      * destruct (json_body r2) as [e|j]; [|discriminate]. run.
        eexists. split; [reflexivity|]. cbn. apply Hlonger.
      * eexists. split; [reflexivity|]. cbn. apply Hlonger.
  - unfold LocalAIServer.list_localai_models, LocalAI.check_health, LocalAI.list_models,
      LocalAIServer.base_url, http, raise_for_status.
    run. rewrite Hprobe. run. rewrite Hstatus, Z.eqb_refl. run.
    destruct (serve env (S (count w)) _ _) as [e|r2]; run.
    + eexists. split; [reflexivity|]. cbn. apply Hlonger.
    + cbn [failed_poll] in Hfail. destruct (is_success r2); run.
      * destruct (json_body r2) as [e|j]; [|discriminate]. run.
        eexists. split; [reflexivity|]. cbn. apply Hlonger.
      * eexists. split; [reflexivity|]. cbn. apply Hlonger.
Qed.

End EmptyListings.

(* ===================================================================== *)
(** ** Where the LocalAI tools write *)
(* ===================================================================== *)

Section Confined.
Variable env : Env.

(** Sequencing after a step whose result is known to satisfy [Q]. *)
Lemma preserves_bind_with {A B} (I : list event -> Prop) (Q : A -> Prop)
      (m : M A) (k : A -> M B) :
  (forall w, I (trace w) ->
             match m w with
             | (Ret a, w') => I (trace w') /\ Q a
             | (_, w') => I (trace w')
             end) ->
  (forall a, Q a -> preserves I (k a)) ->
  preserves I (bind m k).
Proof.
  intros Hm Hk w H. unfold bind. specialize (Hm w H).
  destruct (m w) as [[a|e| |] w']; cbn in *; auto.
  destruct Hm as [HI HQ]. now apply Hk.
Qed.

(** A name without a separator, joined to a directory, is one more
    component. *)
Lemma single_component (dir name : string) :
  contains_char "/" name = false -> contains_char "_" name = true ->
  directly_inside dir (path_join dir name).
Proof.
  intros Hname Hus. exists name. split; [|split; [exact Hname|]].
  - rewrite (components_path_join _ _ (prefix_slash _ Hname)). f_equal.
    apply components_plain; [exact Hname| |]; intros E; rewrite E in Hus;
      discriminate.
  - intros E. rewrite E in Hus. discriminate.
Qed.

Lemma make_output_file_component (now : LocalAIUtils.datetime)
      (dir prefix content output_path extension : string) :
  contains_char "/" prefix = false -> contains_char "/" extension = false ->
  directly_inside dir
    (path_join dir (LocalAIUtils.make_output_file now prefix content output_path
                                                  extension)).
Proof.
  intros Hp He.
  destruct (safe_content_word content) as [Hword _].
  assert (Hslug : contains_char "/" (LocalAIUtils.safe_content content) = false)
    by (eapply all_chars_excludes; [exact Hword|reflexivity]).
  assert (Hts : contains_char "/" (LocalAIUtils.strftime now) = false)
    by (eapply all_chars_excludes; [apply strftime_word|reflexivity]).
  apply single_component; unfold LocalAIUtils.make_output_file;
    destruct (negb _); rewrite !contains_char_app.
  - now rewrite Hp, He, Hts, Hslug.
  - now rewrite Hp, He, Hts.
  - cbn. now rewrite orb_true_r.
  - cbn. now rewrite orb_true_r.
Qed.

Lemma confined_cons (dir : string) (e : event) (tr : list event) :
  confined dir e -> Forall (confined dir) tr -> Forall (confined dir) (e :: tr).
Proof. now constructor. Qed.

Lemma confined_logger (dir : string) (lvl : level) (msg : string) :
  preserves (Forall (confined dir)) (logger lvl msg).
Proof. intros w H. cbn. now apply confined_cons. Qed.

Lemma confined_http (dir : string) (rq : request) :
  preserves (Forall (confined dir)) (http env rq).
Proof.
  intros w H. unfold http. destruct (serve env _ _ _); cbn; now apply confined_cons.
Qed.

Lemma confined_mkdir (dir : string) : preserves (Forall (confined dir)) (mkdir env dir).
Proof.
  intros w H. unfold mkdir. destruct (mkdir_error env _ _); cbn; auto.
  now apply confined_cons.
Qed.

Lemma confined_open_wb (dir p : string) :
  directly_inside dir p -> preserves (Forall (confined dir)) (open_wb env p).
Proof.
  intros Hp w H. unfold open_wb.
  destruct (open_error env _ _); cbn; [exact H|now apply confined_cons].
Qed.

Lemma confined_write (dir p d : string) :
  directly_inside dir p -> preserves (Forall (confined dir)) (write env p d).
Proof.
  intros Hp w H. unfold write.
  destruct (write_error env _ _); cbn; [exact H|now apply confined_cons].
Qed.

Variable resolve : string -> exn + string.
Variable localtime : Z -> LocalAIUtils.datetime.

(** "Save to file" with a prefix and an extension that hold no separator
    stays with the resolved output directory; when the directory cannot
    be resolved nothing is touched. *)
Lemma save_audio_confined
      (prefix content output_directory extension audio_data dir : string) :
  (forall d, resolve output_directory = inr d -> d = dir) ->
  contains_char "/" prefix = false -> contains_char "/" extension = false ->
  preserves (Forall (confined dir))
            (LocalAIServer.save_audio env resolve localtime prefix content
                                      output_directory extension audio_data).
Proof.
  intros Hdir Hp He. unfold LocalAIServer.save_audio.
  apply (preserves_bind_with _ (fun p => p = dir)).
  { intros w H. unfold LocalAIServer.make_output_path, mkdir. run.
    destruct (resolve output_directory) as [e|d]; run; [exact H|].
    rewrite (Hdir d eq_refl).
    destruct (mkdir_error env _ _); cbn; [exact H|].
    split; [|reflexivity]. now apply confined_cons. }
  intros output_path ->.
  apply (preserves_bind_with _
           (fun name => exists t, name = LocalAIUtils.make_output_file
                                           t prefix content dir extension)).
  { intros w H. cbn. split; [exact H|eauto]. }
  intros name [t ->]. cbv zeta.
  assert (Hin : directly_inside dir
                  (path_join dir
                     (LocalAIUtils.make_output_file t prefix content dir extension)))
    by now apply make_output_file_component.
  apply preserves_bind; [apply confined_mkdir|intros _].
  apply preserves_bind; [now apply confined_open_wb|intros _].
  apply preserves_bind; [now apply confined_write|intros _].
  apply preserves_ret.
Qed.

(** X23.  The LocalAI tools keep to the output directory.  Whatever the
    prompt, [generate_audio] makes no directory but the resolved output
    directory and opens and writes no file but one directly inside it;
    so does [text_to_speech] for every text, as long as the response
    format holds no path separator.  When the output directory cannot be
    resolved, nothing is touched. *)
Theorem localai_files_confined
        (LOCALAI_BASE_URL LOCALAI_TTS_MODEL LOCALAI_AUDIO_MODEL : string)
        (text voice output_directory : string) (model : option string)
        (response_format : string) (speed duration temperature top_k top_p : json)
        (dir : string) (w : World) :
  (forall d, resolve output_directory = inr d -> d = dir) ->
  let fine := Forall (confined dir) in
  fine (trace w) ->
  fine (trace (snd (LocalAIServer.generate_audio env LOCALAI_BASE_URL
                      LOCALAI_AUDIO_MODEL resolve localtime text output_directory model
                      duration temperature top_k top_p w))) /\
  (contains_char "/" response_format = false ->
   fine (trace (snd (LocalAIServer.text_to_speech env LOCALAI_BASE_URL
                       LOCALAI_TTS_MODEL resolve localtime text voice output_directory
                       model response_format speed w)))).
Proof.
  cbv zeta. intros Hdir H.
  pose proof (confined_logger dir) as Hlog.
  pose proof (confined_http dir) as Hreq.
  split; [|intros Hfmt].
  - revert w H.
    change (preserves (Forall (confined dir))
              (LocalAIServer.generate_audio env LOCALAI_BASE_URL LOCALAI_AUDIO_MODEL
                 resolve localtime text output_directory model duration temperature
                 top_k top_p)).
    unfold LocalAIServer.generate_audio.
    destruct (text =? EmptyString)%string; [apply preserves_ret|].
    apply preserves_bind; [kept|intros healthy].
    destruct (negb healthy); [apply preserves_ret|].
    apply preserves_try; [|intros e; kept]. cbv zeta.
    apply preserves_bind; [kept|intros audio_data].
    apply preserves_bind; [now apply save_audio_confined|intros file_path].
    apply preserves_ret.
  - revert w H.
    change (preserves (Forall (confined dir))
              (LocalAIServer.text_to_speech env LOCALAI_BASE_URL LOCALAI_TTS_MODEL
                 resolve localtime text voice output_directory model response_format
                 speed)).
    unfold LocalAIServer.text_to_speech.
    destruct (text =? EmptyString)%string; [apply preserves_ret|].
    apply preserves_bind; [kept|intros healthy].
    destruct (negb healthy); [apply preserves_ret|].
    apply preserves_try; [|intros e; kept]. cbv zeta.
    apply preserves_bind; [kept|intros audio_data].
    apply preserves_bind; [now apply save_audio_confined|intros file_path].
    apply preserves_ret.
Qed.

End Confined.

(* ===================================================================== *)
(** ** Fetching bytes *)
(* ===================================================================== *)

Section Fetching.
Variable env : Env.
Variable base_url : string.

(** The shape the four calls share. *)
Lemma fetch_run (rq : request) (what : string) (failure : string -> string) (w : World) :
  let t := now w + Z.max 0 (delay env (count w)) in
  let rp := serve env (count w) t rq in
  exists logs,
    Forall is_log logs /\
    try_except
      (response <- http env rq ;;
       raise_for_status response ;;;
       ret (content response))
      (fun e =>
         logger ERROR (what ++ exn_msg e) ;;;
         raise (Exception (failure (exn_msg e)))) w
    = (fetched failure rp,
       mkWorld t (S (count w)) (logs ++ EvRequest rq rp (now w) t :: trace w)).
Proof.
  cbv zeta. unfold http, raise_for_status, fetched. run.
  destruct (serve env _ _ _) as [e|r]; run.
  - eexists [_]. split; [|reflexivity]. repeat constructor.
  - destruct (is_success r); run.
    + exists []. split; [constructor|reflexivity].
    + eexists [_]. split; [|reflexivity]. repeat constructor.
Qed.

(** X24.  The calls that fetch bytes fail hard.  Each makes exactly one
    request; it returns the body of the reply only when the status is
    2xx, and otherwise (no connection, or any other status) raises an
    [Exception] that names what failed, after logging it.
    [download_file] sends the "subfolder" parameter only when the
    descriptor has a non-empty one. *)
Theorem byte_fetchers_fail_hard (w : World) :
  let t := now w + Z.max 0 (delay env (count w)) in
  let ran (rq : request) (failure : string -> string)
          (result : outcome string * World) :=
    exists logs,
      Forall is_log logs /\
      result = (fetched failure (serve env (count w) t rq),
                mkWorld t (S (count w))
                        (logs ++ EvRequest rq (serve env (count w) t rq) (now w) t
                              :: trace w)) in
  (forall filename subfolder file_type,
      ran (GET (base_url ++ "/view")
               ([("filename", filename); ("type", JStr file_type)]
                ++ (if truthy subfolder then [("subfolder", subfolder)] else []))%list)
          (fun cause => "Failed to download file " ++ py_str filename ++ ": " ++ cause)
          (ComfyUI.download_file env base_url filename subfolder file_type w)) /\
  (forall job_id stem_type,
      ran (GET (base_url ++ "/api/download/" ++ py_str job_id ++ "/" ++ stem_type) [])
          (fun cause => "Failed to download " ++ stem_type ++ " stem: " ++ cause)
          (UVR5.download_stem env base_url job_id stem_type w)) /\
  (forall text model voice response_format speed,
      ran (LocalAI.speech_request base_url text model voice response_format speed)
          (fun cause => "Failed to generate speech: " ++ cause)
          (LocalAI.text_to_speech env base_url text model voice response_format
                                  speed w)) /\
  (forall prompt model duration temperature top_k top_p,
      ran (LocalAI.generation_request base_url prompt model duration temperature
                                      top_k top_p)
          (fun cause => "Failed to generate audio: " ++ cause)
          (LocalAI.generate_audio env base_url prompt model duration temperature
                                  top_k top_p w)).
Proof.
  cbv zeta. repeat split; intros.
  - exact (fetch_run _ "Failed to download file: " _ w).
  - exact (fetch_run _ "Failed to download stem: " _ w).
  - exact (fetch_run _ "TTS generation failed: " _ w).
  - exact (fetch_run _ "Audio generation failed: " _ w).
Qed.

End Fetching.

(* ===================================================================== *)
(** ** Giving up early, and the way through *)
(* ===================================================================== *)

Section EarlyExits.
Variable env : Env.

(** X25.  A tool that has nothing to work on stops after the health
    check.  [execute_workflow] without a workflow path (none given, none
    configured) and [separate_audio] for a file that does not exist
    answer with the error text; the probe is the only request they have
    made, and nothing is read, uploaded or written.  [text_to_speech]
    and [generate_audio] turn an empty text down before the probe,
    without any effect at all. *)
Theorem nothing_to_work_on (BASE_URL : string) (w : World) (r : response) :
  let base := rstrip_slash BASE_URL in
  let t := now w + Z.max 0 (delay env (count w)) in
  let after (probe : request) :=
    mkWorld t (S (count w)) (EvRequest probe (Reply r) (now w) t :: trace w) in
  status_code r = 200 ->
  (forall COMFYUI_WORKFLOW_PATH fuel workflow_path prompt_text output_directory
          max_wait workflow_params,
      serve env (count w) t (GET (base ++ "/system_stats") []) = Reply r ->
      ComfyUIServer.or_default workflow_path COMFYUI_WORKFLOW_PATH = EmptyString ->
      ComfyUIServer.execute_workflow env BASE_URL COMFYUI_WORKFLOW_PATH fuel
        workflow_path prompt_text output_directory max_wait workflow_params w
      = (Ret (mkText ("Error: No workflow path provided. Set COMFYUI_WORKFLOW_PATH "
                      ++ "or provide workflow_path parameter")),
         after (GET (base ++ "/system_stats") []))) /\
  (forall audio_file_path model_name output_directory output_format
          extract_vocals extract_instrumental,
      serve env (count w) t (GET (base ++ "/health") []) = Reply r ->
      exists_file env audio_file_path = false ->
      UVR5Server.separate_audio env BASE_URL audio_file_path model_name
        output_directory output_format extract_vocals extract_instrumental w
      = (Ret (mkText ("Error: File not found: " ++ audio_file_path)),
         after (GET (base ++ "/health") []))) /\
  (forall TTS_MODEL AUDIO_MODEL resolve localtime voice output_directory model
          response_format speed duration temperature top_k top_p,
      LocalAIServer.text_to_speech env BASE_URL TTS_MODEL resolve localtime
        EmptyString voice output_directory model response_format speed w
      = (Ret (mkText "Error: Text is required"), w) /\
      LocalAIServer.generate_audio env BASE_URL AUDIO_MODEL resolve localtime
        EmptyString output_directory model duration temperature top_k top_p w
      = (Ret (mkText "Error: Prompt is required"), w)).
Proof.
  cbv zeta. intros Hstatus. split; [|split]; intros; [| |split; reflexivity].
  - unfold ComfyUIServer.execute_workflow, ComfyUI.check_health,
      ComfyUIServer.base_url, http.
    run. rewrite H. run. rewrite Hstatus, Z.eqb_refl. run. now rewrite H0.
  - unfold UVR5Server.separate_audio, UVR5.check_health, UVR5Server.base_url, http.
    run. rewrite H. run. rewrite Hstatus, Z.eqb_refl. run. now rewrite H0.
Qed.

(** X26.  The way through [text_to_speech].  For a text that is not
    empty, a server that passes the health check and answers the speech
    request with a 2xx status, an output directory that resolves to
    [dir] and a file system that takes every write, the tool makes
    [dir], writes exactly the bytes of the reply to the path [pathlib]
    prints for [dir / name], where [name] is what [make_output_file]
    gives at the instant the reply came in, and reports that path.  When
    the output directory cannot be resolved, the tool answers with the
    error instead and touches nothing. *)
Theorem text_to_speech_saves_reply
        (LOCALAI_BASE_URL LOCALAI_TTS_MODEL : string)
        (resolve : string -> exn + string) (localtime : Z -> LocalAIUtils.datetime)
        (text voice output_directory : string) (model : option string)
        (response_format : string) (speed : json) (w : World) (r0 r : response) :
  let base := rstrip_slash LOCALAI_BASE_URL in
  let model_to_use := ComfyUIServer.or_default model LOCALAI_TTS_MODEL in
  let probe := GET (base ++ "/readyz") [] in
  let post := LocalAI.speech_request base text model_to_use voice response_format
                                     speed in
  let t1 := now w + Z.max 0 (delay env (count w)) in
  let t2 := t1 + Z.max 0 (delay env (S (count w))) in
  let run := LocalAIServer.text_to_speech env LOCALAI_BASE_URL LOCALAI_TTS_MODEL
               resolve localtime text voice output_directory model response_format
               speed w in
  let requests_made := [EvRequest post (Reply r) t1 t2;
                        EvRequest probe (Reply r0) (now w) t1] in
  text <> EmptyString ->
  serve env (count w) t1 probe = Reply r0 -> status_code r0 = 200 ->
  serve env (S (count w)) t2 post = Reply r -> is_success r = true ->
  (forall dir,
      resolve output_directory = inr dir ->
      disk_ok env ->
      let path := path_join dir (LocalAIUtils.make_output_file
                                   (localtime t2) "localai_tts" text dir
                                   response_format) in
      run = (Ret (mkText ("Success. Audio saved to: " ++ path ++ newline
                          ++ "Voice: " ++ voice ++ ", Model: " ++ model_to_use)),
             mkWorld t2 (6 + count w)
                     (EvWrite path (content r) :: EvOpen path :: EvMkdir dir
                        :: EvMkdir dir :: requests_made ++ trace w)%list)) /\
  (forall e,
      resolve output_directory = inl e ->
      run = (Ret (mkText ("Error: " ++ exn_msg e)),
             mkWorld t2 (2 + count w)
                     (EvLog ERROR ("Text-to-speech failed: " ++ exn_msg e)
                        :: requests_made ++ trace w)%list)).
Proof.
  cbv zeta. intros Htext Hprobe Hstatus Hpost Hok.
  split.
  - intros dir Hdir Hdisk.
    unfold LocalAIServer.text_to_speech.
    destruct (String.eqb_spec text EmptyString) as [|_]; [contradiction|].
    unfold LocalAI.check_health, LocalAI.text_to_speech, LocalAIServer.save_audio,
      LocalAIServer.make_output_path, LocalAIServer.make_output_file,
      LocalAIServer.base_url, http, raise_for_status, mkdir, open_wb, write.
    run. rewrite Hprobe. run. rewrite Hstatus, Z.eqb_refl. run.
    rewrite Hpost. run. rewrite Hok. run. rewrite Hdir. run.
    rewrite !(proj1 (Hdisk _ _)). run.
    rewrite (proj1 (proj2 (Hdisk _ _))). run.
    rewrite (proj2 (proj2 (Hdisk _ _))). reflexivity.
  - intros e Hdir.
    unfold LocalAIServer.text_to_speech.
    destruct (String.eqb_spec text EmptyString) as [|_]; [contradiction|].
    unfold LocalAI.check_health, LocalAI.text_to_speech, LocalAIServer.save_audio,
      LocalAIServer.make_output_path, LocalAIServer.make_output_file,
      LocalAIServer.base_url, http, raise_for_status, mkdir, open_wb, write.
    run. rewrite Hprobe. run. rewrite Hstatus, Z.eqb_refl. run.
    rewrite Hpost. run. rewrite Hok. run. rewrite Hdir. run. reflexivity.
Qed.

End EarlyExits.

Section InProgress.
Variable env : Env.

(** X27.  [separate_audio] asks for the result of a queued job once, and
    does not wait.  When that one request fails (no connection, an error
    status or a body that is no JSON), the failure is logged and the tool
    answers "Separation in progress": a failed poll reads as a job that
    is still running.  Nothing is downloaded or written. *)
Theorem failed_result_reads_as_in_progress
        (UVR5_BASE_URL audio_file_path model_name output_directory output_format : string)
        (extract_vocals extract_instrumental : bool) (w : World)
        (r0 r1 : response) (audio_file : string) (j job_id : json) :
  let base := rstrip_slash UVR5_BASE_URL in
  let probe := GET (base ++ "/health") [] in
  let upload := POST_files (base ++ "/api/separate") audio_file
                           [("model_name", model_name); ("output_format", output_format);
                            ("stem_naming", "standard")] in
  let poll := UVR5.result_request base job_id in
  let t1 := now w + Z.max 0 (delay env (count w)) in
  let t2 := t1 + Z.max 0 (delay env (S (count w))) in
  let t3 := t2 + Z.max 0 (delay env (S (S (count w)))) in
  let rp := serve env (S (S (count w))) t3 poll in
  serve env (count w) t1 probe = Reply r0 -> status_code r0 = 200 ->
  exists_file env audio_file_path = true ->
  read_bytes env audio_file_path = inr audio_file ->
  serve env (S (count w)) t2 upload = Reply r1 -> is_success r1 = true ->
  json_body r1 = inr j -> py_get j "job_id" JNull = inr job_id ->
  truthy job_id = true ->
  failed_poll rp = true ->
  exists e,
    UVR5Server.separate_audio env UVR5_BASE_URL audio_file_path model_name
      output_directory output_format extract_vocals extract_instrumental w
    = (Ret (mkText ("Separation in progress. Job ID: " ++ py_str job_id ++ newline
                    ++ "Check status later.")),
       mkWorld t3 (3 + count w)
               (EvLog ERROR ("Failed to get separation result: " ++ exn_msg e)
                  :: EvRequest poll rp t2 t3
                  :: EvLog INFO ("Separation job queued with ID: " ++ py_str job_id)
                  :: EvRequest upload (Reply r1) t1 t2
                  :: EvRequest probe (Reply r0) (now w) t1 :: trace w)).
Proof.
  cbv zeta. intros Hprobe Hstatus Hexists Hread Hup Hok Hbody Hid Htruthy Hfail.
  unfold UVR5Server.separate_audio, UVR5.check_health, UVR5.separate_audio,
    UVR5.get_separation_result, UVR5Server.base_url, http, raise_for_status.
  run. rewrite Hprobe. run. rewrite Hstatus, Z.eqb_refl. run.
  rewrite Hexists, Hread. run. rewrite Hup. run. rewrite Hok. run.
  rewrite Hbody. run. rewrite Hid. run. rewrite Htruthy. run.
  destruct (serve env (S (S (count w))) _ _) as [e|r2]; run.
  - exists e. reflexivity.
  - cbn [failed_poll] in Hfail. destruct (is_success r2); run.
    + destruct (json_body r2) as [e|j2]; [|discriminate]. run.
      exists e. reflexivity.
    + eexists. reflexivity.
Qed.

End InProgress.

(* ===================================================================== *)
(** ** Where the ComfyUI and UVR5 tools write *)
(* ===================================================================== *)

Section ConfinedDownloads.
Variable env : Env.

Lemma plain_component (dir name : string) :
  plain_name name = true -> directly_inside dir (path_join dir name).
Proof.
  unfold plain_name.
  intros [[[Hslash%negb_true_iff He%negb_true_iff]%andb_prop
             Hdot%negb_true_iff]%andb_prop Hdots%negb_true_iff]%andb_prop.
  exists name. split; [|split; [exact Hslash|]].
  - rewrite (components_path_join _ _ (prefix_slash _ Hslash)). f_equal.
    unfold components. rewrite (split_on_whole _ _ Hslash). cbn [filter].
    now rewrite He, Hdot.
  - intros E. rewrite E in Hdots. discriminate.
Qed.

(** X28.  The download loop of [execute_workflow] keeps to the output
    directory as long as the server names its files plainly: when the
    file name of every descriptor that has a string for a name is a
    single path component (no separator, not empty, neither [.] nor
    [..]), every file the loop opens or writes is directly inside the
    output directory.  A descriptor whose name is no string is logged as
    a failure and writes nothing. *)
Theorem save_all_confined (COMFYUI_BASE_URL output_path : string)
        (files : list ComfyUI.descriptor) (w : World) :
  forallb plainly_named files = true ->
  Forall (confined output_path) (trace w) ->
  Forall (confined output_path)
         (trace (snd (ComfyUIServer.save_all env COMFYUI_BASE_URL output_path files w))).
Proof.
  intros Hplain. revert w.
  change (preserves (Forall (confined output_path))
            (ComfyUIServer.save_all env COMFYUI_BASE_URL output_path files)).
  pose proof (confined_logger output_path) as Hlog.
  pose proof (confined_http env output_path) as Hreq.
  induction files as [|file_info rest IH]; cbn [ComfyUIServer.save_all];
    [apply preserves_ret|].
  cbn [forallb] in Hplain. apply andb_prop in Hplain as [Hname Hrest].
  apply preserves_bind; [|intros r; apply preserves_bind; [now apply IH|kept]].
  unfold ComfyUIServer.save_one.
  apply preserves_try; [|intros e; kept].
  apply preserves_bind; [kept|intros file_data].
  apply preserves_bind_lift. intros save_path Hpath.
  assert (Hin : directly_inside output_path save_path).
  { unfold plainly_named in Hname. unfold path_div in Hpath.
    destruct (ComfyUI.d_filename file_info); try discriminate.
    injection Hpath as <-. now apply plain_component. }
  apply preserves_bind; [now apply confined_open_wb|intros _].
  apply preserves_bind; [now apply confined_write|intros _].
  kept.
Qed.

Lemma split_on_pieces (sep : ascii) (s : string) :
  Forall (fun piece => contains_char sep piece = false) (split_on sep s).
Proof.
  induction s as [|c s IH]; cbn [split_on]; [now repeat constructor|].
  destruct (Ascii.eqb c sep) eqn:E; [now constructor|].
  destruct (split_on sep s) as [|x l]; [now repeat constructor; cbn; rewrite E|].
  inversion IH as [|? ? Hx Hl]; subst. constructor; [|exact Hl].
  cbn. now rewrite E, Hx.
Qed.

Lemma path_name_no_slash (p : string) : contains_char "/" (path_name p) = false.
Proof.
  unfold path_name, components.
  pose proof (split_on_pieces "/" p) as H.
  induction (split_on "/" p) as [|x l IH]; [reflexivity|].
  inversion H as [|? ? Hx Hl]; subst. cbn [filter].
  destruct (negb (x =? EmptyString)%string && negb (x =? ".")%string); [|now apply IH].
  cbn [last]. destruct (filter _ l) eqn:E; [exact Hx|].
  now apply IH.
Qed.

Lemma substring_no_char (c : ascii) (n m : nat) (s : string) :
  contains_char c s = false -> contains_char c (substring n m s) = false.
Proof.
  revert n m. induction s as [|a s IH]; intros n m H; [now destruct n, m|].
  cbn in H. apply orb_false_elim in H as [Ha Hs].
  destruct n as [|n]; cbn.
  - destruct m as [|m]; [reflexivity|]. cbn. now rewrite Ha, IH.
  - now apply IH.
Qed.

Lemma path_stem_no_slash (p : string) : contains_char "/" (path_stem p) = false.
Proof.
  unfold path_stem. pose proof (path_name_no_slash p) as H.
  destruct (rfind "." (path_name p)) as [i|]; [|exact H].
  destruct (_ && _)%bool; [now apply substring_no_char|exact H].
Qed.

(** X29.  [separate_audio] keeps to the output directory: whatever the
    path of the audio file, as long as the output format holds no path
    separator the tool makes no directory but the output directory and
    opens and writes no file but [<stem>_vocals.<format>] and
    [<stem>_instrumental.<format>] directly inside it. *)
Theorem uvr5_files_confined
        (UVR5_BASE_URL audio_file_path model_name output_directory output_format : string)
        (extract_vocals extract_instrumental : bool) (w : World) :
  contains_char "/" output_format = false ->
  Forall (confined output_directory) (trace w) ->
  Forall (confined output_directory)
         (trace (snd (UVR5Server.separate_audio env UVR5_BASE_URL audio_file_path
                        model_name output_directory output_format
                        extract_vocals extract_instrumental w))).
Proof.
  intros Hfmt. revert w.
  change (preserves (Forall (confined output_directory))
            (UVR5Server.separate_audio env UVR5_BASE_URL audio_file_path model_name
               output_directory output_format extract_vocals extract_instrumental)).
  pose proof (confined_logger output_directory) as Hlog.
  pose proof (confined_http env output_directory) as Hreq.
  pose proof (confined_mkdir env output_directory) as Hmkdir.
  assert (Hin : forall stem,
             contains_char "/" stem = false ->
             directly_inside output_directory
               (path_join output_directory
                  (path_stem audio_file_path ++ "_" ++ stem ++ "." ++ output_format))).
  { intros stem Hstem. apply single_component; rewrite !contains_char_app.
    - now rewrite path_stem_no_slash, Hstem, Hfmt.
    - cbn. now rewrite orb_true_r. }
  pose proof (fun stem H => confined_open_wb env output_directory _ (Hin stem H)) as Ho.
  pose proof (fun stem H d => confined_write env output_directory _ d (Hin stem H)) as Hw.
  unfold UVR5Server.separate_audio, UVR5Server.save_stems, UVR5Server.save_stem.
  kept; first [now apply Ho | now apply Hw].
Qed.

End ConfinedDownloads.

(* ===================================================================== *)
(** ** Worked instances *)
(* ===================================================================== *)

(** The run of [execute_workflow_studio], and a look at the queue of the
    same server: the probe comes first. *)
Lemma comfyui_probe_first_witness :
  let probe := rstrip_slash "http://comfy/" ++ "/system_stats" in
  let fine := ordered (beyond_probe probe) true (healthy_probe probe) in
  fine (trace (snd (ComfyUIServer.execute_workflow studio "http://comfy/"
                      "/wf/music.json" 5 None (Some "rain on a tin roof") "/out" 10
                      None world0))) /\
  fine (trace (snd (ComfyUIQueue.get_queue_status studio "http://comfy/" world0))).
Proof.
  apply (comfyui_probe_first studio "http://comfy/" "/wf/music.json" 5 None
           (Some "rain on a tin roof") "/out" 10 None world0).
  exact I.
Defined.

Lemma uvr5_probe_first_witness :
  let probe := rstrip_slash "http://uvr5" ++ "/health" in
  let fine := ordered (beyond_probe probe) true (healthy_probe probe) in
  fine (trace (snd (UVR5Server.separate_audio stem_studio "http://uvr5"
                      "/music/song.mp3" "UVR-MDX-NET" "/out" "wav" true true world0))) /\
  fine (trace (snd (UVR5Models.list_uvr5_models stem_studio "http://uvr5" world0))).
Proof.
  apply (uvr5_probe_first stem_studio "http://uvr5" "/music/song.mp3" "UVR-MDX-NET"
           "/out" "wav" true true world0).
  exact I.
Defined.

Lemma localai_probe_first_witness :
  let probe := rstrip_slash "http://ai" ++ "/readyz" in
  let fine := ordered (beyond_probe probe) true (healthy_probe probe) in
  fine (trace (snd (LocalAIServer.text_to_speech voice_studio "http://ai" "tts-1"
                      (fun p => inr p) (fun _ => noon) "hello there" "alloy" "/out" None
                      "mp3" (JInt 1) world0))) /\
  fine (trace (snd (LocalAIServer.generate_audio voice_studio "http://ai" "musicgen"
                      (fun p => inr p) (fun _ => noon) "hello there" "/out" None
                      (JInt 10) (JInt 1) (JInt 250) (JInt 0) world0))) /\
  fine (trace (snd (LocalAIServer.list_localai_models voice_studio "http://ai" world0))).
Proof.
  apply (localai_probe_first voice_studio "http://ai" "tts-1" "musicgen"
           (fun p => inr p) (fun _ => noon) "hello there" "alloy" "/out" None "mp3"
           (JInt 1) (JInt 10) (JInt 1) (JInt 250) (JInt 0) world0).
  exact I.
Defined.

Lemma comfyui_disk_after_completion_witness :
  let tr := trace (snd (ComfyUIServer.execute_workflow studio "http://comfy/"
                          "/wf/music.json" 5 None (Some "rain on a tin roof") "/out" 10
                          None world0)) in
  since (calm (view_url "http://comfy") true) [] tr \/
  after_wait studio "http://comfy" 5 10 true [] tr.
Proof.
  exact (comfyui_disk_after_completion studio "http://comfy/" "/wf/music.json" 5 None
           (Some "rain on a tin roof") "/out" 10 None world0).
Defined.

Lemma uvr5_disk_after_result_witness :
  ordered no_request true (stems_ready (rstrip_slash "http://uvr5"))
    (trace (snd (UVR5Server.separate_audio stem_studio "http://uvr5"
                   "/music/song.mp3" "UVR-MDX-NET" "/out" "wav" true true world0))).
Proof.
  apply (uvr5_disk_after_result stem_studio "http://uvr5" "/music/song.mp3"
           "UVR-MDX-NET" "/out" "wav" true true world0).
  exact I.
Defined.

Lemma localai_disk_after_audio_witness :
  ordered no_request true
    (accepted_post (rstrip_slash "http://ai" ++ "/v1/audio/speech"))
    (trace (snd (LocalAIServer.text_to_speech voice_studio "http://ai" "tts-1"
                   (fun p => inr p) (fun _ => noon) "hello there" "alloy" "/out" None
                   "mp3" (JInt 1) world0))) /\
  ordered no_request true
    (accepted_post (rstrip_slash "http://ai" ++ "/v1/audio/generations"))
    (trace (snd (LocalAIServer.generate_audio voice_studio "http://ai" "musicgen"
                   (fun p => inr p) (fun _ => noon) "hello there" "/out" None
                   (JInt 10) (JInt 1) (JInt 250) (JInt 0) world0))).
Proof.
  destruct (localai_disk_after_audio voice_studio "http://ai" "tts-1" "musicgen"
              (fun p => inr p) (fun _ => noon) "hello there" "alloy" "/out" None "mp3"
              (JInt 1) (JInt 10) (JInt 1) (JInt 250) (JInt 0) world0) as [H1 H2].
  split; [apply H1|apply H2]; exact I.
Defined.

(** Ten seconds of waiting need five turns. *)
Lemma comfyui_tools_answer_witness :
  never_raises (ComfyUIServer.execute_workflow studio "http://comfy/"
                  "/wf/music.json" 5 None (Some "rain on a tin roof") "/out" 10 None) /\
  answers (ComfyUIServer.execute_workflow studio "http://comfy/"
             "/wf/music.json" 5 None (Some "rain on a tin roof") "/out" 10 None) /\
  answers (ComfyUIQueue.get_queue_status studio "http://comfy/").
Proof.
  destruct (comfyui_tools_answer studio "http://comfy/" "/wf/music.json" 5 None
              (Some "rain on a tin roof") "/out" 10 None) as (H1 & H2 & H3).
  split; [exact H1|split; [|exact H3]].
  apply H2; [vm_compute; lia|reflexivity].
Defined.

(** A job that is finished from the start. *)
Lemma finished_job_first_poll_witness :
  exists logs,
    Forall is_log logs /\
    ComfyUI.wait_for_completion (late_backend 3 0) "http://comfy" 1 (JStr "job-1") 10 2
                                world0
    = (Ret true,
       mkWorld 3 1
         (logs ++ EvRequest (ComfyUI.history_request "http://comfy" (JStr "job-1"))
                            (Reply (finished_history "job-1")) 0 3 :: [])).
Proof.
  apply (finished_job_first_poll (late_backend 3 0) "http://comfy" (JStr "job-1")
           0 10 2 world0); [lia|reflexivity].
Defined.

(** The same finished job, asked about with no time to wait. *)
Lemma no_time_no_poll_witness :
  ComfyUI.wait_for_completion (late_backend 3 0) "http://comfy" 1 (JStr "job-1") 0 2
                              world0
  = (Ret false,
     mkWorld 0 0 [EvLog WARNING "Workflow job-1 did not complete within 0s"]).
Proof.
  apply (no_time_no_poll (late_backend 3 0) "http://comfy" (JStr "job-1") 1 0 2 world0).
  lia.
Defined.

Lemma negative_interval_raises_witness :
  exists w',
    ComfyUI.wait_for_completion (status_backend 500) "http://comfy" 1 (JStr "job-1")
                                10 (-1) world0
    = (Raise (ValueError "sleep length must be non-negative"), w') /\
    requests (trace w') = 1%nat /\ now w' = 0.
Proof.
  apply (negative_interval_raises (status_backend 500) "http://comfy" (JStr "job-1")
           0 10 (-1) world0); [lia|lia|reflexivity].
Defined.

Lemma safe_content_clean_witness :
  clean_slug (LocalAIUtils.safe_content "hello_world") = true /\
  LocalAIUtils.safe_content "hello_world" = "hello_world" /\
  LocalAIUtils.safe_content (LocalAIUtils.safe_content "hello_world")
  = LocalAIUtils.safe_content "hello_world".
Proof.
  destruct (safe_content_clean "hello_world") as (H1 & H2 & H3).
  split; [exact H1|split; [|exact H3]]. apply H2. reflexivity.
Defined.

Lemma wordless_content_no_slug_witness :
  LocalAIUtils.safe_content "?! -- ..." = EmptyString /\
  LocalAIUtils.make_output_file noon "localai_tts" "?! -- ..." "/out" "mp3"
  = "localai_tts" ++ "_" ++ LocalAIUtils.strftime noon ++ "." ++ "mp3".
Proof.
  apply (wordless_content_no_slug noon "localai_tts" "?! -- ..." "/out" "mp3").
  reflexivity.
Defined.

Lemma base_url_normalised_witness :
  ComfyUIServer.base_url ("http://comfy" ++ "/") = ComfyUIServer.base_url "http://comfy" /\
  ComfyUIServer.base_url "http://comfy" = "http://comfy".
Proof.
  destruct (base_url_normalised "http://comfy") as (_ & H2 & H3 & _).
  split; [exact H2|]. apply H3. reflexivity.
Defined.

(** An override for node "5" and one for a node the template does not
    have; and the latter alone. *)
Lemma inject_params_frame_witness :
  (exists items',
      ComfyUIServer.inject_params
        [("5", JObj [("seconds", JInt 60)]); ("99", JObj [("seed", JInt 7)])]
        (JObj music_nodes) world0
      = (Ret (JObj items'), world0) /\
      map fst items' = map fst music_nodes /\
      dict_lookup "3" items' = dict_lookup "3" music_nodes) /\
  (exists items',
      ComfyUIServer.inject_params [("99", JObj [("seed", JInt 7)])]
                                  (JObj music_nodes) world0
      = (Ret (JObj items'), world0) /\
      items' = music_nodes).
Proof.
  split.
  - destruct (inject_params_frame
                [("5", JObj [("seconds", JInt 60)]); ("99", JObj [("seed", JInt 7)])]
                music_nodes world0 eq_refl) as (items' & Hrun & Hkeys & Hframe & _).
    exists items'. split; [exact Hrun|]. split; [exact Hkeys|].
    apply Hframe. intros [E|[E|[]]]; discriminate E.
  - destruct (inject_params_frame [("99", JObj [("seed", JInt 7)])]
                music_nodes world0 eq_refl) as (items' & Hrun & _ & _ & Hsame).
    exists items'. split; [exact Hrun|].
    apply Hsame. intros node_id [<-|[]]. reflexivity.
Defined.

Lemma inject_params_overrides_witness :
  exists items' fields' ins',
    ComfyUIServer.inject_params
      [("5", JObj [("seconds", JInt 60); ("batch_size", JInt 2)])]
      (JObj music_nodes) world0
    = (Ret (JObj items'), world0) /\
    dict_lookup "5" items' = Some (JObj fields') /\
    dict_lookup "inputs" fields' = Some (JObj ins') /\
    dict_lookup "seconds" ins' = Some (JInt 60) /\
    dict_lookup "batch_size" ins' = Some (JInt 2) /\
    dict_lookup "class_type" fields' = Some (JStr "EmptyLatentAudio") /\
    dict_lookup "3" items' = dict_lookup "3" music_nodes.
Proof.
  destruct (inject_params_overrides "5" [("seconds", JInt 60); ("batch_size", JInt 2)]
              music_nodes
              [("class_type", JStr "EmptyLatentAudio");
               ("inputs", JObj [("seconds", JInt 30)])]
              [("seconds", JInt 30)] world0 eq_refl eq_refl)
    as (items' & fields' & ins' & Hrun & Hnode & Hins & Hset & Hfields & Hitems).
  exists items', fields', ins'.
  split; [exact Hrun|]. split; [exact Hnode|]. split; [exact Hins|].
  split; [exact (Hset "seconds")|]. split; [exact (Hset "batch_size")|].
  split.
  - rewrite Hfields; [reflexivity|discriminate].
  - apply Hitems. discriminate.
Defined.

Lemma override_without_inputs_aborts_witness :
  ComfyUIServer.execute_workflow bare_studio "http://comfy" "/wf/bare.json" 5 None None
    "/out" 10 (Some override_text) world0
  = (Ret (mkText "Error: 'inputs'"),
     mkWorld 1 1
       [EvLog ERROR "Workflow execution failed: 'inputs'";
        EvRequest (GET "http://comfy/system_stats" [])
                  (Reply (mkResponse 200 (inr (JObj [])) "{}")) 0 1]).
Proof.
  apply (override_without_inputs_aborts bare_studio "http://comfy" "/wf/bare.json" 5
           None "/out" 10 override_text "3" (JObj []) [] bare_nodes
           [("class_type", JStr "CLIPTextEncode")] world0
           (mkResponse 200 (inr (JObj [])) "{}"));
    first [reflexivity | discriminate].
Defined.

Lemma get_output_files_lists_all_witness :
  ComfyUI.get_output_files mixed_backend "http://comfy" (JStr "job-1") world0
  = (Ret [ComfyUI.mkDescriptor "image" (JStr "cover.png") (JStr "art") "7";
          ComfyUI.mkDescriptor "audio" (JStr "song.flac") (JStr EmptyString) "9"],
     mkWorld 0 1
       [EvRequest (ComfyUI.history_request "http://comfy" (JStr "job-1"))
                  (serve mixed_backend 0 0
                         (ComfyUI.history_request "http://comfy" (JStr "job-1"))) 0 0]).
Proof.
  apply (get_output_files_lists_all mixed_backend "http://comfy" "job-1" world0
           mixed_outputs).
  - do 3 eexists. repeat split; reflexivity.
  - reflexivity.
Defined.

Lemma scalar_node_discards_all_witness :
  exists e,
    ComfyUI.get_output_files (history_backend "job-1" null_outputs) "http://comfy"
                             (JStr "job-1") world0
    = (Ret [],
       mkWorld 0 1
         [EvLog ERROR ("Failed to get output files: " ++ exn_msg e);
          EvRequest (ComfyUI.history_request "http://comfy" (JStr "job-1"))
                    (serve (history_backend "job-1" null_outputs) 0 0
                           (ComfyUI.history_request "http://comfy" (JStr "job-1")))
                    0 0]).
Proof.
  apply (scalar_node_discards_all (history_backend "job-1" null_outputs) "http://comfy"
           "job-1" world0
           [("9", JObj [("audio", JArr [JObj [("filename", JStr "song.flac")]])])]
           [] "11" JNull).
  - do 3 eexists. repeat split; reflexivity.
  - reflexivity.
Defined.

Lemma queue_failure_reads_as_idle_witness :
  exists e,
    ComfyUIQueue.get_queue_status (status_backend 200) "http://comfy" world0
    = (Ret (mkText ("ComfyUI Queue Status:" ++ newline
                    ++ "Running: 0 workflows" ++ newline
                    ++ "Pending: 0 workflows" ++ newline)),
       mkWorld 0 2
         [EvLog ERROR ("Failed to get queue: " ++ exn_msg e);
          EvRequest (GET "http://comfy/queue" []) (Reply (bare_reply 200)) 0 0;
          EvRequest (GET "http://comfy/system_stats" []) (Reply (bare_reply 200)) 0 0]).
Proof.
  apply (queue_failure_reads_as_idle (status_backend 200) "http://comfy" world0
           (bare_reply 200)); reflexivity.
Defined.

Lemma models_failure_reads_as_none_witness :
  (exists w',
      UVR5Models.list_uvr5_models (status_backend 200) "http://uvr5" world0
      = (Ret (mkText "No models found on UVR5 server"), w') /\
      logged is_error (trace w') <> logged is_error (trace world0)) /\
  (exists w',
      LocalAIServer.list_localai_models (status_backend 200) "http://uvr5" world0
      = (Ret (mkText "No models found on LocalAI server"), w') /\
      logged is_error (trace w') <> logged is_error (trace world0)).
Proof.
  destruct (models_failure_reads_as_none (status_backend 200) "http://uvr5" world0
              (bare_reply 200) eq_refl) as [H1 H2].
  split; [apply H1|apply H2]; reflexivity.
Defined.

Lemma localai_files_confined_witness :
  Forall (confined "/out")
         (trace (snd (LocalAIServer.generate_audio voice_studio "http://ai" "musicgen"
                        (fun p => inr p) (fun _ => noon) "../../etc/passwd" "/out" None
                        (JInt 10) (JInt 1) (JInt 250) (JInt 0) world0))) /\
  Forall (confined "/out")
         (trace (snd (LocalAIServer.text_to_speech voice_studio "http://ai" "tts-1"
                        (fun p => inr p) (fun _ => noon) "../../etc/passwd" "alloy" "/out"
                        None "mp3" (JInt 1) world0))).
Proof.
  assert (Hdir : forall d, @inr exn string "/out" = inr d -> d = "/out")
    by (intros d E; now injection E as <-).
  destruct (localai_files_confined voice_studio (fun p => inr p) (fun _ => noon)
              "http://ai" "tts-1" "musicgen" "../../etc/passwd" "alloy" "/out" None
              "mp3" (JInt 1) (JInt 10) (JInt 1) (JInt 250) (JInt 0) "/out" world0
              Hdir (Forall_nil _)) as [H1 H2].
  split; [exact H1|]. apply H2. reflexivity.
Defined.

Lemma nothing_to_work_on_witness :
  ComfyUIServer.execute_workflow (status_backend 200) "http://host/" EmptyString 5
    None (Some "rain") "/out" 10 None world0
  = (Ret (mkText ("Error: No workflow path provided. Set COMFYUI_WORKFLOW_PATH "
                  ++ "or provide workflow_path parameter")),
     mkWorld 0 1 [EvRequest (GET "http://host/system_stats" [])
                            (Reply (bare_reply 200)) 0 0]) /\
  UVR5Server.separate_audio (status_backend 200) "http://host/" "/music/none.mp3"
    "UVR-MDX-NET" "/out" "wav" true true world0
  = (Ret (mkText "Error: File not found: /music/none.mp3"),
     mkWorld 0 1 [EvRequest (GET "http://host/health" []) (Reply (bare_reply 200)) 0 0]).
Proof.
  destruct (nothing_to_work_on (status_backend 200) "http://host/" world0
              (bare_reply 200) eq_refl) as (H1 & H2 & _).
  split.
  - apply (H1 EmptyString 5%nat None (Some "rain") "/out" 10 None); reflexivity.
  - apply (H2 "/music/none.mp3" "UVR-MDX-NET" "/out" "wav" true true); reflexivity.
Defined.

Lemma text_to_speech_saves_reply_witness :
  LocalAIServer.text_to_speech voice_studio "http://ai/" "tts-1" (fun p => inr p)
    (fun _ => noon) "Hello, world!" "alloy" "/out" None "mp3" (JInt 1) world0
  = (Ret (mkText ("Success. Audio saved to: /out/localai_tts_Hello_world_20240307_120000.mp3"
                  ++ newline ++ "Voice: alloy, Model: tts-1")),
     mkWorld 2 6
       [EvWrite "/out/localai_tts_Hello_world_20240307_120000.mp3" "ID3-audio";
        EvOpen "/out/localai_tts_Hello_world_20240307_120000.mp3";
        EvMkdir "/out"; EvMkdir "/out";
        EvRequest (LocalAI.speech_request "http://ai" "Hello, world!" "tts-1" "alloy"
                                          "mp3" (JInt 1))
                  (Reply (mkResponse 200 (inl (ValueError "Expecting value"))
                                     "ID3-audio")) 1 2;
        EvRequest (GET "http://ai/readyz" [])
                  (Reply (mkResponse 200 (inl (ValueError "Expecting value")) "ok"))
                  0 1]) /\
  LocalAIServer.text_to_speech voice_studio "http://ai/" "tts-1"
    (fun _ => inl (mkExn "RuntimeError" "Could not determine home directory."))
    (fun _ => noon) "Hello, world!" "alloy" "~nobody/out" None "mp3" (JInt 1) world0
  = (Ret (mkText "Error: Could not determine home directory."),
     mkWorld 2 2
       [EvLog ERROR "Text-to-speech failed: Could not determine home directory.";
        EvRequest (LocalAI.speech_request "http://ai" "Hello, world!" "tts-1" "alloy"
                                          "mp3" (JInt 1))
                  (Reply (mkResponse 200 (inl (ValueError "Expecting value"))
                                     "ID3-audio")) 1 2;
        EvRequest (GET "http://ai/readyz" [])
                  (Reply (mkResponse 200 (inl (ValueError "Expecting value")) "ok"))
                  0 1]).
Proof.
  split.
  - destruct (text_to_speech_saves_reply voice_studio "http://ai/" "tts-1"
                (fun p => inr p) (fun _ => noon) "Hello, world!" "alloy" "/out" None
                "mp3" (JInt 1) world0
                (mkResponse 200 (inl (ValueError "Expecting value")) "ok")
                (mkResponse 200 (inl (ValueError "Expecting value")) "ID3-audio")
                ltac:(discriminate) eq_refl eq_refl eq_refl eq_refl)
      as [Hsaved _].
    apply (Hsaved "/out" eq_refl). intros n p. repeat split.
  - destruct (text_to_speech_saves_reply voice_studio "http://ai/" "tts-1"
                (fun _ => inl (mkExn "RuntimeError"
                                     "Could not determine home directory."))
                (fun _ => noon) "Hello, world!" "alloy" "~nobody/out" None
                "mp3" (JInt 1) world0
                (mkResponse 200 (inl (ValueError "Expecting value")) "ok")
                (mkResponse 200 (inl (ValueError "Expecting value")) "ID3-audio")
                ltac:(discriminate) eq_refl eq_refl eq_refl eq_refl)
      as [_ Hfailed].
    apply (Hfailed (mkExn "RuntimeError" "Could not determine home directory.")).
    reflexivity.
Defined.

Lemma failed_result_reads_as_in_progress_witness :
  exists e,
    UVR5Server.separate_audio stalled_studio "http://uvr5" "/music/song.mp3"
      "UVR-MDX-NET" "/out" "wav" true true world0
    = (Ret (mkText ("Separation in progress. Job ID: sep-7" ++ newline
                    ++ "Check status later.")),
       mkWorld 3 3
         [EvLog ERROR ("Failed to get separation result: " ++ exn_msg e);
          EvRequest (UVR5.result_request "http://uvr5" (JStr "sep-7"))
                    (Reply (mkResponse 503 (inl (ValueError "Expecting value")) "Busy"))
                    2 3;
          EvLog INFO "Separation job queued with ID: sep-7";
          EvRequest (POST_files "http://uvr5/api/separate" "ID3"
                                [("model_name", "UVR-MDX-NET"); ("output_format", "wav");
                                 ("stem_naming", "standard")])
                    (Reply (mkResponse 200
                              (inr (JObj [("job_id", JStr "sep-7");
                                          ("status", JStr "queued")])) EmptyString))
                    1 2;
          EvRequest (GET "http://uvr5/health" [])
                    (Reply (mkResponse 200 (inr (JObj [])) "{}")) 0 1]).
Proof.
  apply (failed_result_reads_as_in_progress stalled_studio "http://uvr5"
           "/music/song.mp3" "UVR-MDX-NET" "/out" "wav" true true world0
           (mkResponse 200 (inr (JObj [])) "{}")
           (mkResponse 200 (inr (JObj [("job_id", JStr "sep-7");
                                       ("status", JStr "queued")])) EmptyString)
           "ID3"
           (JObj [("job_id", JStr "sep-7"); ("status", JStr "queued")])
           (JStr "sep-7"));
    reflexivity.
Defined.

Lemma save_all_confined_witness :
  Forall (confined "/out")
         (trace (snd (ComfyUIServer.save_all lossy_backend "http://comfy" "/out"
                        three_files world0))).
Proof.
  apply (save_all_confined lossy_backend "http://comfy" "/out" three_files world0).
  - reflexivity.
  - constructor.
Defined.

Lemma uvr5_files_confined_witness :
  Forall (confined "/out")
         (trace (snd (UVR5Server.separate_audio stem_studio "http://uvr5"
                        "/music/song.mp3" "UVR-MDX-NET" "/out" "wav" true true world0))).
Proof.
  apply (uvr5_files_confined stem_studio "http://uvr5" "/music/song.mp3" "UVR-MDX-NET"
           "/out" "wav" true true world0).
  - reflexivity.
  - constructor.
Defined.
